(** * Balanced sampling and pair-group construction of [datasets/classification.py]

    A shallow embedding of [ClassificationDataset], [EvenSampler],
    [DomainAdaptationPairDataset], [PassDataset] and the entry points
    [pairs_get_datasets], [pairs_get_datasets_c], [office5_get_datasets]
    and [asl_get_datasets], with the statements of the specification
    settled against it and further properties of the code.

    Conventions of the embedding.
    - Python exceptions are values of [exn]; a computation returns a
      [result].
    - The calls to [torch.randperm], [random.randint] and [random.sample]
      read their outcome from a tape of recorded draws, threaded through
      the [rand] monad in program order.  A tape that is too short, or whose
      next entry is not a possible outcome of the call made, gives [NoDraw]:
      the tape does not describe a run of the program.
    - Lists are Python lists or one-dimensional tensors; list positions are
      [nat], quantities the code subtracts from or divides are [Z]. *)

From Stdlib Require Import ZArith List String Lia Permutation Bool.
From stdpp Require Import base list strings.
Import ListNotations.

Local Open Scope Z_scope.
Local Open Scope nat_scope.

(** ** Exceptions and results *)

Inductive exn : Type :=
| AssertionError (msg : string)
| IndexError
| ValueError
| ZeroDivisionError
| TypeError
| RuntimeError.

Inductive result (A : Type) : Type :=
| Ok (a : A)
| Raise (e : exn)
| NoDraw.

Arguments Ok {A} a.
Arguments Raise {A} e.
Arguments NoDraw {A}.

Definition rbind {A B} (m : result A) (k : A -> result B) : result B :=
  match m with
  | Ok a => k a
  | Raise e => Raise e
  | NoDraw => NoDraw
  end.

Declare Scope res_scope.
Delimit Scope res_scope with res.
Notation "x <- m ;; k" := (rbind m (fun x => k))
  (at level 100, m at next level, right associativity) : res_scope.

(** [l[i]] for a non-negative position. *)
Definition index {A} (l : list A) (i : nat) : result A :=
  match l !! i with
  | Some x => Ok x
  | None => Raise IndexError
  end.

(** [[f(x) for x in l]], stopping at the first exception. *)
Fixpoint mapR {A B} (f : A -> result B) (l : list A) : result (list B) :=
  match l with
  | [] => Ok []
  | x :: xs => (y <- f x ;; ys <- mapR f xs ;; Ok (y :: ys))%res
  end.

(** [l[0:stop]] and [l[start:]] with Python's reading of a negative bound. *)
Definition slice_to {A} (stop : Z) (l : list A) : list A :=
  if (0 <=? stop)%Z then take (Z.to_nat stop) l
  else take (length l - Z.to_nat (- stop)) l.

Definition slice_from {A} (start : Z) (l : list A) : list A :=
  if (0 <=? start)%Z then drop (Z.to_nat start) l
  else drop (length l - Z.to_nat (- start)) l.

(** [max(l)] and [min(l)]: [ValueError] on the empty list. *)
Definition pymax (l : list nat) : result nat :=
  match l with
  | [] => Raise ValueError
  | x :: xs => Ok (fold_left Nat.max xs x)
  end.

Definition pymin (l : list nat) : result nat :=
  match l with
  | [] => Raise ValueError
  | x :: xs => Ok (fold_left Nat.min xs x)
  end.

(** [math.comb]. *)
Fixpoint comb (n k : nat) : nat :=
  match k, n with
  | O, _ => 1
  | S _, O => 0
  | S k', S n' => comb n' k' + comb n' k
  end.

(** ** The tape of random outcomes *)

Inductive draw : Type :=
| Randperm (p : list nat)
| Randint (r : nat)
| Sample2 (a b : nat).

Definition rand (A : Type) : Type := list draw -> result (A * list draw).

Definition ret {A} (a : A) : rand A := fun tape => Ok (a, tape).

Definition bind {A B} (m : rand A) (k : A -> rand B) : rand B :=
  fun tape =>
    match m tape with
    | Ok (a, tape') => k a tape'
    | Raise e => Raise e
    | NoDraw => NoDraw
    end.

Definition lift {A} (r : result A) : rand A :=
  fun tape =>
    match r with
    | Ok a => Ok (a, tape)
    | Raise e => Raise e
    | NoDraw => NoDraw
    end.

Declare Scope rand_scope.
Delimit Scope rand_scope with rand.
Notation "x <- m ;; k" := (bind m (fun x => k))
  (at level 100, m at next level, right associativity) : rand_scope.

(** [torch.randperm(n)]: some permutation of [0 .. n-1]. *)
Definition randperm (n : nat) : rand (list nat) :=
  fun tape =>
    match tape with
    | Randperm p :: tape' =>
        if bool_decide (p ≡ₚ seq 0 n) then Ok (p, tape') else NoDraw
    | _ => NoDraw
    end.

(** [random.randint(a, b)]: an integer of [a .. b]; [ValueError] on an empty
    range.  The upper bound may be a float that is not integral ([None]),
    which [randint] refuses with [ValueError] as well. *)
Definition randint (a : nat) (b : option Z) : rand nat :=
  fun tape =>
    match b with
    | None => Raise ValueError
    | Some b =>
        if (b <? Z.of_nat a)%Z then Raise ValueError
        else match tape with
             | Randint r :: tape' =>
                 if (a <=? r) && (Z.of_nat r <=? b)%Z then Ok (r, tape')
                 else NoDraw
             | _ => NoDraw
             end
    end.

(** [random.sample(range(n), 2)]: two distinct elements of [0 .. n-1];
    [ValueError] when the population is smaller than the sample. *)
Definition sample2 (n : nat) : rand (nat * nat) :=
  fun tape =>
    if n <? 2 then Raise ValueError
    else match tape with
         | Sample2 a b :: tape' =>
             if (a <? n) && (b <? n) && negb (a =? b)
             then Ok ((a, b), tape') else NoDraw
         | _ => NoDraw
         end.

Fixpoint mapM {A B} (f : A -> rand B) (l : list A) : rand (list B) :=
  match l with
  | [] => ret []
  | x :: xs => (y <- f x ;; ys <- mapM f xs ;; ret (y :: ys))%rand
  end.

(** ** ClassificationDataset *)

(** A directory as [os.walk] reports it: its path, and its immediate
    subdirectories in the order of enumeration, each with the files below
    it. *)
Record directory : Type := {
  dir_path : string;
  dir_classes : list (string * list string)
}.

Module ClassificationDataset.

Record t : Type := mk {
  imgs : list string;
  labels : list nat;
  subset : list nat
}.

(** [self.classes[name]] for the dictionary
    [{img_classes[i] : i for i in range(len(img_classes))}]: the last
    position of [name], [KeyError] being impossible for a name taken from
    the same listing. *)
Fixpoint classes (img_classes : list string) (i : nat) (name : string)
  : option nat :=
  match img_classes with
  | [] => None
  | c :: cs =>
      match classes cs (S i) name with
      | Some j => Some j
      | None => if String.eqb c name then Some i else None
      end
  end.

Definition join (a b : string) : string := (a ++ "/" ++ b)%string.

(** The loop over [os.walk]: one round per class subdirectory, one pair
    of appends per file. *)
Fixpoint scan (root : string) (img_classes : list string)
    (sub : list (string * list string)) : list string * list nat :=
  match sub with
  | [] => ([], [])
  | (name, files) :: rest =>
      let (ps, ls) := scan root img_classes rest in
      (map (fun f => join (join root name) f) files ++ ps,
       map (fun _ => default 0 (classes img_classes 0 name)) files ++ ls)
  end.

Definition init (img_dir_path : directory) (subset : option (list nat)) : t :=
  let img_classes := map fst (dir_classes img_dir_path) in
  let (imgs, labels) :=
    scan (dir_path img_dir_path) img_classes (dir_classes img_dir_path) in
  {| imgs := imgs;
     labels := labels;
     subset := match subset with
               | None => seq 0 (length imgs)
               | Some s => s
               end |}.

Definition len (d : t) : nat := length (subset d).

End ClassificationDataset.

(** ** EvenSampler *)

(** [torch.flatten((labels == c).nonzero())]: the positions holding [c]. *)
Fixpoint nonzero_eq (c : nat) (labels : list nat) (pos : nat) : list nat :=
  match labels with
  | [] => []
  | l :: ls =>
      if l =? c then pos :: nonzero_eq c ls (S pos)
      else nonzero_eq c ls (S pos)
  end.

Module EvenSampler.

Record t : Type := mk {
  labels : list nat;
  shot : Z;
  num_classes : nat;
  class_idxs : list (list nat);
  remain_class_idxs : list (list nat);
  class_idx_lens : list nat;
  max_len : nat;
  min_len : nat
}.

Definition init (dataset : ClassificationDataset.t) (shot : Z) : result t :=
  (labels <- mapR (index (ClassificationDataset.labels dataset))
                  (ClassificationDataset.subset dataset) ;;
   let num_classes := length (remove_dups labels) in
   let class_idxs :=
     map (fun c => if (shot =? -1)%Z then nonzero_eq c labels 0
                   else slice_to shot (nonzero_eq c labels 0))
         (seq 0 num_classes) in
   let remain_class_idxs :=
     if (shot =? -1)%Z then []
     else map (fun c => slice_from shot (nonzero_eq c labels 0))
              (seq 0 num_classes) in
   let class_idx_lens := map (fun idxs : list nat => length idxs) class_idxs in
   max_len <- pymax class_idx_lens ;;
   min_len <- pymin class_idx_lens ;;
   Ok {| labels := labels;
         shot := shot;
         num_classes := num_classes;
         class_idxs := class_idxs;
         remain_class_idxs := remain_class_idxs;
         class_idx_lens := class_idx_lens;
         max_len := max_len;
         min_len := min_len |})%res.

(** One round of the loop of [__iter__]: shuffle a bucket, keep its first
    [min_len] entries. *)
Definition reshuffle (min_len : nat) (c : list nat) : rand (list nat) :=
  (rand_idx <- randperm (length c) ;;
   let shuffled := map (fun j => nth j c 0) rand_idx in
   ret (take min_len shuffled))%rand.

(** [torch.stack(ts, dim=1)] followed by the flattening [view]: row [k]
    holds entry [k] of every tensor.  [RuntimeError] when there is no
    tensor or the sizes differ. *)
Definition stack_flat (ts : list (list nat)) : result (list nat) :=
  match ts with
  | [] => Raise RuntimeError
  | t0 :: _ =>
      if forallb (fun t : list nat => length t =? length t0) ts
      then Ok (flat_map (fun k => map (fun t => nth k t 0) ts)
                        (seq 0 (length t0)))
      else Raise RuntimeError
  end.

(** [__iter__]: the emitted sequence, and the sampler with the buckets it
    has overwritten. *)
Definition iter (self : t) : rand (list nat * t) :=
  (cs <- mapM (reshuffle (min_len self)) (class_idxs self) ;;
   zipped <- lift (stack_flat cs) ;;
   ret (zipped,
        {| labels := labels self;
           shot := shot self;
           num_classes := num_classes self;
           class_idxs := cs;
           remain_class_idxs := remain_class_idxs self;
           class_idx_lens := class_idx_lens self;
           max_len := max_len self;
           min_len := min_len self |}))%rand.

Definition len (self : t) : nat := length (labels self).

End EvenSampler.

(** ** DomainAdaptationPairDataset *)

Module DomainAdaptationPairDataset.

Definition paths : Type := (string * string)%type.
Definition pair_label : Type := (nat * (nat * nat))%type.

Record t : Type := mk {
  shot : Z;
  adv_stage : bool;
  source_dataset : ClassificationDataset.t;
  target_dataset : ClassificationDataset.t;
  s_sampler : EvenSampler.t;
  t_sampler : EvenSampler.t;
  num_G1_pairs : Z;
  num_G2_pairs : Z;
  num_G3_pairs : Z;
  num_G4_pairs : Z;
  min_pairs : Z;
  min_pairs_multiple : Z;
  G1_img_paths : list paths;
  G1_labels : list pair_label;
  G2_img_paths : list paths;
  G2_labels : list pair_label;
  G3_img_paths : list paths;
  G3_labels : list pair_label;
  G4_img_paths : list paths;
  G4_labels : list pair_label;
  s_sampler_idxs : list nat;
  t_sampler_idxs : list nat;
  num_s_partitions : option Z;
  num_t_partitions : option Z;
  group_imgs : list (list paths);
  group_labels : list (list pair_label);
  subset : list nat
}.

(** The message of the check on the two class listings. *)
Definition class_mismatch : string := "source and target classes not the same".

(** The branch of [__init__] that settles the two datasets: the ones
    handed in, or the ones scanned from the two paths after comparing the
    two listings of class subdirectories.  [os.walk(None)] is a
    [TypeError]. *)
Definition datasets (source_img_dir_path target_img_dir_path : option directory)
    (source_dataset target_dataset : option ClassificationDataset.t)
  : result (ClassificationDataset.t * ClassificationDataset.t) :=
  match source_dataset, target_dataset with
  | Some sd, Some td => Ok (sd, td)
  | _, _ =>
      match source_img_dir_path, target_img_dir_path with
      | Some sp, Some tp =>
          let source_img_classes := map fst (dir_classes sp) in
          let target_img_classes := map fst (dir_classes tp) in
          if negb (bool_decide (source_img_classes = target_img_classes))
          then Raise (AssertionError class_mismatch)
          else Ok (ClassificationDataset.init sp None,
                   ClassificationDataset.init tp None)
      | _, _ => Raise TypeError
      end
  end.

(** The four counts of possible pairs, as first assigned to
    [num_G1_pairs] .. [num_G4_pairs]. *)
Definition possible_pairs (s t : EvenSampler.t) : result (Z * Z * Z * Z) :=
  let s_lens := EvenSampler.class_idx_lens s in
  let t_lens := EvenSampler.class_idx_lens t in
  (g1 <- mapR (fun i => n <- index s_lens i ;; Ok (comb n 2))
              (seq 0 (EvenSampler.num_classes s)) ;;
   g2 <- mapR (fun i => a <- index s_lens i ;; b <- index t_lens i ;; Ok (a * b))
              (seq 0 (EvenSampler.num_classes t)) ;;
   let g3 := comb (length (EvenSampler.labels s)) 2 in
   g4 <- mapR (fun i =>
                 row <- mapR (fun j => a <- index s_lens j ;;
                                       b <- index t_lens i ;; Ok (a * b))
                             (filter (fun j => i <> j)
                                     (seq 0 (EvenSampler.num_classes s))) ;;
                 Ok (sum_list row))
              (seq 0 (EvenSampler.num_classes t)) ;;
   Ok (Z.of_nat (sum_list g1), Z.of_nat (sum_list g2), Z.of_nat g3,
       Z.of_nat (sum_list g4)))%res.

(** [len(idxs)/num_classes - 1], a true division: [None] stands for a
    float that is not integral. *)
Definition partitions (len num_classes : nat) : result (option Z) :=
  if num_classes =? 0 then Raise ZeroDivisionError
  else if len mod num_classes =? 0
       then Ok (Some (Z.of_nat (len / num_classes) - 1)%Z)
       else Ok None.

(** The lists and the counter a drawing loop works on. *)
Record group : Type := {
  img_paths : list paths;
  labels : list pair_label;
  pair_cnt : Z
}.

Definition no_pairs : group := {| img_paths := []; labels := []; pair_cnt := 0 |}.

(** [sub[idxs[k]]]. *)
Definition pick (sub idxs : list nat) (k : nat) : result nat :=
  (i <- index idxs k ;; index sub i)%res.

(** The two appends and the increment that end the body of each drawing
    loop.  The group comes back as the statements left it, also when one
    of them raises. *)
Definition append_pair (lbl : nat) (d1 d2 : ClassificationDataset.t)
    (x1_idx x2_idx : nat) (g : group) : group * result unit :=
  match (a <- index (ClassificationDataset.imgs d1) x1_idx ;;
         b <- index (ClassificationDataset.imgs d2) x2_idx ;; Ok (a, b))%res with
  | Ok ab =>
      let g1 := {| img_paths := img_paths g ++ [ab];
                   labels := labels g;
                   pair_cnt := pair_cnt g |} in
      match (a <- index (ClassificationDataset.labels d1) x1_idx ;;
             b <- index (ClassificationDataset.labels d2) x2_idx ;; Ok (a, b))%res with
      | Ok l =>
          ({| img_paths := img_paths g1;
              labels := labels g1 ++ [(lbl, l)];
              pair_cnt := (pair_cnt g1 + 1)%Z |}, Ok tt)
      | Raise e => (g1, Raise e)
      | NoDraw => (g1, NoDraw)
      end
  | Raise e => (g, Raise e)
  | NoDraw => (g, NoDraw)
  end.

(** A body whose exceptions leave the loop. *)
Definition propagate (r : result (nat * nat))
    (k : nat -> nat -> group * result unit) : rand group :=
  match r with
  | Ok (x1_idx, x2_idx) =>
      match k x1_idx x2_idx with
      | (g', Ok _) => ret g'
      | (_, Raise e) => lift (Raise e)
      | (_, NoDraw) => lift NoDraw
      end
  | Raise e => lift (Raise e)
  | NoDraw => lift NoDraw
  end.

(** A body under [try: ... except IndexError: print(...)]: the round ends
    and the loop goes on. *)
Definition except_IndexError (r : result (nat * nat))
    (k : nat -> nat -> group * result unit) (g : group) : rand group :=
  match r with
  | Ok (x1_idx, x2_idx) =>
      match k x1_idx x2_idx with
      | (g', Ok _) => ret g'
      | (g', Raise IndexError) => ret g'
      | (_, Raise e) => lift (Raise e)
      | (_, NoDraw) => lift NoDraw
      end
  | Raise IndexError => ret g
  | Raise e => lift (Raise e)
  | NoDraw => lift NoDraw
  end.

(** [while pair_cnt < num: body].  Every round that returns has consumed a
    draw, so a loop given more rounds than the tape has entries is never
    stopped by the bound. *)
Fixpoint while_fuel (fuel : nat) (num : Z) (body : group -> rand group)
    (g : group) : rand group :=
  if (pair_cnt g <? num)%Z then
    match fuel with
    | O => lift NoDraw
    | S fuel' => (g' <- body g ;; while_fuel fuel' num body g')%rand
    end
  else ret g.

Definition while_pairs (num : Z) (body : group -> rand group) : rand group :=
  fun tape => while_fuel (S (length tape)) num body no_pairs tape.

Section Draws.
Variables (source_dataset target_dataset : ClassificationDataset.t).
Variables (s_num_classes t_num_classes : nat).
Variables (s_sampler_idxs t_sampler_idxs : list nat).
Variables (num_s_partitions num_t_partitions : option Z).
Variable adv_stage : bool.

Let s_sub := ClassificationDataset.subset source_dataset.
Let t_sub := ClassificationDataset.subset target_dataset.

Definition G1_body (g : group) : rand group :=
  (r1 <- randint 0 num_s_partitions ;;
   let p1 := r1 * s_num_classes in
   r2 <- randint 0 num_s_partitions ;;
   let p2 := r2 * s_num_classes in
   c <- randint 0 (Some (Z.of_nat s_num_classes - 1)%Z) ;;
   except_IndexError
     (x1_idx <- pick s_sub s_sampler_idxs (p1 + c) ;;
      x2_idx <- pick s_sub s_sampler_idxs (p2 + c) ;; Ok (x1_idx, x2_idx))%res
     (fun x1_idx x2_idx =>
        append_pair 0 source_dataset source_dataset x1_idx x2_idx g) g)%rand.

Definition G2_body (g : group) : rand group :=
  (r1 <- randint 0 num_s_partitions ;;
   let p1 := r1 * s_num_classes in
   r2 <- randint 0 num_t_partitions ;;
   let p2 := r2 * s_num_classes in
   c <- randint 0 (Some (Z.of_nat s_num_classes - 1)%Z) ;;
   propagate
     (x1_idx <- pick s_sub s_sampler_idxs (p1 + c) ;;
      x2_idx <- pick t_sub t_sampler_idxs (p2 + c) ;; Ok (x1_idx, x2_idx))%res
     (fun x1_idx x2_idx =>
        append_pair (if adv_stage then 0 else 1)
                    source_dataset target_dataset x1_idx x2_idx g))%rand.

Definition G3_body (g : group) : rand group :=
  (r1 <- randint 0 num_s_partitions ;;
   let p1 := r1 * s_num_classes in
   r2 <- randint 0 num_s_partitions ;;
   let p2 := r2 * s_num_classes in
   cs <- sample2 s_num_classes ;;
   let (c1, c2) := cs : nat * nat in
   propagate
     (x1_idx <- pick s_sub s_sampler_idxs (p1 + c1) ;;
      x2_idx <- pick s_sub s_sampler_idxs (p2 + c2) ;; Ok (x1_idx, x2_idx))%res
     (fun x1_idx x2_idx =>
        append_pair 2 source_dataset source_dataset x1_idx x2_idx g))%rand.

Definition G4_body (g : group) : rand group :=
  (r1 <- randint 0 num_s_partitions ;;
   let p1 := r1 * s_num_classes in
   r2 <- randint 0 num_t_partitions ;;
   let p2 := r2 * t_num_classes in
   cs <- sample2 s_num_classes ;;
   let (c1, c2) := cs : nat * nat in
   propagate
     (x1_idx <- pick s_sub s_sampler_idxs (p1 + c1) ;;
      x2_idx <- pick t_sub t_sampler_idxs (p2 + c2) ;; Ok (x1_idx, x2_idx))%res
     (fun x1_idx x2_idx =>
        append_pair (if adv_stage then 2 else 3)
                    source_dataset target_dataset x1_idx x2_idx g))%rand.
End Draws.

(** [__init__] from the point where [self.source_dataset] and
    [self.target_dataset] are set. *)
Definition construct (shot : Z) (pair_factor : Z) (adv_stage : bool)
    (subset : option (list nat))
    (source_dataset target_dataset : ClassificationDataset.t) : rand t :=
  (s_sampler <- lift (EvenSampler.init source_dataset (-1)) ;;
   t_sampler <- lift (EvenSampler.init target_dataset shot) ;;
   possible <- lift (possible_pairs s_sampler t_sampler) ;;
   let '(G1, G2, G3, G4) := possible : Z * Z * Z * Z in
   let min_pairs := Z.min (Z.min (Z.min G1 G2) G3) G4 in
   let min_pairs_multiple := pair_factor in
   min_pairs <- lift (if (min_pairs_multiple =? 0)%Z then Raise ZeroDivisionError
                      else Ok (min_pairs / min_pairs_multiple)%Z) ;;
   let num_G1_pairs := Z.min G1 (min_pairs_multiple * min_pairs) in
   let num_G2_pairs := Z.min G2 (min_pairs_multiple * min_pairs) in
   let num_G3_pairs := Z.min G3 (min_pairs_multiple * min_pairs) in
   let num_G4_pairs := Z.min G4 (min_pairs_multiple * min_pairs) in
   s_it <- EvenSampler.iter s_sampler ;;
   let (s_sampler_idxs, s_sampler) := s_it : list nat * EvenSampler.t in
   t_it <- EvenSampler.iter t_sampler ;;
   let (t_sampler_idxs, t_sampler) := t_it : list nat * EvenSampler.t in
   num_s_partitions <- lift (partitions (length s_sampler_idxs)
                                        (EvenSampler.num_classes s_sampler)) ;;
   num_t_partitions <- lift (partitions (length t_sampler_idxs)
                                        (EvenSampler.num_classes t_sampler)) ;;
   let s_nc := EvenSampler.num_classes s_sampler in
   let t_nc := EvenSampler.num_classes t_sampler in
   g1 <- while_pairs num_G1_pairs
           (G1_body source_dataset s_nc s_sampler_idxs num_s_partitions) ;;
   g2 <- while_pairs num_G2_pairs
           (G2_body source_dataset target_dataset s_nc
                    s_sampler_idxs t_sampler_idxs
                    num_s_partitions num_t_partitions adv_stage) ;;
   g3 <- while_pairs num_G3_pairs
           (G3_body source_dataset s_nc s_sampler_idxs num_s_partitions) ;;
   (* the loop that fills G4 runs up to [num_G2_pairs] *)
   g4 <- while_pairs num_G2_pairs
           (G4_body source_dataset target_dataset s_nc t_nc
                    s_sampler_idxs t_sampler_idxs
                    num_s_partitions num_t_partitions adv_stage) ;;
   ret {| shot := shot;
          adv_stage := adv_stage;
          source_dataset := source_dataset;
          target_dataset := target_dataset;
          s_sampler := s_sampler;
          t_sampler := t_sampler;
          num_G1_pairs := num_G1_pairs;
          num_G2_pairs := num_G2_pairs;
          num_G3_pairs := num_G3_pairs;
          num_G4_pairs := num_G4_pairs;
          min_pairs := min_pairs;
          min_pairs_multiple := min_pairs_multiple;
          G1_img_paths := img_paths g1;
          G1_labels := labels g1;
          G2_img_paths := img_paths g2;
          G2_labels := labels g2;
          G3_img_paths := img_paths g3;
          G3_labels := labels g3;
          G4_img_paths := img_paths g4;
          G4_labels := labels g4;
          s_sampler_idxs := s_sampler_idxs;
          t_sampler_idxs := t_sampler_idxs;
          num_s_partitions := num_s_partitions;
          num_t_partitions := num_t_partitions;
          group_imgs :=
            if adv_stage then [img_paths g2; img_paths g4]
            else [img_paths g1; img_paths g2; img_paths g3; img_paths g4];
          group_labels :=
            if adv_stage then [labels g2; labels g4]
            else [labels g1; labels g2; labels g3; labels g4];
          subset :=
            match subset with
            | None =>
                if adv_stage then seq 0 (Z.to_nat (2 * min_pairs))
                else seq 0 (Z.to_nat (4 * min_pairs))
            | Some s => s
            end |})%rand.

Definition init (source_img_dir_path target_img_dir_path : option directory)
    (shot : Z) (pair_factor : Z) (adv_stage : bool)
    (source_dataset target_dataset : option ClassificationDataset.t)
    (subset : option (list nat)) : rand t :=
  (ds <- lift (datasets source_img_dir_path target_img_dir_path
                        source_dataset target_dataset) ;;
   construct shot pair_factor adv_stage subset (fst ds) (snd ds))%rand.

Definition len (self : t) : nat := length (subset self).

End DomainAdaptationPairDataset.

(** ** pairs_get_datasets *)

(** The fields of [conf] the function reads.  [validation_split] is a float
    that only occurs in [int(len(train_dataset)*conf.validation_split)]; the
    field holds that function of the length. *)
Record conf : Type := {
  k : Z;
  constrained_validation : bool;
  validation_split : nat -> nat
}.

Definition k_too_small : string :=
  "k must be >= 3, must have at least one sample per class in the validation set".

(** [data] gives the two directories [data_dir[0]/train] and
    [data_dir[1]/train]. *)
Definition pairs_get_datasets (data : directory * directory) (conf : conf)
    (pair_factor : Z)
  : rand (DomainAdaptationPairDataset.t * DomainAdaptationPairDataset.t) :=
  let (source_train, target_train) := data in
  (train_dataset <- DomainAdaptationPairDataset.init
                      (Some source_train) (Some target_train)
                      (k conf) pair_factor false None None None ;;
   if constrained_validation conf then
     indices <- randperm (DomainAdaptationPairDataset.len train_dataset) ;;
     let val_size :=
       validation_split conf (DomainAdaptationPairDataset.len train_dataset) in
     train_dataset <- DomainAdaptationPairDataset.init
                        (Some source_train) (Some target_train)
                        (k conf) pair_factor false None None
                        (Some (drop val_size indices)) ;;
     val_dataset <- DomainAdaptationPairDataset.init
                      (Some source_train) (Some target_train)
                      (k conf) pair_factor false None None
                      (Some (take val_size indices)) ;;
     ret (train_dataset, val_dataset)
   else
     _ <- lift (if (3 <=? k conf)%Z then Ok tt
                else Raise (AssertionError k_too_small)) ;;
     let source_train_dataset := ClassificationDataset.init source_train None in
     indices <- randperm (ClassificationDataset.len source_train_dataset) ;;
     let val_size := ClassificationDataset.len source_train_dataset / 3 in
     let source_train_dataset :=
       ClassificationDataset.init source_train (Some (drop val_size indices)) in
     let source_val_dataset :=
       ClassificationDataset.init source_train (Some (take val_size indices)) in
     let target_train_dataset := ClassificationDataset.init target_train None in
     sampler <- lift (EvenSampler.init target_train_dataset (k conf)) ;;
     it <- EvenSampler.iter sampler ;;
     let (idxs, sampler) := it : list nat * EvenSampler.t in
     let val_k := (k conf / 3)%Z in
     let cut := (Z.of_nat (EvenSampler.num_classes sampler) * val_k)%Z in
     let target_train_dataset :=
       ClassificationDataset.init target_train (Some (slice_from cut idxs)) in
     let target_val_dataset :=
       ClassificationDataset.init target_train (Some (slice_to cut idxs)) in
     labels <- lift (mapR (index (ClassificationDataset.labels target_val_dataset))
                          (slice_to cut idxs)) ;;
     train_dataset <- DomainAdaptationPairDataset.init None None
                        (k conf - val_k)%Z pair_factor false
                        (Some source_train_dataset) (Some target_train_dataset)
                        None ;;
     val_dataset <- DomainAdaptationPairDataset.init None None
                      val_k pair_factor false
                      (Some source_val_dataset) (Some target_val_dataset) None ;;
     ret (train_dataset, val_dataset))%rand.

(** * Vocabulary of the statements, and the data of the examples *)

Import DomainAdaptationPairDataset.

(** What one pass of [__iter__] over the buckets leaves in each of them. *)
Definition reshuffled (m : nat) (c c' : list nat) : Prop :=
  exists s, s ≡ₚ c /\ c' = take m s.

(** The invariant of the buckets: one bucket per class, each holding only
    positions of its class and at least [min_len] of them. *)
Record balanced (es : EvenSampler.t) : Prop := {
  bal_classes : length (EvenSampler.class_idxs es) = EvenSampler.num_classes es;
  bal_nonempty : 0 < EvenSampler.num_classes es;
  bal_bucket : forall c b,
    EvenSampler.class_idxs es !! c = Some b ->
    EvenSampler.min_len es <= length b /\
    forall p, p ∈ b -> EvenSampler.labels es !! p = Some c
}.

(** The samplers an [EvenSampler] object goes through: the one [__init__]
    built, and the one every call of [__iter__] leaves behind. *)
Inductive iterated (es0 : EvenSampler.t) : EvenSampler.t -> Prop :=
| iterated_init : iterated es0 es0
| iterated_iter es tape out es' tape' :
    iterated es0 es ->
    EvenSampler.iter es tape = Ok (out, es', tape') ->
    iterated es0 es'.

(** The directory of the scenario: ten images of cats, four of dogs. *)
Definition cats_dogs : directory :=
  {| dir_path := "data";
     dir_classes :=
       [("cat"%string, ["c0"; "c1"; "c2"; "c3"; "c4"; "c5"; "c6"; "c7"; "c8"; "c9"]%string);
        ("dog"%string, ["d0"; "d1"; "d2"; "d3"]%string)] |}.

Definition cats_dogs_sampler : EvenSampler.t :=
  {| EvenSampler.labels := [0; 0; 0; 0; 0; 0; 0; 0; 0; 0; 1; 1; 1; 1];
     EvenSampler.shot := -1;
     EvenSampler.num_classes := 2;
     EvenSampler.class_idxs := [[0; 1; 2; 3; 4; 5; 6; 7; 8; 9]; [10; 11; 12; 13]];
     EvenSampler.remain_class_idxs := [];
     EvenSampler.class_idx_lens := [10; 4];
     EvenSampler.max_len := 10;
     EvenSampler.min_len := 4 |}.

(** The directory of a dataset one class of which has no image. *)
Definition cat_bird_dog : directory :=
  {| dir_path := "data";
     dir_classes := [("cat"%string, ["c0"; "c1"]%string);
                     ("bird"%string, []);
                     ("dog"%string, ["d0"]%string)] |}.

(** Three images of one class and one of another: the longer bucket is cut
    to one entry. *)
Definition three_one : ClassificationDataset.t :=
  {| ClassificationDataset.imgs := ["a0"; "a1"; "a2"; "b0"]%string;
     ClassificationDataset.labels := [0; 0; 0; 1];
     ClassificationDataset.subset := [0; 1; 2; 3] |}.

Definition three_one_sampler (class_idxs : list (list nat)) : EvenSampler.t :=
  {| EvenSampler.labels := [0; 0; 0; 1];
     EvenSampler.shot := -1;
     EvenSampler.num_classes := 2;
     EvenSampler.class_idxs := class_idxs;
     EvenSampler.remain_class_idxs := [];
     EvenSampler.class_idx_lens := [3; 1];
     EvenSampler.max_len := 3;
     EvenSampler.min_len := 1 |}.

(** A dataset as [ClassificationDataset.__init__] leaves it: one label per
    image. *)
Definition aligned (d : ClassificationDataset.t) : Prop :=
  length (ClassificationDataset.imgs d) = length (ClassificationDataset.labels d).

(** One more pair in a group, with pair label [lbl]. *)
Definition grown (lbl : nat) (g g' : group) : Prop :=
  exists ps l,
    img_paths g' = img_paths g ++ [ps] /\
    labels g' = labels g ++ [(lbl, l)] /\
    pair_cnt g' = (pair_cnt g + 1)%Z.

(** A pair of paths appended, the round abandoned before the labels. *)
Definition half_grown (g g' : group) : Prop :=
  exists ps,
    img_paths g' = img_paths g ++ [ps] /\
    labels g' = labels g /\
    pair_cnt g' = pair_cnt g.

(** A group as a loop that ran to [num] leaves it. *)
Record filled (lbl : nat) (num : Z) (g : group) : Prop := {
  filled_labels : Z.of_nat (length (labels g)) = Z.max 0 num;
  filled_lbl : Forall (fun l : pair_label => fst l = lbl) (labels g);
  filled_cnt : pair_cnt g = Z.max 0 num
}.

(** The values [construct] goes through when it returns. *)
Record constructed (shot pair_factor : Z) (adv : bool) (subset0 : option (list nat))
    (sd td : ClassificationDataset.t) (self : t) : Prop := {
  c_source : source_dataset self = sd;
  c_target : target_dataset self = td;
  c_adv : adv_stage self = adv;
  c_s_sampler : exists es0,
    EvenSampler.init sd (-1) = Ok es0 /\ iterated es0 (s_sampler self);
  c_t_sampler : exists es0,
    EvenSampler.init td shot = Ok es0 /\ iterated es0 (t_sampler self);
  c_factor : pair_factor <> 0%Z /\ min_pairs_multiple self = pair_factor;
  c_possible : exists G1 G2 G3 G4,
    possible_pairs (s_sampler self) (t_sampler self) = Ok (G1, G2, G3, G4) /\
    min_pairs self = (Z.min (Z.min (Z.min G1 G2) G3) G4 / pair_factor)%Z /\
    num_G1_pairs self = Z.min G1 (pair_factor * min_pairs self) /\
    num_G2_pairs self = Z.min G2 (pair_factor * min_pairs self) /\
    num_G3_pairs self = Z.min G3 (pair_factor * min_pairs self) /\
    num_G4_pairs self = Z.min G4 (pair_factor * min_pairs self);
  c_G1 : exists g, filled 0 (num_G1_pairs self) g /\
                   G1_img_paths self = img_paths g /\ G1_labels self = labels g /\
                   (aligned sd -> length (img_paths g) = length (labels g));
  c_G2 : exists g, filled (if adv then 0 else 1) (num_G2_pairs self) g /\
                   G2_img_paths self = img_paths g /\ G2_labels self = labels g /\
                   length (img_paths g) = length (labels g);
  c_G3 : exists g, filled 2 (num_G3_pairs self) g /\
                   G3_img_paths self = img_paths g /\ G3_labels self = labels g /\
                   length (img_paths g) = length (labels g);
  c_G4 : exists g, filled (if adv then 2 else 3) (num_G2_pairs self) g /\
                   G4_img_paths self = img_paths g /\ G4_labels self = labels g /\
                   length (img_paths g) = length (labels g);
  c_group_imgs : group_imgs self =
    if adv then [G2_img_paths self; G4_img_paths self]
    else [G1_img_paths self; G2_img_paths self; G3_img_paths self; G4_img_paths self];
  c_group_labels : group_labels self =
    if adv then [G2_labels self; G4_labels self]
    else [G1_labels self; G2_labels self; G3_labels self; G4_labels self];
  c_subset : subset self =
    match subset0 with
    | None => if adv then seq 0 (Z.to_nat (2 * min_pairs self))
              else seq 0 (Z.to_nat (4 * min_pairs self))
    | Some s => s
    end
}.

(** A run used in the examples below: two classes of two images in each
    domain, two pairs per group. *)
Definition two_by_two (root : string) : directory :=
  {| dir_path := root;
     dir_classes := [("cat"%string, ["a"; "b"]%string);
                     ("dog"%string, ["A"; "B"]%string)] |}.

Definition two_by_two_tape : list draw :=
  [Randperm [1; 0]; Randperm [0; 1]; Randperm [1; 0]; Randperm [0; 1];
   Randint 0; Randint 0; Randint 1; Randint 1; Randint 0; Randint 0;
   Randint 0; Randint 0; Randint 1; Randint 1; Randint 0; Randint 0;
   Randint 0; Randint 0; Sample2 1 0; Randint 1; Randint 0; Sample2 0 1;
   Randint 0; Randint 0; Sample2 1 0; Randint 1; Randint 0; Sample2 0 1].

Definition two_by_two_run (pair_factor : Z) (adv : bool) : result (t * list draw) :=
  init (Some (two_by_two "s")) (Some (two_by_two "t")) 2 pair_factor adv
       None None None two_by_two_tape.

(** Sum of [f c] over the classes [c < n]. *)
Definition sum_upto (n : nat) (f : nat -> nat) : nat := sum_list (map f (seq 0 n)).

(** Size of the bucket of class [c], 0 for a class the sampler has not. *)
Definition bucket_size (es : EvenSampler.t) (c : nat) : nat :=
  nth c (EvenSampler.class_idx_lens es) 0.

(** Number of samples labelled [c]. *)
Definition class_count (labels : list nat) (c : nat) : nat :=
  length (filter (fun l => l = c) labels).

(** What the cut to [shot] keeps of a bucket of [n] positions. *)
Definition kept (shot : Z) (n : nat) : nat :=
  if (shot =? -1)%Z then n
  else if (0 <=? shot)%Z then Nat.min (Z.to_nat shot) n
       else n - Z.to_nat (- shot).



(** The messages with which [r] can be an [AssertionError]. *)
Definition asserts {A} (P : string -> Prop) (r : result A) : Prop :=
  forall msg, r = Raise (AssertionError msg) -> P msg.

Definition assertsM {A} (P : string -> Prop) (m : rand A) : Prop :=
  forall tape, asserts P (m tape).

Definition cat_dog : directory :=
  {| dir_path := "source/train";
     dir_classes := [("cat"%string, ["c0"; "c1"; "c2"]%string);
                     ("dog"%string, ["d0"; "d1"; "d2"]%string)] |}.

Definition dog_cat : directory :=
  {| dir_path := "target/train";
     dir_classes := [("dog"%string, ["d0"; "d1"; "d2"]%string);
                     ("cat"%string, ["c0"; "c1"; "c2"]%string)] |}.

Definition rounds (n : nat) (round : list draw) : list draw :=
  concat (replicate n round).

(** A run of [pairs_get_datasets] with [k = 3]: the first dataset (six
    pairs per group), the split of the source, the sampler of the target,
    the training pairs (two per group) and the validation pairs (none). *)
Definition k3_tape : list draw :=
  replicate 4 (Randperm [0; 1; 2]) ++
  rounds 12 [Randint 0; Randint 0; Randint 0] ++
  rounds 12 [Randint 0; Randint 0; Sample2 0 1] ++
  [Randperm [0; 3; 1; 2; 4; 5]; Randperm [0; 1; 2]; Randperm [0; 1; 2]] ++
  replicate 4 (Randperm [0; 1]) ++
  rounds 4 [Randint 0; Randint 0; Randint 0] ++
  rounds 4 [Randint 0; Randint 0; Sample2 0 1] ++
  replicate 4 (Randperm [0]).

Definition k3_conf : conf :=
  {| k := 3; constrained_validation := false; validation_split := fun n => n / 10 |}.

Definition cat_dog_target : directory :=
  {| dir_path := "target/train"; dir_classes := dir_classes cat_dog |}.

Definition k2_conf : conf :=
  {| k := 2; constrained_validation := false; validation_split := fun n => n / 10 |}.

Definition k2_tape : list draw :=
  replicate 2 (Randperm [0; 1; 2]) ++ replicate 2 (Randperm [0; 1]) ++
  rounds 12 [Randint 0; Randint 0; Randint 0] ++
  rounds 12 [Randint 0; Randint 0; Sample2 0 1].

(** A target directory with more images than the shot of the runs: four
    per class. *)
Definition cat_dog_more : directory :=
  {| dir_path := "target/train";
     dir_classes := [("cat"%string, ["c0"; "c1"; "c2"; "c3"]%string);
                     ("dog"%string, ["d0"; "d1"; "d2"; "d3"]%string)] |}.

(** A run of the constrained branch: the first construction, the
    permutation of its eight positions, and the two constructions of the
    split, a quarter of the positions going to validation. *)
Definition quarter_conf : conf :=
  {| k := 2; constrained_validation := true; validation_split := fun n => n / 4 |}.

Definition quarter_tape : list draw :=
  two_by_two_tape ++ [Randperm [7; 0; 6; 1; 5; 2; 4; 3]] ++
  two_by_two_tape ++ two_by_two_tape.


(** * The rest of the classes and of the entry points *)

(** ** Items of the datasets *)


(** How a call of [DomainAdaptationPairDataset.__getitem__] ends: with a
    sample, in the [except] clause that prints and calls [exit()], or with
    an exception the method does not catch. *)
Inductive served (A : Type) : Type :=
| Sample (a : A)
| Exit
| Uncaught (e : exn).

Arguments Sample {A} a.
Arguments Exit {A}.
Arguments Uncaught {A} e.

(** [l[i]] for any integer [i], [None] for an [IndexError]. *)
Definition pylookup {A} (l : list A) (i : Z) : option A :=
  if (0 <=? i)%Z then l !! Z.to_nat i
  else if (- i <=? Z.of_nat (length l))%Z then l !! (length l - Z.to_nat (- i))
  else None.

(** [DomainAdaptationPairDataset.__getitem__] for a position [idx >= 0]:
    the pair of paths stands for the two images, the label is returned as
    stored.  The lookup in [subset] and the divisions come before the
    [try]; [IndexError] is among the exceptions the [except] clause
    lists. *)
Definition DomainAdaptationPairDataset_getitem (self : t) (idx : nat)
  : served (paths * pair_label) :=
  match subset self !! idx with
  | None => Uncaught IndexError
  | Some idx =>
      if (min_pairs self =? 0)%Z then Uncaught ZeroDivisionError
      else
        let group := (Z.of_nat idx / min_pairs self)%Z in
        let last := if adv_stage self then 1%Z else 3%Z in
        let group := if (last <? group)%Z then last else group in
        let sub_idx := (Z.of_nat idx mod min_pairs self)%Z in
        match pylookup (group_imgs self) group with
        | None => Exit
        | Some imgs =>
            match pylookup imgs sub_idx with
            | None => Exit
            | Some img_paths =>
                match pylookup (group_labels self) group with
                | None => Exit
                | Some labels =>
                    match pylookup labels sub_idx with
                    | None => Exit
                    | Some label => Sample (img_paths, label)
                    end
                end
            end
        end
  end.

(** ** PassDataset *)

Module PassDataset.

Record t : Type := mk { imgs : list string }.

(** [os.walk(img_dir_path)]: the directory itself with the files it holds,
    then every subdirectory with its files. *)
Definition walk (top_files : list string) (img_dir_path : directory)
  : list (string * list string) :=
  (dir_path img_dir_path, top_files) ::
  map (fun c => (ClassificationDataset.join (dir_path img_dir_path) (fst c), snd c))
      (dir_classes img_dir_path).

(** The loop of [__init__] takes the files of every round, the first
    included. *)
Definition init (top_files : list string) (img_dir_path : directory) : t :=
  {| imgs :=
       flat_map (fun path_obj : string * list string =>
                   map (fun file => ClassificationDataset.join (fst path_obj) file)
                       (snd path_obj))
                (walk top_files img_dir_path) |}.

Definition len (self : t) : nat := length (imgs self).


End PassDataset.

(** ** pairs_get_datasets_c *)

(** The entry point of the adversarial stage.  The validation set is a
    [DomainAdaptationPairDataset] on the constrained branch and a
    [ClassificationDataset] on the other. *)
Definition pairs_get_datasets_c (data : directory * directory) (conf : conf)
    (pair_factor : Z)
  : rand (t * (t + ClassificationDataset.t)) :=
  let (source_train, target_train) := data in
  (train_dataset <- init (Some source_train) (Some target_train)
                      (k conf) pair_factor true None None None ;;
   if constrained_validation conf then
     indices <- randperm (len train_dataset) ;;
     let val_size := validation_split conf (len train_dataset) in
     train_dataset <- init (Some source_train) (Some target_train)
                        (k conf) pair_factor true None None
                        (Some (drop val_size indices)) ;;
     val_dataset <- init (Some source_train) (Some target_train)
                      (k conf) pair_factor true None None
                      (Some (take val_size indices)) ;;
     ret (train_dataset, inl val_dataset)
   else
     _ <- lift (if (3 <=? k conf)%Z then Ok tt
                else Raise (AssertionError k_too_small)) ;;
     let source_train_dataset := ClassificationDataset.init source_train None in
     indices <- randperm (ClassificationDataset.len source_train_dataset) ;;
     let val_size := ClassificationDataset.len source_train_dataset / 3 in
     let source_train_dataset :=
       ClassificationDataset.init source_train (Some (drop val_size indices)) in
     let source_val_dataset :=
       ClassificationDataset.init source_train (Some (take val_size indices)) in
     let target_train_dataset := ClassificationDataset.init target_train None in
     sampler <- lift (EvenSampler.init target_train_dataset (k conf)) ;;
     it <- EvenSampler.iter sampler ;;
     let (idxs, sampler) := it : list nat * EvenSampler.t in
     let val_k := (k conf / 3)%Z in
     let cut := (Z.of_nat (EvenSampler.num_classes sampler) * val_k)%Z in
     let target_train_dataset :=
       ClassificationDataset.init target_train (Some (slice_from cut idxs)) in
     let target_val_dataset :=
       ClassificationDataset.init target_train (Some (slice_to cut idxs)) in
     labels <- lift (mapR (index (ClassificationDataset.labels target_val_dataset))
                          (slice_to cut idxs)) ;;
     let flat_list := concat (EvenSampler.remain_class_idxs sampler) in
     let val_dataset := ClassificationDataset.init target_train (Some flat_list) in
     train_dataset <- init None None (k conf - val_k)%Z pair_factor true
                        (Some source_train_dataset) (Some target_train_dataset)
                        None ;;
     ret (train_dataset, inr val_dataset))%rand.

(** ** office5_get_datasets and asl_get_datasets *)





(** ** Vocabulary of the further properties *)

(** A directory with a single class subdirectory. *)
Definition one_class (root : string) : directory :=
  {| dir_path := root; dir_classes := [("cat"%string, ["a"; "b"; "c"]%string)] |}.

(** The sequence of a sampler read by slots: the sample at place [p] has
    the class [p mod nc]. *)
Definition slot_classes (d : ClassificationDataset.t) (idxs : list nat) (nc : nat)
  : Prop :=
  forall p pos x y,
    idxs !! p = Some pos ->
    ClassificationDataset.subset d !! pos = Some x ->
    ClassificationDataset.labels d !! x = Some y ->
    y = p mod nc.

(** Every place of the sequence holds a position of a bucket of [es]. *)
Definition slot_buckets (es : EvenSampler.t) (idxs : list nat) : Prop :=
  forall p pos,
    idxs !! p = Some pos ->
    exists c b, EvenSampler.class_idxs es !! c = Some b /\ pos ∈ b.

(** The round of a loop, reduced to the places it reads and the appends it
    makes. *)
Definition round_reads (lbl : nat) (d1 d2 : ClassificationDataset.t)
    (idxs1 idxs2 : list nat) (ok : nat -> nat -> Prop) (g g' : group) : Prop :=
  g' = g \/
  exists k1 k2 x1 x2 o,
    ok k1 k2 /\
    pick (ClassificationDataset.subset d1) idxs1 k1 = Ok x1 /\
    pick (ClassificationDataset.subset d2) idxs2 k2 = Ok x2 /\
    append_pair lbl d1 d2 x1 x2 g = (g', o).

(** The runs of the samplers and of the four loops behind a dataset. *)
Record drawn (shot : Z) (sd td : ClassificationDataset.t) (self : t) : Prop := {
  d_runs : exists ss ts tape0 tape1 tape2 ss' ts',
    EvenSampler.init sd (-1) = Ok ss /\
    EvenSampler.init td shot = Ok ts /\
    EvenSampler.iter ss tape0 = Ok (s_sampler_idxs self, ss', tape1) /\
    EvenSampler.iter ts tape1 = Ok (t_sampler_idxs self, ts', tape2) /\
    s_sampler self = ss' /\ t_sampler self = ts';
  d_G1 : exists g tape tape',
    while_pairs (num_G1_pairs self)
      (G1_body sd (EvenSampler.num_classes (s_sampler self)) (s_sampler_idxs self)
               (num_s_partitions self)) tape = Ok (g, tape') /\
    G1_img_paths self = img_paths g /\ G1_labels self = labels g;
  d_G2 : exists g tape tape',
    while_pairs (num_G2_pairs self)
      (G2_body sd td (EvenSampler.num_classes (s_sampler self))
               (s_sampler_idxs self) (t_sampler_idxs self)
               (num_s_partitions self) (num_t_partitions self) (adv_stage self))
      tape = Ok (g, tape') /\
    G2_img_paths self = img_paths g /\ G2_labels self = labels g;
  d_G3 : exists g tape tape',
    while_pairs (num_G3_pairs self)
      (G3_body sd (EvenSampler.num_classes (s_sampler self)) (s_sampler_idxs self)
               (num_s_partitions self)) tape = Ok (g, tape') /\
    G3_img_paths self = img_paths g /\ G3_labels self = labels g;
  d_G4 : exists g tape tape',
    while_pairs (num_G2_pairs self)
      (G4_body sd td (EvenSampler.num_classes (s_sampler self))
               (EvenSampler.num_classes (t_sampler self))
               (s_sampler_idxs self) (t_sampler_idxs self)
               (num_s_partitions self) (num_t_partitions self) (adv_stage self))
      tape = Ok (g, tape') /\
    G4_img_paths self = img_paths g /\ G4_labels self = labels g
}.

(** An image of [d] that a sampler built with [shot] can emit: the image at
    a position of one of the buckets as [__init__] cut them. *)
Definition in_buckets (d : ClassificationDataset.t) (shot : Z) (path : string) : Prop :=
  exists es c b pos x,
    EvenSampler.init d shot = Ok es /\
    EvenSampler.class_idxs es !! c = Some b /\ pos ∈ b /\
    ClassificationDataset.subset d !! pos = Some x /\
    ClassificationDataset.imgs d !! x = Some path.

(** * Properties *)

(** ** Results and the tape monad *)

Lemma rbind_Ok {A B} (m : result A) (k : A -> result B) b :
  rbind m k = Ok b -> exists a, m = Ok a /\ k a = Ok b.
Proof. destruct m; simpl; intros H; try discriminate; eauto. Qed.

Lemma bind_Ok {A B} (m : rand A) (k : A -> rand B) tape b tape' :
  bind m k tape = Ok (b, tape') ->
  exists a tape1, m tape = Ok (a, tape1) /\ k a tape1 = Ok (b, tape').
Proof.
  unfold bind. destruct (m tape) as [[a tape1]| |]; intros H; try discriminate.
  eauto.
Qed.

Lemma lift_Ok {A} (r : result A) tape a tape' :
  lift r tape = Ok (a, tape') -> r = Ok a /\ tape' = tape.
Proof. destruct r; simpl; intros H; inversion H; auto. Qed.

Lemma ret_Ok {A} (a : A) tape a' tape' :
  ret a tape = Ok (a', tape') -> a' = a /\ tape' = tape.
Proof. unfold ret. intros H; inversion H; auto. Qed.

Lemma index_Ok {A} (l : list A) i x : index l i = Ok x <-> l !! i = Some x.
Proof. unfold index. destruct (l !! i); split; intros H; inversion H; auto. Qed.

Lemma mapR_Ok_length {A B} (f : A -> result B) l ys :
  mapR f l = Ok ys -> length ys = length l.
Proof.
  revert ys. induction l as [|x xs IH]; simpl; intros ys H.
  - inversion H; reflexivity.
  - apply rbind_Ok in H as (y & _ & H). apply rbind_Ok in H as (ys' & Hys & H).
    inversion H; subst. simpl. f_equal. auto.
Qed.

Lemma mapR_Ok_lookup {A B} (f : A -> result B) l ys i x :
  mapR f l = Ok ys -> l !! i = Some x -> exists y, f x = Ok y /\ ys !! i = Some y.
Proof.
  revert ys i. induction l as [|a xs IH]; simpl; intros ys i H Hi; [discriminate|].
  apply rbind_Ok in H as (y & Hy & H). apply rbind_Ok in H as (ys' & Hys & H).
  inversion H; subst. destruct i as [|i]; simpl in *.
  - inversion Hi; subst. eauto.
  - eauto.
Qed.


Lemma pymin_spec l m : pymin l = Ok m -> m ∈ l /\ Forall (fun x => m <= x) l.
Proof.
  destruct l as [|x xs]; simpl; intros H; inversion H as [Hm]; clear H Hm.
  revert x. induction xs as [|y ys IH]; intros x; simpl.
  - split; [left|]. constructor; [lia|constructor].
  - destruct (IH (Nat.min x y)) as [Hin Hall]. split.
    + apply elem_of_cons in Hin as [Heq|Hin].
      * rewrite Heq. destruct (Nat.min_spec x y) as [[_ ->]|[_ ->]];
          [left|right; left].
      * right; right; exact Hin.
    + inversion Hall as [|? ? Hx Hys]; subst.
      constructor; [lia|]. constructor; [lia|exact Hys].
Qed.

Lemma pymax_Ok l : l <> [] -> exists m, pymax l = Ok m.
Proof. destruct l; [congruence|]. simpl; eauto. Qed.

Lemma pymin_Ok l : l <> [] -> exists m, pymin l = Ok m.
Proof. destruct l; [congruence|]. simpl; eauto. Qed.



(** ** Buckets of an EvenSampler *)

Lemma nonzero_eq_elem c labels start p :
  p ∈ nonzero_eq c labels start ->
  start <= p /\ labels !! (p - start) = Some c.
Proof.
  revert start. induction labels as [|l ls IH]; simpl; intros start H.
  - inversion H.
  - assert (Hrec : p ∈ nonzero_eq c ls (S start) ->
                   start <= p /\ (l :: ls) !! (p - start) = Some c).
    { intros Hin. apply IH in Hin as [Hle Hl]. split; [lia|].
      replace (p - start) with (S (p - S start)) by lia. exact Hl. }
    destruct (Nat.eqb_spec l c) as [->|Hne]; [|auto].
    apply elem_of_cons in H as [->|H]; [|auto].
    split; [lia|]. now rewrite Nat.sub_diag.
Qed.

Lemma slice_to_subseteq {A} stop (l : list A) : slice_to stop l ⊆ l.
Proof. unfold slice_to. destruct (0 <=? stop)%Z; apply subseteq_take. Qed.

Lemma shuffle_perm (c p : list nat) :
  p ≡ₚ seq 0 (length c) -> map (fun j => nth j c 0) p ≡ₚ c.
Proof.
  intros Hp. rewrite Hp. replace (map _ _) with c; [reflexivity|].
  apply list_eq. intros i. rewrite list_lookup_fmap.
  destruct (decide (i < length c)) as [Hi|Hi].
  - rewrite lookup_seq_lt by exact Hi. simpl.
    destruct (lookup_lt_is_Some_2 c i Hi) as [x Hx]. rewrite Hx. f_equal.
    symmetry. now apply nth_lookup_Some.
  - rewrite (lookup_ge_None_2 c) by lia.
    rewrite (lookup_ge_None_2 (seq 0 (length c))); [reflexivity|].
    rewrite length_seq. lia.
Qed.

Lemma reshuffle_Ok m c tape c' tape' :
  EvenSampler.reshuffle m c tape = Ok (c', tape') ->
  exists p s, tape = Randperm p :: tape' /\ p ≡ₚ seq 0 (length c) /\
              s = map (fun j => nth j c 0) p /\ s ≡ₚ c /\ c' = take m s.
Proof.
  unfold EvenSampler.reshuffle. intros H.
  apply bind_Ok in H as (p & tape1 & Hp & H).
  apply ret_Ok in H as [-> ->].
  unfold randperm in Hp. destruct tape as [|[q| |] tape]; try discriminate.
  case_bool_decide as Hq; [|discriminate]. inversion Hp; subst.
  exists p, (map (fun j => nth j c 0) p).
  repeat split; auto using shuffle_perm.
Qed.

Lemma reshuffle_no_exn m c tape e : EvenSampler.reshuffle m c tape <> Raise e.
Proof.
  unfold EvenSampler.reshuffle, bind, randperm, ret.
  destruct tape as [|[q| |] tape]; try discriminate.
  case_bool_decide; discriminate.
Qed.

Lemma mapM_reshuffle_Ok m cs tape cs' tape' :
  mapM (EvenSampler.reshuffle m) cs tape = Ok (cs', tape') ->
  Forall2 (reshuffled m) cs cs'.
Proof.
  revert tape cs'. induction cs as [|c cs IH]; simpl; intros tape cs' H.
  - apply ret_Ok in H as [-> _]. constructor.
  - apply bind_Ok in H as (c' & tape1 & Hc & H).
    apply bind_Ok in H as (cs1 & tape2 & Hcs & H).
    apply ret_Ok in H as [-> ->].
    apply reshuffle_Ok in Hc as (p & s & _ & _ & _ & Hs & ->).
    constructor; [exists s; auto|eauto].
Qed.

Lemma mapM_reshuffle_no_exn m cs tape e :
  mapM (EvenSampler.reshuffle m) cs tape <> Raise e.
Proof.
  revert tape. induction cs as [|c cs IH]; simpl; intros tape; [discriminate|].
  unfold bind at 1.
  destruct (EvenSampler.reshuffle m c tape) as [[c' tape1]|e'|] eqn:Hc;
    [|now apply reshuffle_no_exn in Hc|discriminate].
  unfold bind at 1. specialize (IH tape1).
  destruct (mapM _ cs tape1) as [[cs1 tape2]|e'|]; [discriminate|congruence|discriminate].
Qed.

(** A tape that holds one permutation per bucket is accepted. *)
Lemma mapM_reshuffle_run m cs perms rest :
  Forall2 (fun p c => p ≡ₚ seq 0 (length c)) perms cs ->
  mapM (EvenSampler.reshuffle m) cs (map Randperm perms ++ rest) =
  Ok (zip_with (fun p c => take m (map (fun j => nth j c 0) p)) perms cs, rest).
Proof.
  induction 1 as [|p c perms cs Hp _ IH]; simpl; [reflexivity|].
  unfold bind at 1. unfold EvenSampler.reshuffle at 1, bind at 1, randperm.
  simpl. rewrite bool_decide_eq_true_2 by exact Hp. unfold ret at 1.
  unfold bind at 1. rewrite IH. reflexivity.
Qed.

Lemma init_Ok dataset shot es :
  EvenSampler.init dataset shot = Ok es ->
  exists labels,
    mapR (index (ClassificationDataset.labels dataset))
         (ClassificationDataset.subset dataset) = Ok labels /\
    EvenSampler.labels es = labels /\
    EvenSampler.shot es = shot /\
    EvenSampler.num_classes es = length (remove_dups labels) /\
    EvenSampler.class_idxs es =
      map (fun c => if (shot =? -1)%Z then nonzero_eq c labels 0
                    else slice_to shot (nonzero_eq c labels 0))
          (seq 0 (length (remove_dups labels))) /\
    EvenSampler.class_idx_lens es =
      map (fun idxs : list nat => length idxs) (EvenSampler.class_idxs es) /\
    pymax (EvenSampler.class_idx_lens es) = Ok (EvenSampler.max_len es) /\
    pymin (EvenSampler.class_idx_lens es) = Ok (EvenSampler.min_len es).
Proof.
  unfold EvenSampler.init. intros H.
  apply rbind_Ok in H as (labels & Hl & H).
  apply rbind_Ok in H as (mx & Hmx & H).
  apply rbind_Ok in H as (mn & Hmn & H).
  inversion H; subst; clear H. simpl. exists labels. repeat split; auto.
Qed.

Lemma init_balanced dataset shot es :
  EvenSampler.init dataset shot = Ok es -> balanced es.
Proof.
  intros H. apply init_Ok in H
    as (labels & _ & Hlab & _ & Hnc & Hci & Hlens & Hmax & Hmin).
  assert (Hlen : length (EvenSampler.class_idxs es) = EvenSampler.num_classes es).
  { now rewrite Hci, length_map, length_seq, Hnc. }
  split.
  - exact Hlen.
  - rewrite Hlens in Hmax. rewrite <- Hlen.
    destruct (EvenSampler.class_idxs es); [discriminate|simpl; lia].
  - intros c b Hb. split.
    + apply pymin_spec in Hmin as [_ Hall]. rewrite Forall_forall in Hall.
      apply Hall. rewrite Hlens. apply list_elem_of_fmap. exists b. split; [reflexivity|].
      now apply list_elem_of_lookup_2 in Hb.
    + intros p Hp. rewrite Hci, list_lookup_fmap in Hb.
      destruct (seq 0 _ !! c) as [c'|] eqn:Hc; [|discriminate].
      apply lookup_seq in Hc as [-> _]. simpl in Hb. inversion Hb; subst b; clear Hb.
      assert (Hin : p ∈ nonzero_eq c labels 0).
      { destruct (shot =? -1)%Z; [exact Hp|]. revert Hp. apply slice_to_subseteq. }
      apply nonzero_eq_elem in Hin as [_ Hl]. rewrite Nat.sub_0_r in Hl.
      now rewrite Hlab.
Qed.

Lemma iter_Ok es tape out es' tape' :
  EvenSampler.iter es tape = Ok (out, es', tape') ->
  exists cs,
    mapM (EvenSampler.reshuffle (EvenSampler.min_len es))
         (EvenSampler.class_idxs es) tape = Ok (cs, tape') /\
    EvenSampler.stack_flat cs = Ok out /\
    es' = {| EvenSampler.labels := EvenSampler.labels es;
             EvenSampler.shot := EvenSampler.shot es;
             EvenSampler.num_classes := EvenSampler.num_classes es;
             EvenSampler.class_idxs := cs;
             EvenSampler.remain_class_idxs := EvenSampler.remain_class_idxs es;
             EvenSampler.class_idx_lens := EvenSampler.class_idx_lens es;
             EvenSampler.max_len := EvenSampler.max_len es;
             EvenSampler.min_len := EvenSampler.min_len es |}.
Proof.
  unfold EvenSampler.iter. intros H.
  apply bind_Ok in H as (cs & tape1 & Hcs & H).
  apply bind_Ok in H as (zipped & tape2 & Hz & H).
  apply lift_Ok in Hz as [Hz ->]. apply ret_Ok in H as [H ->].
  inversion H; subst. eauto.
Qed.

Lemma reshuffled_length m c c' :
  reshuffled m c c' -> m <= length c -> length c' = m.
Proof.
  intros (s & Hs & ->) Hm. rewrite length_take, Hs. lia.
Qed.

Lemma reshuffled_elem m c c' p : reshuffled m c c' -> p ∈ c' -> p ∈ c.
Proof.
  intros (s & Hs & ->) Hp. rewrite <- Hs. revert Hp. apply subseteq_take.
Qed.

(** After a pass every bucket holds exactly [min_len] positions. *)
Lemma iter_buckets es tape out es' tape' :
  balanced es ->
  EvenSampler.iter es tape = Ok (out, es', tape') ->
  balanced es' /\
  Forall2 (reshuffled (EvenSampler.min_len es))
          (EvenSampler.class_idxs es) (EvenSampler.class_idxs es') /\
  Forall (fun b : list nat => length b = EvenSampler.min_len es)
         (EvenSampler.class_idxs es').
Proof.
  intros [Hlen Hpos Hb] H. apply iter_Ok in H as (cs & Hcs & _ & ->).
  apply mapM_reshuffle_Ok in Hcs. simpl.
  assert (Hall : Forall (fun b : list nat => length b = EvenSampler.min_len es) cs).
  { apply Forall_lookup_2. intros c b' Hb'.
    destruct (Forall2_lookup_r _ _ _ _ _ Hcs Hb') as (b & Hbc & Hr).
    apply (reshuffled_length _ _ _ Hr). now apply (Hb c). }
  split; [|split; [exact Hcs|exact Hall]].
  split; simpl.
  - now rewrite <- (Forall2_length _ _ _ Hcs).
  - exact Hpos.
  - intros c b' Hb'. split.
    + rewrite Forall_lookup in Hall. now rewrite (Hall c b' Hb').
    + intros p Hp. destruct (Forall2_lookup_r _ _ _ _ _ Hcs Hb') as (b & Hbc & Hr).
      apply (Hb c b Hbc). now apply (reshuffled_elem _ _ _ _ Hr).
Qed.

(** Rows of equal width laid end to end. *)
Lemma length_rows {A} (row : nat -> list A) w n start :
  (forall k, length (row k) = w) -> length (flat_map row (seq start n)) = n * w.
Proof.
  intros Hw. revert start. induction n as [|n IH]; intros start; simpl; [reflexivity|].
  now rewrite length_app, Hw, IH.
Qed.

Lemma lookup_rows {A} (row : nat -> list A) w n start p :
  0 < w -> (forall k, length (row k) = w) -> p < n * w ->
  flat_map row (seq start n) !! p = row (start + p / w) !! (p mod w).
Proof.
  intros Hpos Hw. revert start p. induction n as [|n IH]; intros start p Hp; [lia|].
  simpl. destruct (decide (p < w)) as [Hlt|Hge].
  - rewrite lookup_app_l by now rewrite Hw.
    rewrite Nat.div_small, Nat.mod_small by exact Hlt. now rewrite Nat.add_0_r.
  - rewrite lookup_app_r by (rewrite Hw; lia). rewrite Hw.
    rewrite IH by (simpl in Hp; lia).
    replace p with ((p - w) + 1 * w) at 3 4 by lia.
    rewrite Nat.div_add, Nat.Div0.mod_add by lia.
    f_equal. f_equal. lia.
Qed.

Lemma stack_flat_Ok cs out m :
  cs <> [] -> Forall (fun b : list nat => length b = m) cs ->
  EvenSampler.stack_flat cs = Ok out ->
  out = flat_map (fun k => map (fun t => nth k t 0) cs) (seq 0 m).
Proof.
  intros Hne Hall. unfold EvenSampler.stack_flat.
  destruct cs as [|t0 ts]; [congruence|].
  assert (Ht0 : length t0 = m) by now inversion Hall.
  destruct (forallb _ _); intros H; inversion H. now rewrite Ht0.
Qed.

Lemma stack_flat_equal cs m :
  cs <> [] -> Forall (fun b : list nat => length b = m) cs ->
  exists out, EvenSampler.stack_flat cs = Ok out.
Proof.
  intros Hne Hall. unfold EvenSampler.stack_flat.
  destruct cs as [|t0 ts]; [congruence|].
  assert (Ht0 : length t0 = m) by now inversion Hall.
  rewrite (proj2 (forallb_forall _ _)); [eauto|].
  intros b Hb. apply Nat.eqb_eq. rewrite Forall_forall in Hall.
  rewrite Ht0. apply Hall. now apply list_elem_of_In.
Qed.

Lemma iterated_balanced es0 es :
  balanced es0 -> iterated es0 es ->
  balanced es /\
  EvenSampler.labels es = EvenSampler.labels es0 /\
  EvenSampler.num_classes es = EvenSampler.num_classes es0 /\
  EvenSampler.min_len es = EvenSampler.min_len es0 /\
  EvenSampler.class_idx_lens es = EvenSampler.class_idx_lens es0.
Proof.
  intros H0. induction 1 as [|es tape out es' tape' _ IH Hit]; [auto|].
  destruct IH as (Hb & Hl & Hn & Hm & Hlens).
  destruct (iter_buckets _ _ _ _ _ Hb Hit) as (Hb' & _ & _).
  apply iter_Ok in Hit as (cs & _ & _ & ->). simpl in *. auto.
Qed.

(** The sequence a pass emits: [min_len] rows, row [k] holding entry [k] of
    every bucket in the order of the classes. *)
Lemma iter_emits es tape out es' tape' :
  balanced es ->
  EvenSampler.iter es tape = Ok (out, es', tape') ->
  length out = EvenSampler.num_classes es * EvenSampler.min_len es /\
  forall p x, out !! p = Some x ->
    exists b, EvenSampler.class_idxs es' !! (p mod EvenSampler.num_classes es) = Some b /\
              b !! (p / EvenSampler.num_classes es) = Some x.
Proof.
  intros Hbal Hit.
  destruct (iter_buckets _ _ _ _ _ Hbal Hit) as ([Hlen' Hpos' _] & _ & Hall).
  apply iter_Ok in Hit as (cs & _ & Hst & ->). simpl in *.
  assert (Hne : cs <> []) by (intros ->; simpl in Hlen'; lia).
  apply (stack_flat_Ok _ _ _ Hne Hall) in Hst. subst out.
  set (row := fun k => map (fun t => nth k t 0) cs).
  assert (Hw : forall k, length (row k) = EvenSampler.num_classes es).
  { intros k. unfold row. now rewrite length_map. }
  split.
  - rewrite (length_rows row _ _ _ Hw). lia.
  - intros p x Hx.
    assert (Hp : p < EvenSampler.min_len es * EvenSampler.num_classes es).
    { apply lookup_lt_Some in Hx. now rewrite (length_rows row _ _ _ Hw) in Hx. }
    rewrite (lookup_rows row _ _ _ _ Hpos' Hw Hp) in Hx. simpl in Hx.
    unfold row in Hx. rewrite list_lookup_fmap in Hx.
    destruct (cs !! (p mod EvenSampler.num_classes es)) as [b|] eqn:Hb; [|discriminate].
    exists b. split; [reflexivity|]. simpl in Hx. inversion Hx; subst x.
    rewrite Forall_lookup in Hall. specialize (Hall _ _ Hb).
    assert (Hk : p / EvenSampler.num_classes es < length b).
    { rewrite Hall. apply Nat.Div0.div_lt_upper_bound. lia. }
    destruct (lookup_lt_is_Some_2 b _ Hk) as [y Hy]. rewrite Hy. f_equal.
    symmetry. now apply nth_lookup_Some.
Qed.

(** A pass never raises, and accepts any tape that starts with one
    permutation per bucket. *)
Lemma iter_no_exn es tape e :
  balanced es -> EvenSampler.iter es tape <> Raise e.
Proof.
  intros Hbal. unfold EvenSampler.iter, bind.
  destruct (mapM _ _ tape) as [[cs tape1]|e'|] eqn:Hcs;
    [|now apply mapM_reshuffle_no_exn in Hcs|discriminate].
  assert (Hit : exists out, EvenSampler.stack_flat cs = Ok out).
  { pose proof (mapM_reshuffle_Ok _ _ _ _ _ Hcs) as HF.
    destruct Hbal as [Hlen Hpos Hb].
    apply (stack_flat_equal cs (EvenSampler.min_len es)).
    - intros ->. apply Forall2_length in HF. simpl in HF. lia.
    - apply Forall_lookup_2. intros c b' Hb'.
      destruct (Forall2_lookup_r _ _ _ _ _ HF Hb') as (b & Hbc & Hr).
      apply (reshuffled_length _ _ _ Hr). now apply (Hb c). }
  destruct Hit as [out ->]. simpl. discriminate.
Qed.

Lemma iter_run es perms rest :
  balanced es ->
  Forall2 (fun p c => p ≡ₚ seq 0 (length c)) perms (EvenSampler.class_idxs es) ->
  exists out es', EvenSampler.iter es (map Randperm perms ++ rest) = Ok (out, es', rest).
Proof.
  intros Hbal Hperms.
  pose proof (mapM_reshuffle_run (EvenSampler.min_len es) _ _ rest Hperms) as Hrun.
  pose proof (iter_no_exn es (map Randperm perms ++ rest)) as Hno.
  unfold EvenSampler.iter, bind in *. rewrite Hrun in *.
  destruct (EvenSampler.stack_flat _) as [out|e|] eqn:Hst; simpl in *.
  - unfold ret. eauto.
  - exfalso. now apply (Hno e).
  - unfold EvenSampler.stack_flat in Hst.
    destruct (zip_with _ _ _); [discriminate|]. destruct (forallb _ _); discriminate.
Qed.

Lemma iter_emits_bucket es tape out es' tape' j k b x :
  balanced es ->
  EvenSampler.iter es tape = Ok (out, es', tape') ->
  EvenSampler.class_idxs es' !! j = Some b -> b !! k = Some x ->
  out !! (k * EvenSampler.num_classes es + j) = Some x.
Proof.
  intros Hbal Hit Hb Hx.
  destruct (iter_buckets _ _ _ _ _ Hbal Hit) as ([Hlen' Hpos' _] & _ & Hall).
  apply iter_Ok in Hit as (cs & _ & Hst & ->). simpl in *.
  assert (Hne : cs <> []) by (intros ->; simpl in Hlen'; lia).
  apply (stack_flat_Ok _ _ _ Hne Hall) in Hst. subst out.
  set (row := fun k => map (fun t => nth k t 0) cs).
  assert (Hw : forall k, length (row k) = EvenSampler.num_classes es).
  { intros i. unfold row. now rewrite length_map. }
  assert (Hj : j < EvenSampler.num_classes es).
  { rewrite <- Hlen'. now apply lookup_lt_Some in Hb. }
  assert (Hk : k < EvenSampler.min_len es).
  { rewrite Forall_lookup in Hall. rewrite <- (Hall _ _ Hb).
    now apply lookup_lt_Some in Hx. }
  rewrite (lookup_rows row _ _ _ _ Hpos' Hw) by nia.
  rewrite Nat.div_add_l, Nat.div_small, Nat.add_0_r by lia.
  rewrite Nat.add_comm, Nat.Div0.mod_add, Nat.mod_small by lia. simpl.
  unfold row. rewrite list_lookup_fmap, Hb. simpl. f_equal.
  now apply nth_lookup_Some.
Qed.

(** ** The sequence of an EvenSampler *)

(** C1.  Whatever calls of [__iter__] came before, a call on a sampler built
    by [__init__] does not raise, accepts every tape that starts with one
    permutation per bucket, and emits [num_classes * min_len] positions,
    where [min_len] is the least of the bucket sizes recorded at
    construction (after the cut to [shot]); the position emitted at place
    [p] has the label [p mod num_classes], so that each run of
    [num_classes] places holds every class once, in the same order. *)
Theorem even_sampler_blocks dataset shot es0 es :
  EvenSampler.init dataset shot = Ok es0 ->
  iterated es0 es ->
  (EvenSampler.min_len es0 ∈ EvenSampler.class_idx_lens es0 /\
   Forall (fun n => EvenSampler.min_len es0 <= n) (EvenSampler.class_idx_lens es0)) /\
  (forall tape e, EvenSampler.iter es tape <> Raise e) /\
  (forall perms rest,
     Forall2 (fun p c => p ≡ₚ seq 0 (length c)) perms (EvenSampler.class_idxs es) ->
     exists out es', EvenSampler.iter es (map Randperm perms ++ rest) = Ok (out, es', rest)) /\
  (forall tape out es' tape',
     EvenSampler.iter es tape = Ok (out, es', tape') ->
     length out = EvenSampler.num_classes es0 * EvenSampler.min_len es0 /\
     forall p x, out !! p = Some x ->
       EvenSampler.labels es0 !! x = Some (p mod EvenSampler.num_classes es0)).
Proof.
  intros Hinit Hreach.
  pose proof (init_balanced _ _ _ Hinit) as Hbal0.
  destruct (iterated_balanced _ _ Hbal0 Hreach) as (Hbal & Hl & Hn & Hm & _).
  split; [|split; [|split]].
  - apply init_Ok in Hinit as (labels & _ & _ & _ & _ & _ & _ & _ & Hmin).
    now apply pymin_spec.
  - intros tape e. now apply iter_no_exn.
  - intros perms rest. now apply iter_run.
  - intros tape out es' tape' Hit.
    destruct (iter_emits _ _ _ _ _ Hbal Hit) as [Hlen Hpos].
    destruct (iter_buckets _ _ _ _ _ Hbal Hit) as ([_ _ Hb'] & _ & _).
    rewrite Hn, Hm in Hlen. split; [exact Hlen|].
    intros p x Hx. destruct (Hpos p x Hx) as (b & Hb & Hbx).
    rewrite Hn in Hb. apply Hb' in Hb as [_ Hb].
    apply iter_Ok in Hit as (cs & _ & _ & ->). simpl in Hb.
    rewrite <- Hl. apply Hb. now apply list_elem_of_lookup_2 in Hbx.
Qed.

Lemma even_sampler_blocks_cats_dogs :
  EvenSampler.init (ClassificationDataset.init cats_dogs None) (-1)
    = Ok cats_dogs_sampler /\
  exists es' tape',
    EvenSampler.iter cats_dogs_sampler
      [Randperm [3; 1; 2; 0; 9; 8; 7; 6; 5; 4]; Randperm [3; 1; 2; 0]]
      = Ok ([3; 13; 1; 11; 2; 12; 0; 10], es', tape') /\
    length [3; 13; 1; 11; 2; 12; 0; 10] = 2 * 4 /\
    forall p x, [3; 13; 1; 11; 2; 12; 0; 10] !! p = Some x ->
                EvenSampler.labels cats_dogs_sampler !! x = Some (p mod 2).
Proof.
  assert (Hinit : EvenSampler.init (ClassificationDataset.init cats_dogs None) (-1)
                  = Ok cats_dogs_sampler) by (vm_compute; reflexivity).
  split; [exact Hinit|].
  eexists _, _.
  split; [vm_compute; reflexivity|].
  apply (proj2 (proj2 (proj2
           (even_sampler_blocks _ _ _ _ Hinit (iterated_init cats_dogs_sampler))))
           [Randperm [3; 1; 2; 0; 9; 8; 7; 6; 5; 4]; Randperm [3; 1; 2; 0]]
           [3; 13; 1; 11; 2; 12; 0; 10]
           {| EvenSampler.labels := EvenSampler.labels cats_dogs_sampler;
              EvenSampler.shot := -1;
              EvenSampler.num_classes := 2;
              EvenSampler.class_idxs := [[3; 1; 2; 0]; [13; 11; 12; 10]];
              EvenSampler.remain_class_idxs := [];
              EvenSampler.class_idx_lens := [10; 4];
              EvenSampler.max_len := 10;
              EvenSampler.min_len := 4 |} []).
  vm_compute; reflexivity.
Defined.

(** ** Empty buckets *)

Lemma remove_dups_nonempty (l : list nat) : l <> [] -> remove_dups l <> [].
Proof.
  destruct l as [|x xs]; [congruence|]. intros _ Hnil.
  assert (Hx : x ∈ remove_dups (x :: xs)) by (apply elem_of_remove_dups; left).
  rewrite Hnil in Hx. inversion Hx.
Qed.

(** C7, as stated, fails: the class [bird] (id 1) has no sample, its bucket
    is empty before any cut, and the construction returns a sampler. *)
Lemma empty_class_constructs :
  let dataset := ClassificationDataset.init cat_bird_dog None in
  ClassificationDataset.labels dataset = [0; 0; 2] /\
  nonzero_eq 1 (ClassificationDataset.labels dataset) 0 = [] /\
  exists es, EvenSampler.init dataset (-1) = Ok es /\
             EvenSampler.class_idxs es = [[0; 1]; []] /\
             EvenSampler.min_len es = 0.
Proof.
  simpl. split; [reflexivity|]. split; [reflexivity|].
  eexists. split; [vm_compute; reflexivity|]. split; reflexivity.
Qed.

(** C7, amended.  Over a subset that is not empty and stays within the
    dataset, the construction returns a sampler whatever the buckets hold;
    when the bucket of one of its classes is empty before the cut, [min_len]
    is 0 and every call of [__iter__] emits the empty sequence. *)
Theorem empty_bucket_is_accepted dataset shot labels :
  mapR (index (ClassificationDataset.labels dataset))
       (ClassificationDataset.subset dataset) = Ok labels ->
  labels <> [] ->
  exists es,
    EvenSampler.init dataset shot = Ok es /\
    ((exists c, c < EvenSampler.num_classes es /\ nonzero_eq c labels 0 = []) ->
     EvenSampler.min_len es = 0 /\
     forall tape out es' tape',
       EvenSampler.iter es tape = Ok (out, es', tape') -> out = []).
Proof.
  intros Hl Hne.
  assert (Hex : exists es, EvenSampler.init dataset shot = Ok es).
  { unfold EvenSampler.init. rewrite Hl. simpl.
    set (lens := map _ (map _ _)).
    assert (Hlens : lens <> []).
    { unfold lens. intros Hnil. apply (f_equal (@length nat)) in Hnil.
      rewrite !length_map, length_seq in Hnil. simpl in Hnil.
      apply (remove_dups_nonempty _ Hne). now apply length_zero_iff_nil. }
    destruct (pymax_Ok _ Hlens) as [mx ->]. destruct (pymin_Ok _ Hlens) as [mn ->].
    simpl. eauto. }
  destruct Hex as [es Hes]. exists es. split; [exact Hes|].
  intros (c & Hc & Hempty).
  pose proof (init_balanced _ _ _ Hes) as Hbal.
  assert (Hmin : EvenSampler.min_len es = 0).
  { pose proof Hes as Hi.
    apply init_Ok in Hi as (labels' & Hl' & _ & _ & Hnc & Hci & _ & _ & _).
    rewrite Hl in Hl'. inversion Hl'; subst labels'.
    assert (Hb : EvenSampler.class_idxs es !! c = Some []).
    { rewrite Hci, list_lookup_fmap, lookup_seq_lt by now rewrite <- Hnc.
      simpl. rewrite Hempty. unfold slice_to.
      destruct (shot =? -1)%Z, (0 <=? shot)%Z; now rewrite ?take_nil. }
    apply (bal_bucket _ Hbal) in Hb as [Hle _]. simpl in Hle. lia. }
  split; [exact Hmin|].
  intros tape out es' tape' Hit.
  apply (iter_emits _ _ _ _ _ Hbal) in Hit as [Hlen _].
  rewrite Hmin, Nat.mul_0_r in Hlen. now apply length_zero_iff_nil.
Qed.

Lemma empty_bucket_is_accepted_cat_bird_dog :
  exists es,
    EvenSampler.init (ClassificationDataset.init cat_bird_dog None) (-1) = Ok es /\
    ((exists c, c < EvenSampler.num_classes es /\ nonzero_eq c [0; 0; 2] 0 = []) ->
     EvenSampler.min_len es = 0 /\
     forall tape out es' tape',
       EvenSampler.iter es tape = Ok (out, es', tape') -> out = []).
Proof.
  apply (empty_bucket_is_accepted
           (ClassificationDataset.init cat_bird_dog None) (-1) [0; 0; 2]).
  - vm_compute; reflexivity.
  - discriminate.
Defined.

(** ** Successive calls of [__iter__] *)

Lemma reshuffled_full m c c' :
  reshuffled m c c' -> length c = m -> c' ≡ₚ c.
Proof.
  intros (s & Hs & ->) Hm. rewrite take_ge; [exact Hs|]. rewrite Hs. lia.
Qed.

(** C4, as stated, fails: the first call overwrites the bucket [[0; 1; 2]]
    with the one entry it kept, and whatever the second call draws it emits
    that entry again; positions 0 and 1 of the bucket built at construction
    are out of its reach. *)
Lemma second_call_draws_from_kept_entries :
  exists es0 es1,
    EvenSampler.init three_one (-1) = Ok es0 /\
    EvenSampler.class_idxs es0 = [[0; 1; 2]; [3]] /\
    EvenSampler.iter es0 [Randperm [2; 0; 1]; Randperm [0]] = Ok ([2; 3], es1, []) /\
    EvenSampler.class_idxs es1 = [[2]; [3]] /\
    forall tape out2 es2 tape',
      EvenSampler.iter es1 tape = Ok (out2, es2, tape') -> out2 = [2; 3].
Proof.
  eexists _, _.
  split; [vm_compute; reflexivity|]. split; [reflexivity|].
  split; [vm_compute; reflexivity|]. split; [reflexivity|].
  intros tape out2 es2 tape' Hit.
  apply iter_Ok in Hit as (cs & Hcs & Hst & _).
  apply mapM_reshuffle_Ok in Hcs. simpl in Hcs.
  inversion Hcs as [|? c1 ? cs1 (s1 & Hs1 & ->) Hcs1]; subst.
  inversion Hcs1 as [|? c2 ? cs2 (s2 & Hs2 & ->) Hcs2]; subst.
  inversion Hcs2; subst.
  apply Permutation_singleton_r in Hs1, Hs2. subst s1 s2.
  vm_compute in Hst. now inversion Hst.
Qed.

(** C4, amended.  A call of [__iter__] shuffles each bucket as the object
    holds it and overwrites it with the first [min_len] entries of the
    shuffle.  The next call therefore permutes the [min_len] entries the
    call before it kept: the two sequences have the same length, and every
    position the later call emits was emitted by the earlier one. *)
Theorem successive_calls dataset shot es0 es
    tape1 out1 es1 tape1' tape2 out2 es2 tape2' :
  EvenSampler.init dataset shot = Ok es0 ->
  iterated es0 es ->
  EvenSampler.iter es tape1 = Ok (out1, es1, tape1') ->
  EvenSampler.iter es1 tape2 = Ok (out2, es2, tape2') ->
  length out2 = length out1 /\
  Forall2 (reshuffled (EvenSampler.min_len es0))
          (EvenSampler.class_idxs es) (EvenSampler.class_idxs es1) /\
  Forall2 (fun kept again : list nat => again ≡ₚ kept)
          (EvenSampler.class_idxs es1) (EvenSampler.class_idxs es2) /\
  forall x, x ∈ out2 -> x ∈ out1.
Proof.
  intros Hinit Hreach Hit1 Hit2.
  pose proof (init_balanced _ _ _ Hinit) as Hbal0.
  destruct (iterated_balanced _ _ Hbal0 Hreach) as (Hbal & _ & Hn & Hm & _).
  destruct (iter_buckets _ _ _ _ _ Hbal Hit1) as (Hbal1 & Hre1 & Hall1).
  destruct (iter_buckets _ _ _ _ _ Hbal1 Hit2) as (Hbal2 & Hre2 & _).
  assert (Hn1 : EvenSampler.num_classes es1 = EvenSampler.num_classes es /\
                EvenSampler.min_len es1 = EvenSampler.min_len es).
  { pose proof Hit1 as H. apply iter_Ok in H as (cs & _ & _ & ->). auto. }
  destruct Hn1 as [Hn1 Hm1].
  assert (Hperm : Forall2 (fun kept again : list nat => again ≡ₚ kept)
                    (EvenSampler.class_idxs es1) (EvenSampler.class_idxs es2)).
  { apply Forall2_same_length_lookup_2; [now apply Forall2_length in Hre2|].
    intros c b1 b2 Hb1 Hb2.
    destruct (Forall2_lookup_l _ _ _ _ _ Hre2 Hb1) as (b2' & Hb2' & Hr).
    rewrite Hb2 in Hb2'. inversion Hb2'; subst b2'.
    apply (reshuffled_full _ _ _ Hr).
    rewrite Forall_lookup in Hall1. rewrite (Hall1 _ _ Hb1). now rewrite Hm1. }
  destruct (iter_emits _ _ _ _ _ Hbal Hit1) as [Hlen1 _].
  destruct (iter_emits _ _ _ _ _ Hbal1 Hit2) as [Hlen2 Hpos2].
  split; [now rewrite Hlen1, Hlen2, Hn1, Hm1|].
  split; [now rewrite <- Hm|]. split; [exact Hperm|].
  intros x Hx. apply list_elem_of_lookup in Hx as [p Hp].
  destruct (Hpos2 p x Hp) as (b2 & Hb2 & Hbx).
  destruct (Forall2_lookup_r _ _ _ _ _ Hperm Hb2) as (b1 & Hb1 & Hpm).
  assert (Hin : x ∈ b1).
  { rewrite <- Hpm. now apply list_elem_of_lookup_2 in Hbx. }
  apply list_elem_of_lookup in Hin as [k Hk].
  apply list_elem_of_lookup. eexists.
  exact (iter_emits_bucket _ _ _ _ _ _ _ _ _ Hbal Hit1 Hb1 Hk).
Qed.

Lemma successive_calls_three_one :
  let es0 := three_one_sampler [[0; 1; 2]; [3]] in
  let es1 := three_one_sampler [[2]; [3]] in
  EvenSampler.init three_one (-1) = Ok es0 /\
  EvenSampler.iter es0 [Randperm [2; 0; 1]; Randperm [0]] = Ok ([2; 3], es1, []) /\
  EvenSampler.iter es1 [Randperm [0]; Randperm [0]] = Ok ([2; 3], es1, []) /\
  length [2; 3] = length [2; 3] /\
  Forall2 (reshuffled (EvenSampler.min_len es0))
          (EvenSampler.class_idxs es0) (EvenSampler.class_idxs es1) /\
  Forall2 (fun kept again : list nat => again ≡ₚ kept)
          (EvenSampler.class_idxs es1) (EvenSampler.class_idxs es1) /\
  forall x, x ∈ [2; 3] -> x ∈ [2; 3].
Proof.
  intros es0 es1.
  assert (Hinit : EvenSampler.init three_one (-1) = Ok es0)
    by (vm_compute; reflexivity).
  assert (Hit1 : EvenSampler.iter es0 [Randperm [2; 0; 1]; Randperm [0]]
                 = Ok ([2; 3], es1, [])) by (vm_compute; reflexivity).
  assert (Hit2 : EvenSampler.iter es1 [Randperm [0]; Randperm [0]]
                 = Ok ([2; 3], es1, [])) by (vm_compute; reflexivity).
  split; [exact Hinit|]. split; [exact Hit1|]. split; [exact Hit2|].
  exact (successive_calls three_one (-1) es0 es0 _ _ _ _ _ _ _ _
           Hinit (iterated_init es0) Hit1 Hit2).
Defined.

(** ** The drawing loops *)



Lemma append_pair_Ok lbl d1 d2 x1 x2 g g' u :
  append_pair lbl d1 d2 x1 x2 g = (g', Ok u) -> grown lbl g g'.
Proof.
  unfold append_pair.
  destruct (rbind (index (ClassificationDataset.imgs d1) x1) _) as [ab|e|];
    [|intros H; inversion H..].
  destruct (rbind (index (ClassificationDataset.labels d1) x1) _) as [l|e|];
    intros H; inversion H; subst.
  exists ab, l. simpl. auto.
Qed.

Lemma append_pair_Raise lbl d1 d2 x1 x2 g g' e :
  append_pair lbl d1 d2 x1 x2 g = (g', Raise e) ->
  e = IndexError /\ (g' = g \/ half_grown g g').
Proof.
  unfold append_pair, index.
  destruct (ClassificationDataset.imgs d1 !! x1); simpl;
    [|intros H; inversion H; auto].
  destruct (ClassificationDataset.imgs d2 !! x2); simpl;
    [|intros H; inversion H; auto].
  destruct (ClassificationDataset.labels d1 !! x1); simpl;
    [|intros H; inversion H; split; [reflexivity|right; eexists; simpl; eauto]].
  destruct (ClassificationDataset.labels d2 !! x2); simpl;
    intros H; inversion H; split; [reflexivity|right; eexists; simpl; eauto].
Qed.

Lemma append_pair_aligned lbl d x1 x2 g g' e :
  aligned d -> append_pair lbl d d x1 x2 g = (g', Raise e) -> g' = g.
Proof.
  unfold aligned, append_pair, index. intros Hal.
  destruct (ClassificationDataset.imgs d !! x1) eqn:H1; simpl;
    [|intros H; now inversion H].
  destruct (ClassificationDataset.imgs d !! x2) eqn:H2; simpl;
    [|intros H; now inversion H].
  apply lookup_lt_Some in H1, H2. rewrite Hal in H1, H2.
  destruct (lookup_lt_is_Some_2 _ _ H1) as [l1 ->].
  destruct (lookup_lt_is_Some_2 _ _ H2) as [l2 ->]. simpl. discriminate.
Qed.

Lemma append_pair_NoDraw lbl d1 d2 x1 x2 g g' :
  append_pair lbl d1 d2 x1 x2 g <> (g', NoDraw).
Proof.
  unfold append_pair, index.
  destruct (ClassificationDataset.imgs d1 !! x1); simpl; [|discriminate].
  destruct (ClassificationDataset.imgs d2 !! x2); simpl; [|discriminate].
  destruct (ClassificationDataset.labels d1 !! x1); simpl; [|discriminate].
  destruct (ClassificationDataset.labels d2 !! x2); simpl; discriminate.
Qed.

Lemma propagate_Ok r k tape g' tape' :
  propagate r k tape = Ok (g', tape') ->
  exists x1 x2 u, r = Ok (x1, x2) /\ k x1 x2 = (g', Ok u) /\ tape' = tape.
Proof.
  unfold propagate. destruct r as [[x1 x2]|e|]; [|discriminate..].
  destruct (k x1 x2) as [g1 [u|e|]] eqn:Hk; [|discriminate..].
  unfold ret. intros H; inversion H; subst. eauto 6.
Qed.

Lemma except_IndexError_Ok r k g tape g' tape' :
  except_IndexError r k g tape = Ok (g', tape') ->
  tape' = tape /\
  (g' = g \/ exists x1 x2 o, r = Ok (x1, x2) /\ k x1 x2 = (g', o) /\
                             (o = Raise IndexError \/ exists u, o = Ok u)).
Proof.
  unfold except_IndexError. destruct r as [[x1 x2]|e|].
  - destruct (k x1 x2) as [g1 [u|e|]] eqn:Hk.
    + unfold ret. intros H; inversion H; subst. split; [reflexivity|].
      right. exists x1, x2, (Ok u). eauto.
    + destruct e; try discriminate. unfold ret. intros H; inversion H; subst.
      split; [reflexivity|]. right. exists x1, x2, (Raise IndexError). eauto.
    + discriminate.
  - destruct e; try discriminate. unfold ret. intros H; inversion H; auto.
  - discriminate.
Qed.

Lemma randint_Ok a b tape r tape' :
  randint a b tape = Ok (r, tape') ->
  tape = Randint r :: tape' /\ a <= r /\
  exists hi, b = Some hi /\ (Z.of_nat r <= hi)%Z.
Proof.
  unfold randint. destruct b as [hi|]; [|discriminate].
  destruct (hi <? Z.of_nat a)%Z; [discriminate|].
  destruct tape as [|[|r0|] tape]; try discriminate.
  destruct (a <=? r0) eqn:Ha; [|discriminate].
  destruct (Z.of_nat r0 <=? hi)%Z eqn:Hb; [|discriminate].
  simpl. intros H; inversion H; subst.
  apply Nat.leb_le in Ha. apply Z.leb_le in Hb. eauto.
Qed.

Lemma sample2_Ok n tape cs tape' :
  sample2 n tape = Ok (cs, tape') ->
  tape = Sample2 (fst cs) (snd cs) :: tape' /\
  fst cs < n /\ snd cs < n /\ fst cs <> snd cs.
Proof.
  unfold sample2. destruct (n <? 2); [discriminate|].
  destruct tape as [|[| |a b] tape]; try discriminate.
  destruct (a <? n) eqn:Ha; [|discriminate].
  destruct (b <? n) eqn:Hb; [|discriminate].
  destruct (a =? b) eqn:Hab; [discriminate|]. simpl.
  intros H; inversion H; subst. simpl.
  apply Nat.ltb_lt in Ha, Hb. apply Nat.eqb_neq in Hab. auto.
Qed.

(** What a round of each loop does to its group when it returns. *)
Section Rounds.
Variables (source_dataset target_dataset : ClassificationDataset.t).
Variables (s_nc t_nc : nat) (s_idxs t_idxs : list nat).
Variables (nsp ntp : option Z) (adv_stage : bool).

Lemma G1_round g tape g' tape' :
  G1_body source_dataset s_nc s_idxs nsp g tape = Ok (g', tape') ->
  length tape' < length tape /\
  (g' = g \/ half_grown g g' \/ grown 0 g g').
Proof.
  unfold G1_body. intros H.
  apply bind_Ok in H as (r1 & t1 & Hr1 & H).
  apply bind_Ok in H as (r2 & t2 & Hr2 & H).
  apply bind_Ok in H as (c & t3 & Hc & H).
  apply randint_Ok in Hr1 as (-> & _). apply randint_Ok in Hr2 as (-> & _).
  apply randint_Ok in Hc as (-> & _).
  apply except_IndexError_Ok in H as [-> H]. split; [simpl; lia|].
  destruct H as [->|(x1 & x2 & o & _ & Hk & [->|[u ->]])]; [auto| |].
  - apply append_pair_Raise in Hk as [_ [->|Hh]]; auto.
  - apply append_pair_Ok in Hk. auto.
Qed.

Lemma G1_round_aligned g tape g' tape' :
  aligned source_dataset ->
  G1_body source_dataset s_nc s_idxs nsp g tape = Ok (g', tape') ->
  g' = g \/ grown 0 g g'.
Proof.
  unfold G1_body. intros Hal H.
  apply bind_Ok in H as (r1 & t1 & Hr1 & H).
  apply bind_Ok in H as (r2 & t2 & Hr2 & H).
  apply bind_Ok in H as (c & t3 & Hc & H).
  apply except_IndexError_Ok in H as [-> H].
  destruct H as [->|(x1 & x2 & o & _ & Hk & [->|[u ->]])]; [auto| |].
  - apply (append_pair_aligned _ _ _ _ _ _ _ Hal) in Hk. auto.
  - apply append_pair_Ok in Hk. auto.
Qed.

Lemma G2_round g tape g' tape' :
  G2_body source_dataset target_dataset s_nc s_idxs t_idxs nsp ntp adv_stage
          g tape = Ok (g', tape') ->
  length tape' < length tape /\ grown (if adv_stage then 0 else 1) g g'.
Proof.
  unfold G2_body. intros H.
  apply bind_Ok in H as (r1 & t1 & Hr1 & H).
  apply bind_Ok in H as (r2 & t2 & Hr2 & H).
  apply bind_Ok in H as (c & t3 & Hc & H).
  apply randint_Ok in Hr1 as (-> & _). apply randint_Ok in Hr2 as (-> & _).
  apply randint_Ok in Hc as (-> & _).
  apply propagate_Ok in H as (x1 & x2 & u & _ & Hk & ->).
  apply append_pair_Ok in Hk. split; [simpl; lia|exact Hk].
Qed.

Lemma G3_round g tape g' tape' :
  G3_body source_dataset s_nc s_idxs nsp g tape = Ok (g', tape') ->
  length tape' < length tape /\ grown 2 g g'.
Proof.
  unfold G3_body. intros H.
  apply bind_Ok in H as (r1 & t1 & Hr1 & H).
  apply bind_Ok in H as (r2 & t2 & Hr2 & H).
  apply bind_Ok in H as ([c1 c2] & t3 & Hc & H).
  apply randint_Ok in Hr1 as (-> & _). apply randint_Ok in Hr2 as (-> & _).
  apply sample2_Ok in Hc as (-> & _).
  apply propagate_Ok in H as (x1 & x2 & u & _ & Hk & ->).
  apply append_pair_Ok in Hk. split; [simpl; lia|exact Hk].
Qed.

Lemma G4_round g tape g' tape' :
  G4_body source_dataset target_dataset s_nc t_nc s_idxs t_idxs nsp ntp adv_stage
          g tape = Ok (g', tape') ->
  length tape' < length tape /\ grown (if adv_stage then 2 else 3) g g'.
Proof.
  unfold G4_body. intros H.
  apply bind_Ok in H as (r1 & t1 & Hr1 & H).
  apply bind_Ok in H as (r2 & t2 & Hr2 & H).
  apply bind_Ok in H as ([c1 c2] & t3 & Hc & H).
  apply randint_Ok in Hr1 as (-> & _). apply randint_Ok in Hr2 as (-> & _).
  apply sample2_Ok in Hc as (-> & _).
  apply propagate_Ok in H as (x1 & x2 & u & _ & Hk & ->).
  apply append_pair_Ok in Hk. split; [simpl; lia|exact Hk].
Qed.
End Rounds.

Lemma while_fuel_Ok (I : group -> Prop) fuel num body :
  (forall g tape g' tape',
     I g -> (pair_cnt g < num)%Z -> body g tape = Ok (g', tape') -> I g') ->
  forall g tape g' tape',
    I g -> while_fuel fuel num body g tape = Ok (g', tape') ->
    I g' /\ (num <= pair_cnt g')%Z.
Proof.
  intros Hbody. induction fuel as [|fuel IH]; intros g tape g' tape' Hg; simpl.
  - destruct (pair_cnt g <? num)%Z eqn:Hlt; [discriminate|].
    intros H. apply ret_Ok in H as [-> _]. apply Z.ltb_ge in Hlt. auto.
  - destruct (pair_cnt g <? num)%Z eqn:Hlt.
    + intros H. apply bind_Ok in H as (g1 & tape1 & Hb & H).
      apply Z.ltb_lt in Hlt. eapply IH; [|exact H]. eauto.
    + intros H. apply ret_Ok in H as [-> _]. apply Z.ltb_ge in Hlt. auto.
Qed.

(** The bound on the rounds is never what stops a loop whose rounds consume
    draws: any two bounds above the length of the tape give the same run. *)
Lemma while_fuel_enough num body :
  (forall g tape g' tape',
     body g tape = Ok (g', tape') -> length tape' < length tape) ->
  forall fuel1 fuel2 g tape,
    length tape < fuel1 -> length tape < fuel2 ->
    while_fuel fuel1 num body g tape = while_fuel fuel2 num body g tape.
Proof.
  intros Hbody. induction fuel1 as [|fuel1 IH]; intros fuel2 g tape H1 H2; [lia|].
  destruct fuel2 as [|fuel2]; [lia|]. simpl.
  destruct (pair_cnt g <? num)%Z; [|reflexivity].
  unfold bind. destruct (body g tape) as [[g1 tape1]|e|] eqn:Hb; try reflexivity.
  apply Hbody in Hb. apply IH; lia.
Qed.

Lemma while_pairs_filled lbl num body tape g tape' :
  (forall g tape g' tape',
     body g tape = Ok (g', tape') -> g' = g \/ half_grown g g' \/ grown lbl g g') ->
  while_pairs num body tape = Ok (g, tape') ->
  filled lbl num g.
Proof.
  intros Hbody H. unfold while_pairs in H.
  apply (while_fuel_Ok
           (fun g => Z.of_nat (length (labels g)) = pair_cnt g /\
                     Forall (fun l : pair_label => fst l = lbl) (labels g) /\
                     (pair_cnt g <= Z.max 0 num)%Z)) in H.
  - destruct H as [(Hl & Hf & Hle) Hge]. split; [lia|exact Hf|lia].
  - intros g0 tape0 g' tape0' (Hl & Hf & Hle) Hlt Hb.
    apply Hbody in Hb as [->|[(ps & _ & Hlab & Hc)|(ps & l & _ & Hlab & Hc)]].
    + auto.
    + rewrite Hlab, Hc. auto.
    + rewrite Hlab, Hc, length_app. simpl. split; [lia|]. split; [|lia].
      apply Forall_app. split; [exact Hf|]. constructor; [reflexivity|constructor].
  - simpl. split; [reflexivity|]. split; [constructor|lia].
Qed.

Lemma while_pairs_paths lbl num body tape g tape' :
  (forall g tape g' tape',
     body g tape = Ok (g', tape') -> g' = g \/ grown lbl g g') ->
  while_pairs num body tape = Ok (g, tape') ->
  length (img_paths g) = length (labels g).
Proof.
  intros Hbody H. unfold while_pairs in H.
  apply (while_fuel_Ok (fun g => length (img_paths g) = length (labels g))) in H.
  - apply H.
  - intros g0 tape0 g' tape0' Hl _ Hb.
    apply Hbody in Hb as [->|(ps & l & Hp & Hlab & _)]; [exact Hl|].
    rewrite Hp, Hlab, !length_app, Hl. reflexivity.
  - reflexivity.
Qed.

(** ** Construction of a DomainAdaptationPairDataset *)

Lemma possible_pairs_lens s s' t t' :
  EvenSampler.class_idx_lens s' = EvenSampler.class_idx_lens s ->
  EvenSampler.num_classes s' = EvenSampler.num_classes s ->
  EvenSampler.labels s' = EvenSampler.labels s ->
  EvenSampler.class_idx_lens t' = EvenSampler.class_idx_lens t ->
  EvenSampler.num_classes t' = EvenSampler.num_classes t ->
  possible_pairs s' t' = possible_pairs s t.
Proof. unfold possible_pairs. now intros -> -> -> -> ->. Qed.

Lemma possible_pairs_nonneg s t G1 G2 G3 G4 :
  possible_pairs s t = Ok (G1, G2, G3, G4) ->
  (0 <= G1 /\ 0 <= G2 /\ 0 <= G3 /\ 0 <= G4)%Z.
Proof.
  unfold possible_pairs. intros H.
  apply rbind_Ok in H as (g1 & _ & H). apply rbind_Ok in H as (g2 & _ & H).
  apply rbind_Ok in H as (g4 & _ & H). inversion H; subst. lia.
Qed.

Lemma construct_Ok shot pair_factor adv subset0 sd td tape self tape' :
  construct shot pair_factor adv subset0 sd td tape = Ok (self, tape') ->
  constructed shot pair_factor adv subset0 sd td self.
Proof.
  unfold construct. intros H.
  apply bind_Ok in H as (ss & ? & Hss & H). apply lift_Ok in Hss as [Hss ->].
  apply bind_Ok in H as (ts & ? & Hts & H). apply lift_Ok in Hts as [Hts ->].
  apply bind_Ok in H as ([[[G1 G2] G3] G4] & ? & Hpp & H).
  apply lift_Ok in Hpp as [Hpp ->].
  apply bind_Ok in H as (mp & ? & Hmp & H). apply lift_Ok in Hmp as [Hmp ->].
  destruct (pair_factor =? 0)%Z eqn:Hpf; [discriminate|]. inversion Hmp; subst mp.
  apply Z.eqb_neq in Hpf.
  apply bind_Ok in H as ([sidx ss'] & tape1 & Hsit & H).
  apply bind_Ok in H as ([tidx ts'] & tape2 & Htit & H).
  apply bind_Ok in H as (nsp & ? & Hnsp & H). apply lift_Ok in Hnsp as [Hnsp ->].
  apply bind_Ok in H as (ntp & ? & Hntp & H). apply lift_Ok in Hntp as [Hntp ->].
  apply bind_Ok in H as (g1 & tape3 & Hg1 & H).
  apply bind_Ok in H as (g2 & tape4 & Hg2 & H).
  apply bind_Ok in H as (g3 & tape5 & Hg3 & H).
  apply bind_Ok in H as (g4 & tape6 & Hg4 & H).
  apply ret_Ok in H as [-> ->].
  assert (Hpp' : possible_pairs ss' ts' = Ok (G1, G2, G3, G4)).
  { rewrite <- Hpp. pose proof Hsit as Hs. pose proof Htit as Ht.
    apply iter_Ok in Hs as (? & _ & _ & ->). apply iter_Ok in Ht as (? & _ & _ & ->).
    now apply possible_pairs_lens. }
  split; simpl; try reflexivity.
  - exists ss. split; [exact Hss|]. econstructor; [constructor|exact Hsit].
  - exists ts. split; [exact Hts|]. econstructor; [constructor|exact Htit].
  - auto.
  - exists G1, G2, G3, G4. repeat split; auto.
  - exists g1. split; [|split; [reflexivity|split; [reflexivity|]]].
    + eapply while_pairs_filled; [|exact Hg1]. intros g tape0 g' tape0' Hb.
      now apply G1_round in Hb as [_ Hb].
    + intros Hal. eapply while_pairs_paths; [|exact Hg1]. intros g tape0 g' tape0' Hb.
      apply (G1_round_aligned _ _ _ _ _ _ _ _ Hal Hb).
  - exists g2. split; [|split; [reflexivity|split; [reflexivity|]]].
    + eapply while_pairs_filled; [|exact Hg2]. intros g tape0 g' tape0' Hb.
      apply G2_round in Hb as [_ Hb]. auto.
    + eapply while_pairs_paths; [|exact Hg2]. intros g tape0 g' tape0' Hb.
      apply G2_round in Hb as [_ Hb]. right. exact Hb.
  - exists g3. split; [|split; [reflexivity|split; [reflexivity|]]].
    + eapply while_pairs_filled; [|exact Hg3]. intros g tape0 g' tape0' Hb.
      apply G3_round in Hb as [_ Hb]. auto.
    + eapply while_pairs_paths; [|exact Hg3]. intros g tape0 g' tape0' Hb.
      apply G3_round in Hb as [_ Hb]. right. exact Hb.
  - exists g4. split; [|split; [reflexivity|split; [reflexivity|]]].
    + eapply while_pairs_filled; [|exact Hg4]. intros g tape0 g' tape0' Hb.
      apply G4_round in Hb as [_ Hb]. auto.
    + eapply while_pairs_paths; [|exact Hg4]. intros g tape0 g' tape0' Hb.
      apply G4_round in Hb as [_ Hb]. right. exact Hb.
Qed.

Lemma datasets_Ok sp tp sd td ds :
  datasets sp tp sd td = Ok ds ->
  (sd = Some (fst ds) /\ td = Some (snd ds)) \/
  ((sd = None \/ td = None) /\
   exists sdir tdir,
     sp = Some sdir /\ tp = Some tdir /\
     map fst (dir_classes sdir) = map fst (dir_classes tdir) /\
     ds = (ClassificationDataset.init sdir None, ClassificationDataset.init tdir None)).
Proof.
  unfold datasets. intros H.
  assert (Hpaths : match sp, tp with
                   | Some sdir, Some tdir =>
                       if negb (bool_decide (map fst (dir_classes sdir) =
                                             map fst (dir_classes tdir)))
                       then Raise (AssertionError class_mismatch)
                       else Ok (ClassificationDataset.init sdir None,
                                ClassificationDataset.init tdir None)
                   | _, _ => Raise TypeError
                   end = Ok ds ->
          exists sdir tdir,
            sp = Some sdir /\ tp = Some tdir /\
            map fst (dir_classes sdir) = map fst (dir_classes tdir) /\
            ds = (ClassificationDataset.init sdir None,
                  ClassificationDataset.init tdir None)).
  { destruct sp as [sdir|], tp as [tdir|]; try discriminate.
    case_bool_decide as Heq; simpl; [|discriminate].
    intros H'; inversion H'; subst. eauto 6. }
  destruct sd as [s|], td as [t0|]; [left; inversion H; auto|right..];
    (split; [auto|now apply Hpaths]).
Qed.

Lemma init_constructed sp tp shot pair_factor adv sd td subset0 tape self tape' :
  init sp tp shot pair_factor adv sd td subset0 tape = Ok (self, tape') ->
  exists ds,
    datasets sp tp sd td = Ok ds /\
    constructed shot pair_factor adv subset0 (fst ds) (snd ds) self.
Proof.
  unfold init. intros H. apply bind_Ok in H as (ds & ? & Hds & H).
  apply lift_Ok in Hds as [Hds ->]. apply construct_Ok in H. eauto.
Qed.

(** ** Budget and sizes of the groups *)

Lemma budget_fits m pair_factor G :
  (0 <= m)%Z -> (1 <= pair_factor)%Z -> (m <= G)%Z ->
  Z.min G (pair_factor * (m / pair_factor)) = (pair_factor * (m / pair_factor))%Z /\
  (0 <= pair_factor * (m / pair_factor))%Z.
Proof.
  intros Hm Hpf HG.
  pose proof (Z.mul_div_le m pair_factor ltac:(lia)).
  pose proof (Z.div_pos m pair_factor Hm ltac:(lia)). split; nia.
Qed.

(** The sizes the four loops reach: with [pair_factor >= 1] the product
    [pair_factor * min_pairs] does not exceed the least count of possible
    pairs, and every group is filled to it. *)
Lemma realized_sizes sp tp shot pair_factor adv sd td subset0 tape self tape' :
  init sp tp shot pair_factor adv sd td subset0 tape = Ok (self, tape') ->
  (1 <= pair_factor)%Z ->
  aligned (source_dataset self) ->
  exists G1 G2 G3 G4,
    possible_pairs (s_sampler self) (t_sampler self) = Ok (G1, G2, G3, G4) /\
    min_pairs self = (Z.min (Z.min (Z.min G1 G2) G3) G4 / pair_factor)%Z /\
    (0 <= min_pairs self)%Z /\
    (pair_factor * min_pairs self <= Z.min (Z.min (Z.min G1 G2) G3) G4)%Z /\
    Forall (fun g : list paths => Z.of_nat (length g) = (pair_factor * min_pairs self)%Z)
           [G1_img_paths self; G2_img_paths self; G3_img_paths self; G4_img_paths self] /\
    Forall (fun num => num = (pair_factor * min_pairs self)%Z)
           [num_G1_pairs self; num_G2_pairs self; num_G3_pairs self; num_G4_pairs self].
Proof.
  intros Hinit Hpf Hal.
  apply init_constructed in Hinit as (ds & _ & C).
  destruct (c_possible _ _ _ _ _ _ _ C)
    as (G1 & G2 & G3 & G4 & Hpp & Hmp & H1 & H2 & H3 & H4).
  destruct (possible_pairs_nonneg _ _ _ _ _ _ Hpp) as (P1 & P2 & P3 & P4).
  set (m := Z.min (Z.min (Z.min G1 G2) G3) G4) in *.
  assert (Hm : (0 <= m)%Z) by (unfold m; lia).
  destruct (budget_fits m pair_factor G1 Hm Hpf ltac:(unfold m; lia)) as [E1 Hb].
  destruct (budget_fits m pair_factor G2 Hm Hpf ltac:(unfold m; lia)) as [E2 _].
  destruct (budget_fits m pair_factor G3 Hm Hpf ltac:(unfold m; lia)) as [E3 _].
  destruct (budget_fits m pair_factor G4 Hm Hpf ltac:(unfold m; lia)) as [E4 _].
  pose proof (Z.mul_div_le m pair_factor ltac:(lia)) as Hle.
  rewrite <- Hmp in E1, E2, E3, E4, Hb, Hle.
  destruct (c_G1 _ _ _ _ _ _ _ C) as (g1 & [L1 _ _] & Hp1 & _ & A1).
  destruct (c_G2 _ _ _ _ _ _ _ C) as (g2 & [L2 _ _] & Hp2 & _ & A2).
  destruct (c_G3 _ _ _ _ _ _ _ C) as (g3 & [L3 _ _] & Hp3 & _ & A3).
  destruct (c_G4 _ _ _ _ _ _ _ C) as (g4 & [L4 _ _] & Hp4 & _ & A4).
  rewrite <- (c_source _ _ _ _ _ _ _ C) in A1. specialize (A1 Hal).
  exists G1, G2, G3, G4.
  split; [exact Hpp|]. split; [exact Hmp|].
  split; [rewrite Hmp; apply Z.div_pos; lia|]. split; [exact Hle|].
  split.
  - repeat constructor;
      [rewrite Hp1, A1|rewrite Hp2, A2|rewrite Hp3, A3|rewrite Hp4, A4]; lia.
  - repeat constructor; lia.
Qed.



(** ** Length of the dataset *)

(** C5, as stated, fails: with [pair_factor = 2] the four groups of this
    run hold two pairs each, eight in all, and the length is four. *)
Lemma length_is_not_the_sum :
  exists self,
    two_by_two_run 2 false = Ok (self, []) /\
    len self = 4 /\
    length (G1_img_paths self) + length (G2_img_paths self) +
    length (G3_img_paths self) + length (G4_img_paths self) = 8 /\
    sum_list (map (fun g : list paths => length g) (group_imgs self)) = 8.
Proof. eexists. split; [vm_compute; reflexivity|]. repeat split. Qed.

(** C5, amended.  For a dataset built without [subset], with
    [pair_factor >= 1] and a source dataset holding one label per image:
    the length is [4 * min_pairs], or [2 * min_pairs] in adversarial mode,
    and the groups served hold [pair_factor] times as many pairs as the
    length counts; the length is the sum of their sizes exactly when
    [pair_factor = 1] or [min_pairs = 0]. *)
Theorem length_of_pair_dataset
    sp tp shot pair_factor adv sd td tape self tape' :
  init sp tp shot pair_factor adv sd td None tape = Ok (self, tape') ->
  (1 <= pair_factor)%Z ->
  aligned (source_dataset self) ->
  (0 <= min_pairs self)%Z /\
  Z.of_nat (len self) = ((if adv then 2 else 4) * min_pairs self)%Z /\
  Z.of_nat (sum_list (map (fun g : list paths => length g) (group_imgs self))) =
    (pair_factor * Z.of_nat (len self))%Z /\
  (sum_list (map (fun g : list paths => length g) (group_imgs self)) = len self <->
   pair_factor = 1%Z \/ min_pairs self = 0%Z).
Proof.
  intros Hinit Hpf Hal.
  destruct (realized_sizes _ _ _ _ _ _ _ _ _ _ _ Hinit Hpf Hal)
    as (G1 & G2 & G3 & G4 & _ & _ & Hmp0 & _ & Hlens & _).
  apply init_constructed in Hinit as (ds & _ & C).
  inversion Hlens as [|? ? L1 Hl1]; subst. inversion Hl1 as [|? ? L2 Hl2]; subst.
  inversion Hl2 as [|? ? L3 Hl3]; subst. inversion Hl3 as [|? ? L4 _]; subst.
  assert (Hlen : Z.of_nat (len self) = ((if adv then 2 else 4) * min_pairs self)%Z).
  { unfold len. rewrite (c_subset _ _ _ _ _ _ _ C).
    destruct adv; rewrite length_seq; lia. }
  assert (Hsum : Z.of_nat (sum_list (map (fun g : list paths => length g)
                                         (group_imgs self))) =
                 (pair_factor * Z.of_nat (len self))%Z).
  { rewrite Hlen, (c_group_imgs _ _ _ _ _ _ _ C).
    destruct adv; simpl; lia. }
  split; [exact Hmp0|]. split; [exact Hlen|]. split; [exact Hsum|].
  split.
  - intros Heq. rewrite Heq in Hsum. destruct adv; nia.
  - intros Hor. apply Nat2Z.inj. rewrite Hsum. destruct Hor as [->|H0]; [lia|].
    rewrite Hlen, H0. lia.
Qed.

Lemma length_of_pair_dataset_two_by_two :
  exists self tape',
    two_by_two_run 2 false = Ok (self, tape') /\
    (0 <= min_pairs self)%Z /\
    Z.of_nat (len self) = (4 * min_pairs self)%Z /\
    Z.of_nat (sum_list (map (fun g : list paths => length g) (group_imgs self))) =
      (2 * Z.of_nat (len self))%Z /\
    (sum_list (map (fun g : list paths => length g) (group_imgs self)) = len self <->
     2%Z = 1%Z \/ min_pairs self = 0%Z).
Proof.
  destruct (two_by_two_run 2 false) as [[self tape']|e|] eqn:Hrun;
    [|vm_compute in Hrun; discriminate..].
  exists self, tape'. split; [reflexivity|].
  apply (length_of_pair_dataset _ _ _ _ false _ _ _ _ _ Hrun); [lia|].
  vm_compute in Hrun. inversion Hrun. reflexivity.
Defined.

(** ** Adversarial mode *)

(** C6, as stated, fails: in adversarial mode the loops of G1 and G3 run
    as in normal mode and fill [G1_img_paths] and [G3_img_paths]. *)
Lemma same_domain_groups_are_drawn :
  exists self,
    two_by_two_run 1 true = Ok (self, []) /\
    adv_stage self = true /\
    G1_img_paths self = [("s/dog/A", "s/dog/A"); ("s/cat/a", "s/cat/b")]%string /\
    G3_img_paths self = [("s/dog/A", "s/cat/b"); ("s/cat/a", "s/dog/A")]%string.
Proof. eexists. split; [vm_compute; reflexivity|]. repeat split. Qed.

(** C6, amended.  In adversarial mode [group_imgs] and [group_labels] hold
    the two cross-domain groups only, every pair of G2 carries the pair
    label 0 and every pair of G4 the pair label 2; the two same-domain
    groups are drawn all the same, [num_G1_pairs] and [num_G3_pairs] pairs
    of them, and kept in [G1_labels] and [G3_labels] without being served. *)
Theorem adversarial_groups
    sp tp shot pair_factor sd td subset0 tape self tape' :
  init sp tp shot pair_factor true sd td subset0 tape = Ok (self, tape') ->
  group_imgs self = [G2_img_paths self; G4_img_paths self] /\
  group_labels self = [G2_labels self; G4_labels self] /\
  Forall (fun l : pair_label => fst l = 0) (G2_labels self) /\
  Forall (fun l : pair_label => fst l = 2) (G4_labels self) /\
  length (G2_img_paths self) = length (G2_labels self) /\
  length (G4_img_paths self) = length (G4_labels self) /\
  Z.of_nat (length (G1_labels self)) = Z.max 0 (num_G1_pairs self) /\
  Z.of_nat (length (G3_labels self)) = Z.max 0 (num_G3_pairs self) /\
  Forall (fun l : pair_label => fst l = 0) (G1_labels self) /\
  Forall (fun l : pair_label => fst l = 2) (G3_labels self).
Proof.
  intros Hinit. apply init_constructed in Hinit as (ds & _ & C).
  destruct (c_G1 _ _ _ _ _ _ _ C) as (g1 & [L1 F1 _] & _ & -> & _).
  destruct (c_G2 _ _ _ _ _ _ _ C) as (g2 & [_ F2 _] & Hp2 & Hl2 & A2).
  destruct (c_G3 _ _ _ _ _ _ _ C) as (g3 & [L3 F3 _] & _ & -> & _).
  destruct (c_G4 _ _ _ _ _ _ _ C) as (g4 & [_ F4 _] & Hp4 & Hl4 & A4).
  rewrite (c_group_imgs _ _ _ _ _ _ _ C), (c_group_labels _ _ _ _ _ _ _ C).
  rewrite Hp2, Hl2, Hp4, Hl4. repeat split; auto.
Qed.

Lemma adversarial_groups_two_by_two :
  exists self tape',
    two_by_two_run 1 true = Ok (self, tape') /\
    group_imgs self = [G2_img_paths self; G4_img_paths self] /\
    group_labels self = [G2_labels self; G4_labels self] /\
    Forall (fun l : pair_label => fst l = 0) (G2_labels self) /\
    Forall (fun l : pair_label => fst l = 2) (G4_labels self) /\
    length (G2_img_paths self) = length (G2_labels self) /\
    length (G4_img_paths self) = length (G4_labels self) /\
    Z.of_nat (length (G1_labels self)) = Z.max 0 (num_G1_pairs self) /\
    Z.of_nat (length (G3_labels self)) = Z.max 0 (num_G3_pairs self) /\
    Forall (fun l : pair_label => fst l = 0) (G1_labels self) /\
    Forall (fun l : pair_label => fst l = 2) (G3_labels self).
Proof.
  destruct (two_by_two_run 1 true) as [[self tape']|e|] eqn:Hrun;
    [|vm_compute in Hrun; discriminate..].
  exists self, tape'. split; [reflexivity|].
  exact (adversarial_groups _ _ _ _ _ _ _ _ _ _ Hrun).
Defined.

(** ** The counts of possible pairs *)

Lemma sum_map_ext {A} (f g : A -> nat) l :
  (forall x, x ∈ l -> f x = g x) -> sum_list (map f l) = sum_list (map g l).
Proof.
  induction l as [|x xs IH]; simpl; intros H; [reflexivity|].
  rewrite H by left. rewrite IH; [reflexivity|]. intros y Hy. apply H. now right.
Qed.

Lemma sum_map_add {A} (f g : A -> nat) l :
  sum_list (map (fun x => f x + g x) l) = sum_list (map f l) + sum_list (map g l).
Proof. induction l as [|x xs IH]; simpl; [reflexivity|]. rewrite IH. unfold id. lia. Qed.

Lemma sum_map_zero {A} (f : A -> nat) l :
  (forall x, x ∈ l -> f x = 0) -> sum_list (map f l) = 0.
Proof.
  induction l as [|x xs IH]; simpl; intros H; [reflexivity|].
  rewrite H by left. rewrite IH; [reflexivity|]. intros y Hy. apply H. now right.
Qed.






Lemma length_nonzero_eq c labels start :
  length (nonzero_eq c labels start) = class_count labels c.
Proof.
  unfold class_count. revert start.
  induction labels as [|l ls IH]; intros start; simpl; [reflexivity|].
  rewrite filter_cons. destruct (Nat.eqb_spec l c) as [->|Hne].
  - destruct (decide (c = c)); [|congruence]. simpl. now rewrite IH.
  - destruct (decide (l = c)); [congruence|]. apply IH.
Qed.

Lemma length_slice_to {A} shot (l : list A) :
  shot <> (-1)%Z -> length (slice_to shot l) = kept shot (length l).
Proof.
  intros Hs. unfold slice_to, kept. apply Z.eqb_neq in Hs. rewrite Hs.
  destruct (0 <=? shot)%Z; rewrite length_take; lia.
Qed.

Lemma bucket_size_count dataset shot es c :
  EvenSampler.init dataset shot = Ok es ->
  c < EvenSampler.num_classes es ->
  EvenSampler.class_idx_lens es !! c = Some (bucket_size es c) /\
  bucket_size es c = kept shot (class_count (EvenSampler.labels es) c).
Proof.
  intros H Hc. apply init_Ok in H as (labels & _ & -> & _ & Hnc & Hci & Hlens & _).
  assert (Hl : EvenSampler.class_idx_lens es !! c =
               Some (kept shot (class_count labels c))).
  { rewrite Hlens, Hci, !list_lookup_fmap, lookup_seq_lt by now rewrite <- Hnc.
    simpl. f_equal. unfold kept at 1. destruct (Z.eqb_spec shot (-1)) as [->|Hs].
    - apply length_nonzero_eq.
    - rewrite length_slice_to by exact Hs. rewrite length_nonzero_eq.
      unfold kept. apply Z.eqb_neq in Hs. now rewrite Hs. }
  unfold bucket_size. rewrite (nth_lookup_Some _ _ _ _ Hl). auto.
Qed.






(** ** A sample paired with itself *)

Lemma randint_run a hi r tape :
  a <= r -> (Z.of_nat r <= hi)%Z -> randint a (Some hi) (Randint r :: tape) = Ok (r, tape).
Proof.
  intros Ha Hr. unfold randint.
  assert (H1 : (hi <? Z.of_nat a)%Z = false) by (apply Z.ltb_ge; lia).
  assert (H2 : (a <=? r) = true) by (apply Nat.leb_le; lia).
  assert (H3 : (Z.of_nat r <=? hi)%Z = true) by (apply Z.leb_le; lia).
  now rewrite H1, H2, H3.
Qed.

(** C10.  When the two draws of a partition in a round of the G1 loop give
    the same partition [r], whatever the class [c] drawn, the round reads
    the same source sample [x] twice, appends the pair of its path with
    itself, labels it and counts it: nothing in the round compares the two
    samples. *)
Theorem G1_pairs_a_sample_with_itself
    source s_nc s_idxs nsp r c g tape x p l :
  (Z.of_nat r <= nsp)%Z -> c < s_nc ->
  pick (ClassificationDataset.subset source) s_idxs (r * s_nc + c) = Ok x ->
  index (ClassificationDataset.imgs source) x = Ok p ->
  index (ClassificationDataset.labels source) x = Ok l ->
  G1_body source s_nc s_idxs (Some nsp) g
          (Randint r :: Randint r :: Randint c :: tape) =
  Ok ({| img_paths := img_paths g ++ [(p, p)];
         labels := labels g ++ [(0, (l, l))];
         pair_cnt := (pair_cnt g + 1)%Z |}, tape).
Proof.
  intros Hr Hc Hx Hp Hl. unfold G1_body, bind.
  rewrite !(randint_run 0 nsp r) by lia.
  rewrite (randint_run 0 (Z.of_nat s_nc - 1) c) by lia.
  unfold except_IndexError. rewrite Hx. simpl.
  unfold append_pair. rewrite Hp, Hl. reflexivity.
Qed.

Lemma G1_pairs_a_sample_with_itself_two_by_two :
  let source := ClassificationDataset.init (two_by_two "s") None in
  pick (ClassificationDataset.subset source) [1; 2; 0; 3] (0 * 2 + 1) = Ok 2 /\
  G1_body source 2 [1; 2; 0; 3] (Some 1%Z) no_pairs
          (Randint 0 :: Randint 0 :: Randint 1 :: []) =
  Ok ({| img_paths := [("s/dog/A", "s/dog/A")%string];
         labels := [(0, (1, 1))];
         pair_cnt := 1 |}, []).
Proof.
  intros source. split; [reflexivity|].
  apply (G1_pairs_a_sample_with_itself source 2 [1; 2; 0; 3] 1%Z 0 1 no_pairs []
           2 "s/dog/A"%string 1); [lia|lia|reflexivity..].
Defined.

(** ** Assertion failures *)

(** Case analysis on every test a failing hypothesis went through. *)
Ltac no_assertion :=
  let msg := fresh "msg" in
  let H := fresh "H" in
  unfold asserts; intros msg H; unfold rbind in H;
  repeat match type of H with
         | context [match ?x with _ => _ end] => destruct x
         | context [if ?b then _ else _] => destruct b
         end;
  simpl in H; discriminate H.

Section Asserts.
Variable P : string -> Prop.

Lemma asserts_rbind {A B} (m : result A) (k : A -> result B) :
  asserts P m -> (forall a, asserts P (k a)) -> asserts P (rbind m k).
Proof.
  intros Hm Hk msg. destruct m as [a|e|]; simpl; [apply Hk| |discriminate].
  intros H. inversion H; subst. now apply Hm.
Qed.

Lemma asserts_index {A} (l : list A) i : asserts P (index l i).
Proof. unfold index. no_assertion. Qed.

Lemma asserts_mapR {A B} (f : A -> result B) l :
  (forall x, asserts P (f x)) -> asserts P (mapR f l).
Proof.
  intros Hf. induction l as [|x xs IH]; simpl; [no_assertion|].
  apply asserts_rbind; [apply Hf|]. intros y.
  apply asserts_rbind; [exact IH|]. intros ys. no_assertion.
Qed.

Lemma assertsM_bind {A B} (m : rand A) (k : A -> rand B) :
  assertsM P m -> (forall a, assertsM P (k a)) -> assertsM P (bind m k).
Proof.
  intros Hm Hk tape msg. unfold bind.
  destruct (m tape) as [[a tape1]|e|] eqn:E; [apply Hk| |discriminate].
  intros H. inversion H; subst. apply (Hm tape). now rewrite E.
Qed.

Lemma assertsM_lift {A} (r : result A) : asserts P r -> assertsM P (lift r).
Proof.
  intros Hr tape msg. destruct r; simpl; [discriminate| |discriminate].
  intros H. inversion H; subst. now apply Hr.
Qed.

Lemma assertsM_ret {A} (a : A) : assertsM P (ret a).
Proof. intros tape. unfold ret. no_assertion. Qed.

Lemma assertsM_randperm n : assertsM P (randperm n).
Proof.
  intros tape msg. unfold randperm. destruct tape as [|[p| |] tape]; try discriminate.
  case_bool_decide; discriminate.
Qed.

Lemma assertsM_randint a b : assertsM P (randint a b).
Proof. intros tape. unfold randint. no_assertion. Qed.

Lemma assertsM_sample2 n : assertsM P (sample2 n).
Proof. intros tape. unfold sample2. no_assertion. Qed.

Lemma assertsM_mapM {A B} (f : A -> rand B) l :
  (forall x, assertsM P (f x)) -> assertsM P (mapM f l).
Proof.
  intros Hf. induction l as [|x xs IH]; simpl; [apply assertsM_ret|].
  apply assertsM_bind; [apply Hf|]. intros y.
  apply assertsM_bind; [exact IH|]. intros ys. apply assertsM_ret.
Qed.

Lemma asserts_sampler_init dataset shot : asserts P (EvenSampler.init dataset shot).
Proof.
  unfold EvenSampler.init.
  apply asserts_rbind; [apply asserts_mapR; intros; apply asserts_index|].
  intros labels. apply asserts_rbind; [unfold pymax; no_assertion|].
  intros mx. apply asserts_rbind; [unfold pymin; no_assertion|].
  intros mn. no_assertion.
Qed.

Lemma assertsM_iter es : assertsM P (EvenSampler.iter es).
Proof.
  unfold EvenSampler.iter. apply assertsM_bind.
  - apply assertsM_mapM. intros c. unfold EvenSampler.reshuffle.
    apply assertsM_bind; [apply assertsM_randperm|]. intros p. apply assertsM_ret.
  - intros cs. apply assertsM_bind; [|intros; apply assertsM_ret].
    apply assertsM_lift. unfold EvenSampler.stack_flat. no_assertion.
Qed.

Lemma asserts_possible_pairs s t0 : asserts P (possible_pairs s t0).
Proof.
  unfold possible_pairs.
  assert (Hprod : forall l1 l2 i j,
            asserts P (a <- index l1 i ;; b <- index l2 j ;; Ok (a * b))%res).
  { intros. apply asserts_rbind; [apply asserts_index|]. intros a.
    apply asserts_rbind; [apply asserts_index|]. intros b. no_assertion. }
  apply asserts_rbind.
  { apply asserts_mapR. intros i. apply asserts_rbind; [apply asserts_index|].
    intros n. no_assertion. }
  intros g1. apply asserts_rbind; [apply asserts_mapR; intros; apply Hprod|].
  intros g2. apply asserts_rbind; [|intros; no_assertion].
  apply asserts_mapR. intros i.
  apply asserts_rbind; [apply asserts_mapR; intros; apply Hprod|].
  intros row. no_assertion.
Qed.

Lemma asserts_append_pair lbl d1 d2 x1 x2 g :
  asserts P (snd (append_pair lbl d1 d2 x1 x2 g)).
Proof.
  unfold append_pair, index.
  destruct (ClassificationDataset.imgs d1 !! x1), (ClassificationDataset.imgs d2 !! x2),
    (ClassificationDataset.labels d1 !! x1), (ClassificationDataset.labels d2 !! x2);
    simpl; intros msg H; discriminate H.
Qed.

Lemma assertsM_propagate r k :
  asserts P r -> (forall x1 x2, asserts P (snd (k x1 x2))) ->
  assertsM P (propagate r k).
Proof.
  intros Hr Hk tape msg. unfold propagate.
  destruct r as [[x1 x2]|e|]; simpl; [| |discriminate].
  - specialize (Hk x1 x2 msg). destruct (k x1 x2) as [g' [u|e|]]; simpl in *;
      [discriminate| |discriminate].
    intros H. inversion H; subst. now apply Hk.
  - intros H. inversion H; subst. now apply Hr.
Qed.

Lemma assertsM_except_IndexError r k g :
  asserts P r -> (forall x1 x2, asserts P (snd (k x1 x2))) ->
  assertsM P (except_IndexError r k g).
Proof.
  intros Hr Hk tape msg. unfold except_IndexError.
  destruct r as [[x1 x2]|e|]; simpl.
  - specialize (Hk x1 x2 msg). destruct (k x1 x2) as [g' [u|e|]]; simpl in *;
      [discriminate| |discriminate].
    destruct e; simpl; try discriminate.
    intros H. inversion H; subst. now apply Hk.
  - destruct e; simpl; try discriminate.
    intros H. inversion H; subst. now apply Hr.
  - discriminate.
Qed.

Lemma asserts_picks sub1 idxs1 k1 sub2 idxs2 k2 :
  asserts P (x1_idx <- pick sub1 idxs1 k1 ;;
             x2_idx <- pick sub2 idxs2 k2 ;; Ok (x1_idx, x2_idx))%res.
Proof.
  assert (Hpick : forall sub idxs k, asserts P (pick sub idxs k)).
  { intros. unfold pick. apply asserts_rbind; intros; apply asserts_index. }
  apply asserts_rbind; [apply Hpick|]. intros x1.
  apply asserts_rbind; [apply Hpick|]. intros x2. no_assertion.
Qed.

Lemma assertsM_while_fuel fuel num body g :
  (forall g, assertsM P (body g)) -> assertsM P (while_fuel fuel num body g).
Proof.
  intros Hbody. revert g. induction fuel as [|fuel IH]; intros g; simpl.
  - destruct (pair_cnt g <? num)%Z; [|apply assertsM_ret].
    apply assertsM_lift. no_assertion.
  - destruct (pair_cnt g <? num)%Z; [|apply assertsM_ret].
    apply assertsM_bind; [apply Hbody|exact IH].
Qed.

Lemma assertsM_while_pairs num body :
  (forall g, assertsM P (body g)) -> assertsM P (while_pairs num body).
Proof. intros Hbody tape. unfold while_pairs. now apply assertsM_while_fuel. Qed.

Lemma assertsM_construct shot pair_factor adv subset0 sd td :
  assertsM P (construct shot pair_factor adv subset0 sd td).
Proof.
  unfold construct.
  apply assertsM_bind; [apply assertsM_lift, asserts_sampler_init|]. intros ss.
  apply assertsM_bind; [apply assertsM_lift, asserts_sampler_init|]. intros ts.
  apply assertsM_bind; [apply assertsM_lift, asserts_possible_pairs|].
  intros [[[G1 G2] G3] G4].
  apply assertsM_bind; [apply assertsM_lift; no_assertion|]. intros mp.
  apply assertsM_bind; [apply assertsM_iter|]. intros [sidx ss'].
  apply assertsM_bind; [apply assertsM_iter|]. intros [tidx ts'].
  apply assertsM_bind; [apply assertsM_lift; unfold partitions; no_assertion|].
  intros nsp.
  apply assertsM_bind; [apply assertsM_lift; unfold partitions; no_assertion|].
  intros ntp.
  apply assertsM_bind.
  { apply assertsM_while_pairs. intros g. unfold G1_body.
    repeat (apply assertsM_bind; [apply assertsM_randint|]; intros ?).
    apply assertsM_except_IndexError; [apply asserts_picks|].
    intros; apply asserts_append_pair. }
  intros g1. apply assertsM_bind.
  { apply assertsM_while_pairs. intros g. unfold G2_body.
    repeat (apply assertsM_bind; [apply assertsM_randint|]; intros ?).
    apply assertsM_propagate; [apply asserts_picks|].
    intros; apply asserts_append_pair. }
  intros g2. apply assertsM_bind.
  { apply assertsM_while_pairs. intros g. unfold G3_body.
    repeat (apply assertsM_bind; [apply assertsM_randint|]; intros ?).
    apply assertsM_bind; [apply assertsM_sample2|]. intros [c1 c2].
    apply assertsM_propagate; [apply asserts_picks|].
    intros; apply asserts_append_pair. }
  intros g3. apply assertsM_bind.
  { apply assertsM_while_pairs. intros g. unfold G4_body.
    repeat (apply assertsM_bind; [apply assertsM_randint|]; intros ?).
    apply assertsM_bind; [apply assertsM_sample2|]. intros [c1 c2].
    apply assertsM_propagate; [apply asserts_picks|].
    intros; apply asserts_append_pair. }
  intros g4. apply assertsM_ret.
Qed.
End Asserts.

Lemma bind_Raise {A B} (m : rand A) (k : A -> rand B) tape e :
  bind m k tape = Raise e ->
  m tape = Raise e \/ exists a tape1, m tape = Ok (a, tape1) /\ k a tape1 = Raise e.
Proof.
  unfold bind. destruct (m tape) as [[a tape1]|e'|]; intros H;
    [right; eauto|left; now inversion H|discriminate].
Qed.

(** The one assertion of [__init__]. *)
Lemma init_asserts sp tp shot pair_factor adv sd td subset0 :
  assertsM (fun msg => msg = class_mismatch)
           (init sp tp shot pair_factor adv sd td subset0).
Proof.
  unfold init. apply assertsM_bind; [|intros; apply assertsM_construct].
  apply assertsM_lift. unfold datasets. intros msg H.
  repeat match type of H with
         | context [match ?x with _ => _ end] => destruct x
         | context [if ?b then _ else _] => destruct b
         end; try discriminate H; now inversion H.
Qed.

(** ** The check of the class listings *)

(** C8, as stated, fails: the two directories hold the same set of class
    names, enumerated in a different order, and the construction raises the
    class-mismatch error on every tape. *)
Lemma same_classes_in_another_order :
  (forall name, name ∈ map fst (dir_classes cat_dog) <->
                name ∈ map fst (dir_classes dog_cat)) /\
  forall shot pair_factor adv subset0 tape,
    init (Some cat_dog) (Some dog_cat) shot pair_factor adv None None subset0 tape =
    Raise (AssertionError class_mismatch).
Proof.
  split; [|reflexivity].
  intros name. simpl. rewrite !elem_of_cons. tauto.
Qed.

(** C8, amended.  Built from two paths, the construction raises the
    class-mismatch error if and only if the listing of the class
    subdirectories of the source, in the order of enumeration, differs from
    that of the target; it raises no other assertion failure. *)
Theorem class_mismatch_iff sp tp shot pair_factor adv sd td subset0 tape :
  sd = None \/ td = None ->
  (init (Some sp) (Some tp) shot pair_factor adv sd td subset0 tape =
     Raise (AssertionError class_mismatch) <->
   map fst (dir_classes sp) <> map fst (dir_classes tp)) /\
  (forall msg,
     init (Some sp) (Some tp) shot pair_factor adv sd td subset0 tape =
       Raise (AssertionError msg) -> msg = class_mismatch).
Proof.
  intros Hnone. split; [|apply init_asserts].
  assert (Hds : datasets (Some sp) (Some tp) sd td =
                if negb (bool_decide (map fst (dir_classes sp) = map fst (dir_classes tp)))
                then Raise (AssertionError class_mismatch)
                else Ok (ClassificationDataset.init sp None,
                         ClassificationDataset.init tp None)).
  { unfold datasets. destruct Hnone as [-> | ->]; [reflexivity|]. now destruct sd. }
  unfold init, bind. unfold lift at 1. rewrite Hds.
  case_bool_decide as Heq; simpl.
  - split; [|congruence]. intros H. exfalso.
    exact (assertsM_construct (fun _ => False) _ _ _ _ _ _ _ _ H).
  - split; [intros _; exact Heq|reflexivity].
Qed.

Lemma class_mismatch_iff_cat_dog :
  (init (Some cat_dog) (Some dog_cat) 3 1 false None None None [] =
     Raise (AssertionError class_mismatch) <->
   map fst (dir_classes cat_dog) <> map fst (dir_classes dog_cat)) /\
  (forall msg,
     init (Some cat_dog) (Some dog_cat) 3 1 false None None None [] =
       Raise (AssertionError msg) -> msg = class_mismatch).
Proof.
  apply (class_mismatch_iff cat_dog dog_cat 3 1 false None None None []).
  left. reflexivity.
Defined.

(** ** The assertion on [k] *)

Lemma messages_differ : k_too_small <> class_mismatch.
Proof. discriminate. Qed.

(** C9, as stated, fails: with [k = 3] and [constrained_validation = False]
    the assertion [k >= 3] holds and the function returns its two
    datasets. *)
Lemma k_equal_3_is_accepted :
  exists train val,
    pairs_get_datasets (cat_dog, cat_dog_target) k3_conf 1 k3_tape =
      Ok (train, val, []) /\
    len train = 8 /\ len val = 0.
Proof. eexists _, _. split; [vm_compute; reflexivity|]. split; reflexivity. Qed.

(** C9, amended.  [pairs_get_datasets] fails on the assertion about [k]
    exactly when [constrained_validation] is false, [k < 3], and the first
    dataset, which the function builds from the two directories before it
    looks at [k], has been constructed; with [k = 3] the assertion holds. *)
Theorem k_assertion_iff data conf pair_factor tape :
  pairs_get_datasets data conf pair_factor tape = Raise (AssertionError k_too_small) <->
  constrained_validation conf = false /\ (k conf < 3)%Z /\
  exists train tape',
    init (Some (fst data)) (Some (snd data)) (k conf) pair_factor false
         None None None tape = Ok (train, tape').
Proof.
  destruct data as [source_train target_train]. unfold pairs_get_datasets. simpl.
  pose (Q := fun msg : string => msg = class_mismatch).
  split.
  - intros H. apply bind_Raise in H as [H|(train & tape1 & Hinit & H)].
    { apply init_asserts in H. now destruct messages_differ. }
    destruct (constrained_validation conf).
    + exfalso. apply messages_differ. revert H. 
      apply (assertsM_bind Q); [apply assertsM_randperm|]. intros indices.
      apply (assertsM_bind Q); [apply init_asserts|]. intros train'.
      apply (assertsM_bind Q); [apply init_asserts|]. intros val.
      apply assertsM_ret.
    + split; [reflexivity|].
      apply bind_Raise in H as [H|(u & tape2 & _ & H)].
      * destruct (3 <=? k conf)%Z eqn:Hk; [discriminate|].
        apply Z.leb_gt in Hk. eauto.
      * exfalso. apply messages_differ. revert H.
        apply (assertsM_bind Q); [apply assertsM_randperm|]. intros indices.
        apply (assertsM_bind Q); [apply assertsM_lift, asserts_sampler_init|].
        intros sampler.
        apply (assertsM_bind Q); [apply assertsM_iter|]. intros [idxs sampler'].
        apply (assertsM_bind Q).
        { apply assertsM_lift, asserts_mapR. intros; apply asserts_index. }
        intros labels.
        apply (assertsM_bind Q); [apply init_asserts|]. intros train'.
        apply (assertsM_bind Q); [apply init_asserts|]. intros val.
        apply assertsM_ret.
  - intros (Hcv & Hk & train & tape' & Hinit).
    unfold bind at 1. rewrite Hinit, Hcv. unfold bind at 1.
    apply Z.leb_gt in Hk. now rewrite Hk.
Qed.

(** With [k = 2] the assertion fails, once the first dataset is built. *)
Example k_equal_2_is_refused :
  (exists train,
     init (Some cat_dog) (Some cat_dog_target) 2 1 false None None None k2_tape =
       Ok (train, [])) /\
  pairs_get_datasets (cat_dog, cat_dog_target) k2_conf 1 k2_tape =
    Raise (AssertionError k_too_small).
Proof. split; [eexists|]; vm_compute; reflexivity. Qed.

(** A failure of the first construction comes before the assertion. *)
Example mismatch_comes_first tape :
  pairs_get_datasets (cat_dog, dog_cat) k2_conf 1 tape =
    Raise (AssertionError class_mismatch).
Proof. reflexivity. Qed.

(** The loops of [__init__] are not cut short by the bound of
    [while_fuel]. *)
Corollary while_pairs_G1_bound source s_nc s_idxs nsp num fuel tape :
  length tape < fuel ->
  while_pairs num (G1_body source s_nc s_idxs nsp) tape =
  while_fuel fuel num (G1_body source s_nc s_idxs nsp) no_pairs tape.
Proof.
  intros Hfuel. unfold while_pairs. apply while_fuel_enough; [|lia|exact Hfuel].
  intros g tape0 g' tape0' Hb. now apply G1_round in Hb.
Qed.

Corollary while_pairs_G2_bound source target s_nc s_idxs t_idxs nsp ntp adv num fuel tape :
  length tape < fuel ->
  while_pairs num (G2_body source target s_nc s_idxs t_idxs nsp ntp adv) tape =
  while_fuel fuel num (G2_body source target s_nc s_idxs t_idxs nsp ntp adv) no_pairs tape.
Proof.
  intros Hfuel. unfold while_pairs. apply while_fuel_enough; [|lia|exact Hfuel].
  intros g tape0 g' tape0' Hb. now apply G2_round in Hb.
Qed.

Corollary while_pairs_G3_bound source s_nc s_idxs nsp num fuel tape :
  length tape < fuel ->
  while_pairs num (G3_body source s_nc s_idxs nsp) tape =
  while_fuel fuel num (G3_body source s_nc s_idxs nsp) no_pairs tape.
Proof.
  intros Hfuel. unfold while_pairs. apply while_fuel_enough; [|lia|exact Hfuel].
  intros g tape0 g' tape0' Hb. now apply G3_round in Hb.
Qed.

Corollary while_pairs_G4_bound
    source target s_nc t_nc s_idxs t_idxs nsp ntp adv num fuel tape :
  length tape < fuel ->
  while_pairs num (G4_body source target s_nc t_nc s_idxs t_idxs nsp ntp adv) tape =
  while_fuel fuel num (G4_body source target s_nc t_nc s_idxs t_idxs nsp ntp adv)
             no_pairs tape.
Proof.
  intros Hfuel. unfold while_pairs. apply while_fuel_enough; [|lia|exact Hfuel].
  intros g tape0 g' tape0' Hb. now apply G4_round in Hb.
Qed.

(** * Further properties of the code *)

(** ** Labels of a scanned directory *)



Lemma map_const_replicate {A B} (v : B) (l : list A) :
  map (fun _ => v) l = replicate (length l) v.
Proof. induction l as [|x xs IH]; simpl; [reflexivity|]. now rewrite IH. Qed.





(** ** Buckets, remainders and the length of a sampler *)

Lemma nonzero_eq_complete c labels start p :
  start <= p -> labels !! (p - start) = Some c -> p ∈ nonzero_eq c labels start.
Proof.
  revert start. induction labels as [|l ls IH]; intros start Hle Hl; [discriminate|].
  simpl. destruct (decide (p = start)) as [->|Hne].
  - rewrite Nat.sub_diag in Hl. simpl in Hl. inversion Hl; subst l.
    rewrite Nat.eqb_refl. left.
  - assert (Hin : p ∈ nonzero_eq c ls (S start)).
    { apply IH; [lia|]. replace (p - start) with (S (p - S start)) in Hl by lia.
      exact Hl. }
    destruct (l =? c); [right|]; exact Hin.
Qed.

Lemma NoDup_nonzero_eq c labels start : NoDup (nonzero_eq c labels start).
Proof.
  revert start. induction labels as [|l ls IH]; intros start; simpl; [constructor|].
  destruct (l =? c); [|apply IH].
  apply NoDup_cons. split; [|apply IH].
  intros Hin. apply nonzero_eq_elem in Hin as [Hle _]. lia.
Qed.

Lemma slices_join {A} (n : Z) (l : list A) : slice_to n l ++ slice_from n l = l.
Proof. unfold slice_to, slice_from. destruct (0 <=? n)%Z; apply take_drop. Qed.

Lemma kept_le shot n : kept shot n <= n.
Proof. unfold kept. destruct (shot =? -1)%Z, (0 <=? shot)%Z; lia. Qed.

(** X2.  With a [shot], the bucket of a class and its remainder are the two
    parts of one list: together they hold exactly the positions of the
    subset labelled with the class, each once and in increasing order of
    the cut, the bucket having what the cut to [shot] keeps.  Without a
    [shot] (the value -1) no remainder is recorded at all:
    [remain_class_idxs] stays the empty list. *)
Theorem buckets_and_remainders dataset shot es :
  EvenSampler.init dataset shot = Ok es ->
  (shot = (-1)%Z -> EvenSampler.remain_class_idxs es = []) /\
  (shot <> (-1)%Z ->
   forall c, c < EvenSampler.num_classes es ->
     exists b r,
       EvenSampler.class_idxs es !! c = Some b /\
       EvenSampler.remain_class_idxs es !! c = Some r /\
       b ++ r = nonzero_eq c (EvenSampler.labels es) 0 /\
       NoDup (b ++ r) /\
       (forall p, p ∈ b ++ r <-> EvenSampler.labels es !! p = Some c) /\
       length b = kept shot (length (b ++ r))).
Proof.
  intros Hinit. unfold EvenSampler.init in Hinit.
  apply rbind_Ok in Hinit as (labels & Hl & H).
  apply rbind_Ok in H as (mx & Hmx & H). apply rbind_Ok in H as (mn & Hmn & H).
  inversion H; subst es; clear H. simpl. split.
  - intros ->. reflexivity.
  - intros Hs c Hc. apply Z.eqb_neq in Hs as Hs'. rewrite Hs'.
    exists (slice_to shot (nonzero_eq c labels 0)),
           (slice_from shot (nonzero_eq c labels 0)).
    rewrite !list_lookup_fmap, !lookup_seq_lt by exact Hc. simpl.
    rewrite slices_join.
    split; [reflexivity|]. split; [reflexivity|]. split; [reflexivity|].
    split; [apply NoDup_nonzero_eq|]. split.
    + intros p. split.
      * intros Hp. apply nonzero_eq_elem in Hp as [_ Hp]. now rewrite Nat.sub_0_r in Hp.
      * intros Hp. apply nonzero_eq_complete; [lia|]. now rewrite Nat.sub_0_r.
    + now apply length_slice_to.
Qed.

Lemma buckets_and_remainders_cats_dogs :
  exists es,
    EvenSampler.init (ClassificationDataset.init cats_dogs None) 3 = Ok es /\
    EvenSampler.class_idxs es = [[0; 1; 2]; [10; 11; 12]] /\
    EvenSampler.remain_class_idxs es = [[3; 4; 5; 6; 7; 8; 9]; [13]] /\
    (3%Z = (-1)%Z -> EvenSampler.remain_class_idxs es = []) /\
    (3%Z <> (-1)%Z ->
     forall c, c < EvenSampler.num_classes es ->
       exists b r,
         EvenSampler.class_idxs es !! c = Some b /\
         EvenSampler.remain_class_idxs es !! c = Some r /\
         b ++ r = nonzero_eq c (EvenSampler.labels es) 0 /\
         NoDup (b ++ r) /\
         (forall p, p ∈ b ++ r <-> EvenSampler.labels es !! p = Some c) /\
         length b = kept 3 (length (b ++ r))).
Proof.
  destruct (EvenSampler.init (ClassificationDataset.init cats_dogs None) 3)
    as [es|e|] eqn:Hinit; [|vm_compute in Hinit; discriminate..].
  exists es. split; [reflexivity|].
  pose proof (buckets_and_remainders _ _ _ Hinit) as Hthm.
  vm_compute in Hinit. inversion Hinit; subst es.
  split; [reflexivity|]. split; [reflexivity|]. exact Hthm.
Defined.

Lemma sum_indicator n l :
  sum_upto n (fun c => if decide (l = c) then 1 else 0) = if decide (l < n) then 1 else 0.
Proof.
  unfold sum_upto. induction n as [|n IH]; [reflexivity|].
  rewrite seq_S, map_app, sum_list_with_app, IH. simpl. unfold id.
  destruct (decide (l = n)), (decide (l < n)), (decide (l < S n)); lia.
Qed.

Lemma sum_class_counts n labels :
  sum_upto n (class_count labels) = length (filter (fun l => l < n) labels).
Proof.
  induction labels as [|l ls IH].
  - unfold sum_upto. apply sum_map_zero. reflexivity.
  - rewrite filter_cons.
    transitivity (sum_upto n (fun c => if decide (l = c) then 1 else 0) +
                  sum_upto n (class_count ls)).
    + unfold sum_upto. rewrite <- sum_map_add. apply sum_map_ext. intros c _.
      unfold class_count. rewrite filter_cons. now destruct (decide (l = c)).
    + rewrite sum_indicator, IH. now destruct (decide (l < n)).
Qed.

Lemma lens_are_bucket_sizes dataset shot es :
  EvenSampler.init dataset shot = Ok es ->
  EvenSampler.class_idx_lens es =
  map (bucket_size es) (seq 0 (EvenSampler.num_classes es)).
Proof.
  intros Hinit. apply list_eq. intros c. rewrite list_lookup_fmap.
  destruct (decide (c < EvenSampler.num_classes es)) as [Hc|Hc].
  - rewrite lookup_seq_lt by exact Hc. simpl.
    now destruct (bucket_size_count _ _ _ c Hinit Hc).
  - rewrite (lookup_ge_None_2 (seq _ _)) by (rewrite length_seq; lia). simpl.
    apply lookup_ge_None_2.
    apply init_Ok in Hinit as (labels & _ & _ & _ & Hnc & Hci & Hlens & _).
    rewrite Hlens, Hci, !length_map, length_seq, <- Hnc. lia.
Qed.

Lemma sum_at_least m (l : list nat) :
  Forall (fun x => m <= x) l -> length l * m <= sum_list l.
Proof. induction 1 as [|x xs Hx _ IH]; simpl; unfold id in *; lia. Qed.

Lemma sum_map_le {A} (f g : A -> nat) l :
  (forall x, x ∈ l -> f x <= g x) -> sum_list (map f l) <= sum_list (map g l).
Proof.
  induction l as [|x xs IH]; simpl; intros H; [lia|].
  pose proof (H x ltac:(left)).
  assert (sum_list (map f xs) <= sum_list (map g xs))
    by (apply IH; intros y Hy; apply H; now right).
  unfold id in *. lia.
Qed.

Lemma buckets_within_labels dataset shot es :
  EvenSampler.init dataset shot = Ok es ->
  EvenSampler.num_classes es * EvenSampler.min_len es <=
    sum_list (EvenSampler.class_idx_lens es) /\
  sum_list (EvenSampler.class_idx_lens es) <= length (EvenSampler.labels es).
Proof.
  intros Hinit. split.
  - pose proof Hinit as H.
    apply init_Ok in H as (labels & _ & _ & _ & Hnc & Hci & Hlens & _ & Hmin).
    apply pymin_spec in Hmin as [_ Hall].
    replace (EvenSampler.num_classes es) with (length (EvenSampler.class_idx_lens es))
      by now rewrite Hlens, Hci, !length_map, length_seq, Hnc.
    now apply sum_at_least.
  - rewrite (lens_are_bucket_sizes _ _ _ Hinit).
    transitivity (sum_upto (EvenSampler.num_classes es)
                           (class_count (EvenSampler.labels es))).
    + apply sum_map_le. intros c Hc. apply elem_of_seq in Hc.
      destruct (bucket_size_count _ _ _ c Hinit ltac:(lia)) as [_ ->]. apply kept_le.
    + rewrite sum_class_counts. apply length_filter.
Qed.

(** X3.  [len(sampler)] is the number of samples of the subset, whatever
    the classes and the [shot]; the sequence a call of [__iter__] emits is
    never longer than that, and is shorter as soon as a bucket is cut. *)
Theorem sampler_len_bounds_iteration dataset shot es0 es tape out es' tape' :
  EvenSampler.init dataset shot = Ok es0 ->
  iterated es0 es ->
  EvenSampler.iter es tape = Ok (out, es', tape') ->
  EvenSampler.len es = length (ClassificationDataset.subset dataset) /\
  length out <= EvenSampler.len es /\
  (length out = EvenSampler.len es ->
   Forall (fun n => n = EvenSampler.min_len es0) (EvenSampler.class_idx_lens es0)).
Proof.
  intros Hinit Hreach Hit.
  pose proof (init_balanced _ _ _ Hinit) as Hbal0.
  destruct (iterated_balanced _ _ Hbal0 Hreach) as (Hbal & Hl & Hn & Hm & _).
  destruct (iter_emits _ _ _ _ _ Hbal Hit) as [Hlen _].
  destruct (buckets_within_labels _ _ _ Hinit) as [H1 H2].
  unfold EvenSampler.len. rewrite Hl, Hlen, Hn, Hm.
  split; [|split; [lia|]].
  - pose proof Hinit as H. apply init_Ok in H as (labels & Hlab & -> & _).
    now apply mapR_Ok_length in Hlab.
  - intros Heq.
    pose proof Hinit as H.
    apply init_Ok in H as (labels & _ & _ & _ & Hnc & Hci & Hlens & _ & Hmin).
    apply pymin_spec in Hmin as [_ Hall].
    assert (Hlenl : length (EvenSampler.class_idx_lens es0) = EvenSampler.num_classes es0)
      by now rewrite Hlens, Hci, !length_map, length_seq, Hnc.
    assert (Hsum : sum_list (EvenSampler.class_idx_lens es0) =
                   length (EvenSampler.class_idx_lens es0) * EvenSampler.min_len es0)
      by lia.
    clear - Hall Hsum. revert Hsum.
    induction Hall as [|x xs Hx Hxs IH]; intros Hsum; [constructor|].
    simpl in Hsum. pose proof (sum_at_least _ _ Hxs) as Hge.
    unfold id in *. constructor; [lia|]. apply IH. lia.
Qed.

Lemma sampler_len_bounds_iteration_cats_dogs :
  EvenSampler.len cats_dogs_sampler =
    length (ClassificationDataset.subset (ClassificationDataset.init cats_dogs None)) /\
  length [3; 13; 1; 11; 2; 12; 0; 10] <= EvenSampler.len cats_dogs_sampler /\
  (length [3; 13; 1; 11; 2; 12; 0; 10] = EvenSampler.len cats_dogs_sampler ->
   Forall (fun n => n = EvenSampler.min_len cats_dogs_sampler)
          (EvenSampler.class_idx_lens cats_dogs_sampler)).
Proof.
  apply (sampler_len_bounds_iteration
           (ClassificationDataset.init cats_dogs None) (-1)
           cats_dogs_sampler cats_dogs_sampler
           [Randperm [3; 1; 2; 0; 9; 8; 7; 6; 5; 4]; Randperm [3; 1; 2; 0]]
           [3; 13; 1; 11; 2; 12; 0; 10]
           {| EvenSampler.labels := EvenSampler.labels cats_dogs_sampler;
              EvenSampler.shot := -1;
              EvenSampler.num_classes := 2;
              EvenSampler.class_idxs := [[3; 1; 2; 0]; [13; 11; 12; 10]];
              EvenSampler.remain_class_idxs := [];
              EvenSampler.class_idx_lens := [10; 4];
              EvenSampler.max_len := 10;
              EvenSampler.min_len := 4 |} []);
    [vm_compute; reflexivity|constructor|vm_compute; reflexivity].
Defined.

(** ** No position twice *)

Lemma NoDup_slice_to {A} n (l : list A) : NoDup l -> NoDup (slice_to n l).
Proof.
  intros Hl. unfold slice_to.
  destruct (0 <=? n)%Z; eapply sublist_NoDup; eauto using sublist_take.
Qed.

Lemma init_distinct dataset shot es :
  EvenSampler.init dataset shot = Ok es ->
  Forall (fun b : list nat => NoDup b) (EvenSampler.class_idxs es).
Proof.
  intros H. apply init_Ok in H as (labels & _ & _ & _ & _ & -> & _).
  apply Forall_forall. intros b Hb. apply list_elem_of_fmap in Hb as (c & -> & _).
  destruct (shot =? -1)%Z; [|apply NoDup_slice_to]; apply NoDup_nonzero_eq.
Qed.

Lemma reshuffled_distinct m c c' : reshuffled m c c' -> NoDup c -> NoDup c'.
Proof.
  intros (s & Hs & ->) Hc. rewrite <- Hs in Hc.
  eapply sublist_NoDup; eauto using sublist_take.
Qed.

Lemma iterated_distinct dataset shot es0 es :
  EvenSampler.init dataset shot = Ok es0 -> iterated es0 es ->
  Forall (fun b : list nat => NoDup b) (EvenSampler.class_idxs es).
Proof.
  intros Hinit. pose proof (init_balanced _ _ _ Hinit) as Hbal0.
  induction 1 as [|es tape out es' tape' Hreach IH Hit];
    [now apply (init_distinct dataset shot)|].
  destruct (iterated_balanced _ _ Hbal0 Hreach) as (Hbal & _).
  destruct (iter_buckets _ _ _ _ _ Hbal Hit) as (_ & Hre & _).
  apply Forall_lookup_2. intros c b' Hb'.
  destruct (Forall2_lookup_r _ _ _ _ _ Hre Hb') as (b & Hb & Hr).
  apply (reshuffled_distinct _ _ _ Hr). rewrite Forall_lookup in IH. now apply (IH c).
Qed.

Lemma iter_NoDup es tape out es' tape' :
  balanced es ->
  EvenSampler.iter es tape = Ok (out, es', tape') ->
  Forall (fun b : list nat => NoDup b) (EvenSampler.class_idxs es') ->
  NoDup out.
Proof.
  intros Hbal Hit Hd.
  destruct (iter_emits _ _ _ _ _ Hbal Hit) as [_ Hpos].
  destruct (iter_buckets _ _ _ _ _ Hbal Hit) as ([_ _ Hb'] & _ & _).
  apply NoDup_alt. intros p q x Hp Hq.
  destruct (Hpos p x Hp) as (bp & Hbp & Hxp). destruct (Hpos q x Hq) as (bq & Hbq & Hxq).
  assert (Hmod : p mod EvenSampler.num_classes es = q mod EvenSampler.num_classes es).
  { destruct (Hb' _ _ Hbp) as [_ Lp]. destruct (Hb' _ _ Hbq) as [_ Lq].
    specialize (Lp x ltac:(now apply list_elem_of_lookup_2 in Hxp)).
    specialize (Lq x ltac:(now apply list_elem_of_lookup_2 in Hxq)).
    rewrite Lp in Lq. now inversion Lq. }
  rewrite Hmod in Hbp. rewrite Hbp in Hbq. inversion Hbq; subst bq.
  rewrite Forall_lookup in Hd.
  pose proof (NoDup_lookup _ _ _ _ (Hd _ _ Hbp) Hxp Hxq) as Hdiv.
  rewrite (Nat.div_mod_eq p (EvenSampler.num_classes es)).
  rewrite (Nat.div_mod_eq q (EvenSampler.num_classes es)).
  now rewrite Hmod, Hdiv.
Qed.

(** X4.  A call of [__iter__] emits no position twice: within one pass
    every sample is drawn at most once. *)
Theorem iteration_without_repetition dataset shot es0 es tape out es' tape' :
  EvenSampler.init dataset shot = Ok es0 ->
  iterated es0 es ->
  EvenSampler.iter es tape = Ok (out, es', tape') ->
  NoDup out.
Proof.
  intros Hinit Hreach Hit.
  pose proof (init_balanced _ _ _ Hinit) as Hbal0.
  destruct (iterated_balanced _ _ Hbal0 Hreach) as (Hbal & _).
  apply (iter_NoDup _ _ _ _ _ Hbal Hit).
  apply (iterated_distinct dataset shot es0); [exact Hinit|].
  econstructor; [exact Hreach|exact Hit].
Qed.

Lemma iteration_without_repetition_cats_dogs : NoDup [3; 13; 1; 11; 2; 12; 0; 10].
Proof.
  apply (iteration_without_repetition
           (ClassificationDataset.init cats_dogs None) (-1)
           cats_dogs_sampler cats_dogs_sampler
           [Randperm [3; 1; 2; 0; 9; 8; 7; 6; 5; 4]; Randperm [3; 1; 2; 0]]
           [3; 13; 1; 11; 2; 12; 0; 10]
           {| EvenSampler.labels := EvenSampler.labels cats_dogs_sampler;
              EvenSampler.shot := -1;
              EvenSampler.num_classes := 2;
              EvenSampler.class_idxs := [[3; 1; 2; 0]; [13; 11; 12; 10]];
              EvenSampler.remain_class_idxs := [];
              EvenSampler.class_idx_lens := [10; 4];
              EvenSampler.max_len := 10;
              EvenSampler.min_len := 4 |} []);
    [vm_compute; reflexivity|constructor|vm_compute; reflexivity].
Defined.

Lemma filter_True_length (labels : list nat) n :
  Forall (fun l => l < n) labels -> length (filter (fun l => l < n) labels) = length labels.
Proof.
  induction 1 as [|l ls Hl _ IH]; [reflexivity|].
  rewrite filter_cons. destruct (decide (l < n)); [|lia]. simpl. now rewrite IH.
Qed.

Lemma pymax_spec l m : pymax l = Ok m -> Forall (fun x => x <= m) l.
Proof.
  destruct l as [|x xs]; simpl; intros H; inversion H as [Hm]; clear H Hm.
  revert x. induction xs as [|y ys IH]; intros x; simpl.
  - constructor; [lia|constructor].
  - specialize (IH (Nat.max x y)). inversion IH as [|? ? Hx Hys]; subst.
    constructor; [lia|]. constructor; [lia|exact Hys].
Qed.

(** X5.  The class comment's example, in general: without a [shot], when
    all classes have the same number of samples and the labels of the
    subset are the class ids [0 .. num_classes-1], a call of [__iter__]
    emits a permutation of all the positions of the subset. *)
Theorem balanced_classes_are_permuted dataset es0 es tape out es' tape' :
  EvenSampler.init dataset (-1) = Ok es0 ->
  EvenSampler.max_len es0 = EvenSampler.min_len es0 ->
  Forall (fun l => l < EvenSampler.num_classes es0) (EvenSampler.labels es0) ->
  iterated es0 es ->
  EvenSampler.iter es tape = Ok (out, es', tape') ->
  out ≡ₚ seq 0 (length (ClassificationDataset.subset dataset)).
Proof.
  intros Hinit Heq Hdense Hreach Hit.
  pose proof (init_balanced _ _ _ Hinit) as Hbal0.
  destruct (iterated_balanced _ _ Hbal0 Hreach) as (Hbal & Hl & Hn & Hm & _).
  destruct (iter_emits _ _ _ _ _ Hbal Hit) as [Hlen Hpos].
  destruct (iter_buckets _ _ _ _ _ Hbal Hit) as ([_ _ Hb'] & _ & _).
  assert (Hsub : length (ClassificationDataset.subset dataset) =
                 length (EvenSampler.labels es0)).
  { pose proof Hinit as H. apply init_Ok in H as (labels & Hlab & -> & _).
    symmetry. now apply mapR_Ok_length in Hlab. }
  assert (Hnodup : NoDup out).
  { apply (iter_NoDup _ _ _ _ _ Hbal Hit).
    apply (iterated_distinct dataset (-1) es0); [exact Hinit|].
    econstructor; [exact Hreach|exact Hit]. }
  apply submseteq_length_Permutation.
  - apply NoDup_submseteq; [exact Hnodup|].
    intros x Hx. apply list_elem_of_lookup in Hx as [p Hp].
    destruct (Hpos p x Hp) as (b & Hb & Hbx). apply Hb' in Hb as [_ Hb].
    specialize (Hb x ltac:(now apply list_elem_of_lookup_2 in Hbx)).
    assert (Hlab : EvenSampler.labels es' = EvenSampler.labels es0).
    { pose proof Hit as H. apply iter_Ok in H as (cs & _ & _ & ->). exact Hl. }
    rewrite Hlab in Hb. apply lookup_lt_Some in Hb. apply elem_of_seq. lia.
  - rewrite length_seq, Hlen, Hn, Hm, Hsub.
    pose proof Hinit as H.
    apply init_Ok in H as (labels & _ & Hlabels & _ & Hnc & Hci & Hlens & Hmax & Hmin).
    apply pymin_spec in Hmin as [_ Hmin]. apply pymax_spec in Hmax. rewrite Heq in Hmax.
    assert (Hall : forall c, c < EvenSampler.num_classes es0 ->
                     class_count (EvenSampler.labels es0) c = EvenSampler.min_len es0).
    { intros c Hc. destruct (bucket_size_count _ _ _ c Hinit Hc) as [Hlk Hk].
      unfold kept in Hk. simpl in Hk. rewrite <- Hk.
      rewrite Forall_lookup in Hmin, Hmax.
      specialize (Hmin _ _ Hlk). specialize (Hmax _ _ Hlk). simpl in *. lia. }
    rewrite <- (filter_True_length (EvenSampler.labels es0) (EvenSampler.num_classes es0))
      by exact Hdense.
    rewrite <- sum_class_counts. unfold sum_upto.
    rewrite (sum_map_ext _ (fun _ => EvenSampler.min_len es0)).
    + rewrite map_const_replicate, length_seq.
      clear. induction (EvenSampler.num_classes es0) as [|n IH]; simpl; unfold id in *; lia.
    + intros c Hc. apply elem_of_seq in Hc. apply Hall. lia.
Qed.

Lemma balanced_classes_are_permuted_two_by_two :
  let dataset := ClassificationDataset.init (two_by_two "s") None in
  let es0 := {| EvenSampler.labels := [0; 0; 1; 1];
                EvenSampler.shot := -1;
                EvenSampler.num_classes := 2;
                EvenSampler.class_idxs := [[0; 1]; [2; 3]];
                EvenSampler.remain_class_idxs := [];
                EvenSampler.class_idx_lens := [2; 2];
                EvenSampler.max_len := 2;
                EvenSampler.min_len := 2 |} in
  EvenSampler.init dataset (-1) = Ok es0 /\
  [1; 2; 0; 3] ≡ₚ seq 0 (length (ClassificationDataset.subset dataset)).
Proof.
  intros dataset es0.
  assert (Hinit : EvenSampler.init dataset (-1) = Ok es0) by (vm_compute; reflexivity).
  split; [exact Hinit|].
  apply (balanced_classes_are_permuted dataset es0 es0
           [Randperm [1; 0]; Randperm [0; 1]] [1; 2; 0; 3]
           {| EvenSampler.labels := [0; 0; 1; 1];
              EvenSampler.shot := -1;
              EvenSampler.num_classes := 2;
              EvenSampler.class_idxs := [[1; 0]; [2; 3]];
              EvenSampler.remain_class_idxs := [];
              EvenSampler.class_idx_lens := [2; 2];
              EvenSampler.max_len := 2;
              EvenSampler.min_len := 2 |} []).
  - exact Hinit.
  - reflexivity.
  - repeat constructor.
  - constructor.
  - vm_compute; reflexivity.
Defined.

(** ** Items of a DomainAdaptationPairDataset *)

Lemma pylookup_nonneg {A} (l : list A) (i : Z) :
  (0 <= i)%Z -> pylookup l i = l !! Z.to_nat i.
Proof. intros Hi. unfold pylookup. apply Z.leb_le in Hi. now rewrite Hi. Qed.

(** A group and its labels as [__getitem__] needs them: as many labels as
    pairs, at least [n] of them, all with the pair label [lbl]. *)
Lemma served_slot (G : list paths) (L : list pair_label) (lbl : nat) (n o : Z) :
  length G = length L -> (n <= Z.of_nat (length G))%Z ->
  Forall (fun l : pair_label => fst l = lbl) L ->
  (0 <= o < n)%Z ->
  exists ps lab, pylookup G o = Some ps /\ pylookup L o = Some lab /\ fst lab = lbl.
Proof.
  intros Hlen Hn Hlbl Ho.
  assert (Ho' : Z.to_nat o < length G) by lia.
  destruct (lookup_lt_is_Some_2 G _ Ho') as [ps Hps].
  rewrite Hlen in Ho'. destruct (lookup_lt_is_Some_2 L _ Ho') as [lab Hlab].
  exists ps, lab. rewrite !pylookup_nonneg by lia.
  split; [exact Hps|]. split; [exact Hlab|].
  rewrite Forall_lookup in Hlbl. exact (Hlbl _ _ Hlab).
Qed.

(** X6.  In a dataset built with [pair_factor >= 1] over a source dataset
    with one label per image, and with a positive [min_pairs], every
    position of [subset] is served: the entry [v] of the subset goes to the
    group [v // min_pairs], the last group when the quotient is beyond it,
    and to the offset [v % min_pairs] in it, which exists; the call does
    not end in [exit()] nor in an exception.  The pair label served is the
    number of the group in normal mode and twice that number in adversarial
    mode.  Without a [subset] argument the quotient is never beyond the
    last group. *)
Theorem every_position_is_served
    sp tp shot pair_factor adv sd td subset0 tape self tape' idx v :
  init sp tp shot pair_factor adv sd td subset0 tape = Ok (self, tape') ->
  (1 <= pair_factor)%Z ->
  aligned (source_dataset self) ->
  (0 < min_pairs self)%Z ->
  subset self !! idx = Some v ->
  let last := if adv then 1%Z else 3%Z in
  let group := Z.min (Z.of_nat v / min_pairs self) last in
  let sub_idx := (Z.of_nat v mod min_pairs self)%Z in
  (subset0 = None -> group = (Z.of_nat v / min_pairs self)%Z) /\
  exists G L ps lab,
    group_imgs self !! Z.to_nat group = Some G /\
    group_labels self !! Z.to_nat group = Some L /\
    G !! Z.to_nat sub_idx = Some ps /\
    L !! Z.to_nat sub_idx = Some lab /\
    (0 <= sub_idx < min_pairs self)%Z /\
    Z.of_nat (fst lab) = (if adv then 2 * group else group)%Z /\
    DomainAdaptationPairDataset_getitem self idx = Sample (ps, lab).
Proof.
  intros Hinit Hpf Hal Hmp Hv last group sub_idx.
  destruct (realized_sizes _ _ _ _ _ _ _ _ _ _ _ Hinit Hpf Hal)
    as (G1 & G2 & G3 & G4 & _ & _ & _ & _ & Hlens & _).
  apply init_constructed in Hinit as (ds & _ & C).
  inversion Hlens as [|? ? L1 Hl1]; subst. inversion Hl1 as [|? ? L2 Hl2]; subst.
  inversion Hl2 as [|? ? L3 Hl3]; subst. inversion Hl3 as [|? ? L4 _]; subst.
  destruct (c_G1 _ _ _ _ _ _ _ C) as (g1 & [_ F1 _] & Hp1 & Hb1 & A1).
  destruct (c_G2 _ _ _ _ _ _ _ C) as (g2 & [_ F2 _] & Hp2 & Hb2 & A2).
  destruct (c_G3 _ _ _ _ _ _ _ C) as (g3 & [_ F3 _] & Hp3 & Hb3 & A3).
  destruct (c_G4 _ _ _ _ _ _ _ C) as (g4 & [_ F4 _] & Hp4 & Hb4 & A4).
  rewrite <- (c_source _ _ _ _ _ _ _ C) in A1. specialize (A1 Hal).
  rewrite <- Hp1, <- Hb1 in A1. rewrite <- Hp2, <- Hb2 in A2.
  rewrite <- Hp3, <- Hb3 in A3. rewrite <- Hp4, <- Hb4 in A4.
  rewrite <- Hb1 in F1. rewrite <- Hb2 in F2. rewrite <- Hb3 in F3. rewrite <- Hb4 in F4.
  assert (Hge : (min_pairs self <= pair_factor * min_pairs self)%Z) by nia.
  assert (Ho : (0 <= sub_idx < min_pairs self)%Z) by (apply Z.mod_pos_bound; lia).
  assert (Hq : (0 <= Z.of_nat v / min_pairs self)%Z) by (apply Z.div_pos; lia).
  split.
  { intros ->. pose proof (c_subset _ _ _ _ _ _ _ C) as Hsub. simpl in Hsub.
    assert (Hlt : (Z.of_nat v < (if adv then 2 else 4) * min_pairs self)%Z).
    { rewrite Hsub in Hv. destruct adv; apply lookup_seq in Hv as [-> Hv]; lia. }
    assert ((Z.of_nat v / min_pairs self < (if adv then 2 else 4))%Z)
      by (apply Z.div_lt_upper_bound; [lia|]; destruct adv; lia).
    unfold group, last. destruct adv; lia. }
  assert (Hclamp : (if (last <? Z.of_nat v / min_pairs self)%Z then last
                    else (Z.of_nat v / min_pairs self)%Z) = group).
  { unfold group. destruct (Z.ltb_spec last (Z.of_nat v / min_pairs self)); lia. }
  assert (Hadv : adv_stage self = adv) by exact (c_adv _ _ _ _ _ _ _ C).
  unfold DomainAdaptationPairDataset_getitem. rewrite Hv.
  assert (Hnz : (min_pairs self =? 0)%Z = false) by (apply Z.eqb_neq; lia).
  rewrite Hnz, Hadv. fold last. simpl. rewrite Hclamp. fold sub_idx.
  rewrite (c_group_imgs _ _ _ _ _ _ _ C), (c_group_labels _ _ _ _ _ _ _ C).
  assert (Hcases : (0 <= group <= last)%Z) by (unfold group, last; destruct adv; lia).
  destruct adv; unfold last in Hcases.
  - assert (Hg : group = 0%Z \/ group = 1%Z) by lia.
    destruct Hg as [Hg|Hg]; rewrite Hg; simpl.
    + destruct (served_slot (G2_img_paths self) (G2_labels self) _ (min_pairs self) sub_idx A2 ltac:(lia) F2 Ho) as (ps & lab & E1 & E2 & E3).
      exists (G2_img_paths self), (G2_labels self), ps, lab.
      rewrite E1, E2, <- (pylookup_nonneg (G2_img_paths self)),
        <- (pylookup_nonneg (G2_labels self)) by lia.
      repeat split; auto; lia.
    + destruct (served_slot (G4_img_paths self) (G4_labels self) _ (min_pairs self) sub_idx A4 ltac:(lia) F4 Ho) as (ps & lab & E1 & E2 & E3).
      exists (G4_img_paths self), (G4_labels self), ps, lab.
      rewrite E1, E2, <- (pylookup_nonneg (G4_img_paths self)),
        <- (pylookup_nonneg (G4_labels self)) by lia.
      repeat split; auto; lia.
  - assert (Hg : group = 0%Z \/ group = 1%Z \/ group = 2%Z \/ group = 3%Z) by lia.
    destruct Hg as [Hg|[Hg|[Hg|Hg]]]; rewrite Hg; simpl.
    + destruct (served_slot (G1_img_paths self) (G1_labels self) _ (min_pairs self) sub_idx A1 ltac:(lia) F1 Ho) as (ps & lab & E1 & E2 & E3).
      exists (G1_img_paths self), (G1_labels self), ps, lab.
      rewrite E1, E2, <- (pylookup_nonneg (G1_img_paths self)),
        <- (pylookup_nonneg (G1_labels self)) by lia.
      repeat split; auto; lia.
    + destruct (served_slot (G2_img_paths self) (G2_labels self) _ (min_pairs self) sub_idx A2 ltac:(lia) F2 Ho) as (ps & lab & E1 & E2 & E3).
      exists (G2_img_paths self), (G2_labels self), ps, lab.
      rewrite E1, E2, <- (pylookup_nonneg (G2_img_paths self)),
        <- (pylookup_nonneg (G2_labels self)) by lia.
      repeat split; auto; lia.
    + destruct (served_slot (G3_img_paths self) (G3_labels self) _ (min_pairs self) sub_idx A3 ltac:(lia) F3 Ho) as (ps & lab & E1 & E2 & E3).
      exists (G3_img_paths self), (G3_labels self), ps, lab.
      rewrite E1, E2, <- (pylookup_nonneg (G3_img_paths self)),
        <- (pylookup_nonneg (G3_labels self)) by lia.
      repeat split; auto; lia.
    + destruct (served_slot (G4_img_paths self) (G4_labels self) _ (min_pairs self) sub_idx A4 ltac:(lia) F4 Ho) as (ps & lab & E1 & E2 & E3).
      exists (G4_img_paths self), (G4_labels self), ps, lab.
      rewrite E1, E2, <- (pylookup_nonneg (G4_img_paths self)),
        <- (pylookup_nonneg (G4_labels self)) by lia.
      repeat split; auto; lia.
Qed.

Lemma every_position_is_served_two_by_two :
  exists self tape',
    two_by_two_run 2 false = Ok (self, tape') /\
    subset self !! 2 = Some 2 /\
    let last := 3%Z in
    let group := Z.min (Z.of_nat 2 / min_pairs self) last in
    let sub_idx := (Z.of_nat 2 mod min_pairs self)%Z in
    (@None (list nat) = None -> group = (Z.of_nat 2 / min_pairs self)%Z) /\
    exists G L ps lab,
      group_imgs self !! Z.to_nat group = Some G /\
      group_labels self !! Z.to_nat group = Some L /\
      G !! Z.to_nat sub_idx = Some ps /\
      L !! Z.to_nat sub_idx = Some lab /\
      (0 <= sub_idx < min_pairs self)%Z /\
      Z.of_nat (fst lab) = group /\
      DomainAdaptationPairDataset_getitem self 2 = Sample (ps, lab).
Proof.
  destruct (two_by_two_run 2 false) as [[self tape']|e|] eqn:Hrun;
    [|vm_compute in Hrun; discriminate..].
  exists self, tape'. split; [reflexivity|].
  assert (Hv : subset self !! 2 = Some 2)
    by (vm_compute in Hrun; inversion Hrun; reflexivity).
  split; [exact Hv|].
  apply (every_position_is_served _ _ _ _ false _ _ _ _ _ _ 2 2 Hrun);
    [lia| | |exact Hv]; vm_compute in Hrun; inversion Hrun; reflexivity.
Defined.

(** ** A single class *)

Lemma possible_pairs_single_class s t0 G1 G2 G3 G4 :
  EvenSampler.num_classes s = 1 ->
  length (EvenSampler.class_idx_lens s) = 1 ->
  possible_pairs s t0 = Ok (G1, G2, G3, G4) -> G4 = 0%Z.
Proof.
  intros Hnc Hlen Hpp. unfold possible_pairs in Hpp. rewrite Hnc in Hpp.
  apply rbind_Ok in Hpp as (g1 & _ & Hpp).
  apply rbind_Ok in Hpp as (g2 & Hg2 & Hpp).
  apply rbind_Ok in Hpp as (g4 & Hg4 & Hpp).
  inversion Hpp; subst; clear Hpp.
  destruct (EvenSampler.num_classes t0) as [|[|n]].
  - simpl in Hg4. now inversion Hg4.
  - simpl in Hg4. now inversion Hg4.
  - exfalso. destruct (mapR_Ok_lookup _ _ _ 1 1 Hg2 eq_refl) as (y & Hy & _).
    apply rbind_Ok in Hy as (a & Ha & _). apply index_Ok, lookup_lt_Some in Ha. lia.
Qed.

(** X7.  Over datasets of a single class no pair of different classes is
    possible: whatever the other counts, [min_pairs] is 0, no group gets a
    label, the length of a dataset built without [subset] is 0, and every
    call of [__getitem__] ends in the [IndexError] of the lookup in the
    empty subset. *)
Theorem single_class_serves_nothing
    sp tp shot pair_factor adv sd td tape self tape' :
  init sp tp shot pair_factor adv sd td None tape = Ok (self, tape') ->
  EvenSampler.num_classes (s_sampler self) = 1 ->
  min_pairs self = 0%Z /\
  len self = 0 /\
  Forall (fun L : list pair_label => L = []) (group_labels self) /\
  forall idx, DomainAdaptationPairDataset_getitem self idx = Uncaught IndexError.
Proof.
  intros Hinit Hnc. apply init_constructed in Hinit as (ds & _ & C).
  destruct (c_possible _ _ _ _ _ _ _ C)
    as (G1 & G2 & G3 & G4 & Hpp & Hmp & H1 & H2 & H3 & H4).
  destruct (possible_pairs_nonneg _ _ _ _ _ _ Hpp) as (P1 & P2 & P3 & P4).
  destruct (c_factor _ _ _ _ _ _ _ C) as [Hpf _].
  assert (Hlen : length (EvenSampler.class_idx_lens (s_sampler self)) = 1).
  { destruct (c_s_sampler _ _ _ _ _ _ _ C) as (es0 & Hes0 & Hreach).
    destruct (iterated_balanced _ _ (init_balanced _ _ _ Hes0) Hreach)
      as (_ & _ & Hn & _ & Hlens).
    rewrite Hlens, <- Hnc, Hn.
    apply init_Ok in Hes0 as (labels & _ & _ & _ & Hnc0 & Hci & Hl & _).
    now rewrite Hl, Hci, !length_map, length_seq, Hnc0. }
  pose proof (possible_pairs_single_class _ _ _ _ _ _ Hnc Hlen Hpp) as ->.
  assert (Hmin : min_pairs self = 0%Z).
  { rewrite Hmp. replace (Z.min (Z.min (Z.min G1 G2) G3) 0) with 0%Z by lia.
    now apply Z.div_0_l. }
  rewrite Hmin, Z.mul_0_r in H1, H2, H3, H4.
  assert (Hsub : subset self = []).
  { rewrite (c_subset _ _ _ _ _ _ _ C), Hmin. now destruct adv. }
  split; [exact Hmin|]. split; [unfold len; now rewrite Hsub|]. split.
  - destruct (c_G1 _ _ _ _ _ _ _ C) as (g1 & [L1 _ _] & _ & Hb1 & _).
    destruct (c_G2 _ _ _ _ _ _ _ C) as (g2 & [L2 _ _] & _ & Hb2 & _).
    destruct (c_G3 _ _ _ _ _ _ _ C) as (g3 & [L3 _ _] & _ & Hb3 & _).
    destruct (c_G4 _ _ _ _ _ _ _ C) as (g4 & [L4 _ _] & _ & Hb4 & _).
    rewrite (c_group_labels _ _ _ _ _ _ _ C), Hb1, Hb2, Hb3, Hb4.
    assert (E1 : labels g1 = []) by (apply length_zero_iff_nil; lia).
    assert (E2 : labels g2 = []) by (apply length_zero_iff_nil; lia).
    assert (E3 : labels g3 = []) by (apply length_zero_iff_nil; lia).
    assert (E4 : labels g4 = []) by (apply length_zero_iff_nil; lia).
    rewrite E1, E2, E3, E4. destruct adv; repeat constructor.
  - intros idx. unfold DomainAdaptationPairDataset_getitem. now rewrite Hsub.
Qed.

Lemma single_class_serves_nothing_one_class :
  exists self tape',
    init (Some (one_class "s")) (Some (one_class "t")) 2 1 false None None None
         [Randperm [2; 0; 1]; Randperm [1; 0]] = Ok (self, tape') /\
    min_pairs self = 0%Z /\
    len self = 0 /\
    Forall (fun L : list pair_label => L = []) (group_labels self) /\
    forall idx, DomainAdaptationPairDataset_getitem self idx = Uncaught IndexError.
Proof.
  destruct (init (Some (one_class "s")) (Some (one_class "t")) 2 1 false None None None
                 [Randperm [2; 0; 1]; Randperm [1; 0]])
    as [[self tape']|e|] eqn:Hrun; [|vm_compute in Hrun; discriminate..].
  exists self, tape'. split; [reflexivity|].
  apply (single_class_serves_nothing _ _ _ _ _ _ _ _ _ _ Hrun).
  vm_compute in Hrun. inversion Hrun. reflexivity.
Defined.

(** ** Classes and domains of the pairs *)

Lemma iter_slots d shot es0 tape out es' tape' :
  EvenSampler.init d shot = Ok es0 ->
  EvenSampler.iter es0 tape = Ok (out, es', tape') ->
  slot_classes d out (EvenSampler.num_classes es0) /\ slot_buckets es0 out.
Proof.
  intros Hinit Hit. pose proof (init_balanced _ _ _ Hinit) as Hbal.
  destruct (iter_emits _ _ _ _ _ Hbal Hit) as [_ Hpos].
  destruct (iter_buckets _ _ _ _ _ Hbal Hit) as ([_ _ Hb'] & Hre & _).
  assert (Hlab : EvenSampler.labels es' = EvenSampler.labels es0).
  { pose proof Hit as H. apply iter_Ok in H as (cs & _ & _ & ->). reflexivity. }
  split.
  - intros p pos x y Hp Hx Hy.
    destruct (Hpos p pos Hp) as (b & Hb & Hbp).
    destruct (Hb' _ _ Hb) as [_ Hl].
    specialize (Hl pos ltac:(now apply list_elem_of_lookup_2 in Hbp)).
    rewrite Hlab in Hl.
    apply init_Ok in Hinit as (labels & Hmap & Hlabels & _).
    destruct (mapR_Ok_lookup _ _ _ _ _ Hmap Hx) as (y' & Hy' & Hl').
    apply index_Ok in Hy'. rewrite Hy in Hy'. inversion Hy'; subst y'.
    rewrite Hlabels, Hl' in Hl. now inversion Hl.
  - intros p pos Hp. destruct (Hpos p pos Hp) as (b' & Hbk & Hbp).
    destruct (Forall2_lookup_r _ _ _ _ _ Hre Hbk) as (b & Hb & Hr).
    exists (p mod EvenSampler.num_classes es0), b. split; [exact Hb|].
    apply (reshuffled_elem _ _ _ _ Hr). now apply list_elem_of_lookup_2 in Hbp.
Qed.

Lemma slot_of_class r nc c : c < nc -> (r * nc + c) mod nc = c.
Proof.
  intros Hc. rewrite Nat.add_comm, Nat.Div0.mod_add. now apply Nat.mod_small.
Qed.

Lemma pick_Ok sub idxs k x :
  pick sub idxs k = Ok x -> exists pos, idxs !! k = Some pos /\ sub !! pos = Some x.
Proof.
  unfold pick. intros H. apply rbind_Ok in H as (pos & Hpos & Hx).
  apply index_Ok in Hpos, Hx. eauto.
Qed.

Lemma picks_Ok sub1 idxs1 k1 sub2 idxs2 k2 x1 x2 :
  (a <- pick sub1 idxs1 k1 ;; b <- pick sub2 idxs2 k2 ;; Ok (a, b))%res = Ok (x1, x2) ->
  pick sub1 idxs1 k1 = Ok x1 /\ pick sub2 idxs2 k2 = Ok x2.
Proof.
  intros H. apply rbind_Ok in H as (a & Ha & H). apply rbind_Ok in H as (b & Hb & H).
  inversion H; subst. auto.
Qed.

(** What a run of the two appends leaves, however it ends. *)
Lemma append_pair_outcome lbl d1 d2 x1 x2 g g' o :
  append_pair lbl d1 d2 x1 x2 g = (g', o) ->
  (img_paths g' = img_paths g \/
   exists a b, ClassificationDataset.imgs d1 !! x1 = Some a /\
               ClassificationDataset.imgs d2 !! x2 = Some b /\
               img_paths g' = img_paths g ++ [(a, b)]) /\
  (labels g' = labels g \/
   exists l1 l2, ClassificationDataset.labels d1 !! x1 = Some l1 /\
                 ClassificationDataset.labels d2 !! x2 = Some l2 /\
                 labels g' = labels g ++ [(lbl, (l1, l2))]).
Proof.
  unfold append_pair, index.
  destruct (ClassificationDataset.imgs d1 !! x1) as [a|] eqn:Ha; simpl;
    [|intros H; inversion H; auto].
  destruct (ClassificationDataset.imgs d2 !! x2) as [b|] eqn:Hb; simpl;
    [|intros H; inversion H; auto].
  destruct (ClassificationDataset.labels d1 !! x1) as [l1|] eqn:H1; simpl;
    [|intros H; inversion H; simpl; split; [right; eauto|auto]].
  destruct (ClassificationDataset.labels d2 !! x2) as [l2|] eqn:H2; simpl;
    intros H; inversion H; simpl; split; eauto 6.
Qed.

Lemma while_pairs_reads (I : group -> Prop) lbl d1 d2 idxs1 idxs2 ok num body tape g tape' :
  (forall g tape g' tape',
     body g tape = Ok (g', tape') -> round_reads lbl d1 d2 idxs1 idxs2 ok g g') ->
  (forall g g', I g -> round_reads lbl d1 d2 idxs1 idxs2 ok g g' -> I g') ->
  I no_pairs ->
  while_pairs num body tape = Ok (g, tape') -> I g.
Proof.
  intros Hbody Hstep H0 H. unfold while_pairs in H.
  apply (while_fuel_Ok I) in H; [apply H| |exact H0].
  intros g0 tape0 g' tape0' Hg _ Hb. eapply Hstep; eauto.
Qed.

Section Reads.
Variables (source_dataset target_dataset : ClassificationDataset.t).
Variables (s_nc t_nc : nat) (s_idxs t_idxs : list nat).
Variables (nsp ntp : option Z) (adv_stage : bool).

Lemma G1_reads g tape g' tape' :
  G1_body source_dataset s_nc s_idxs nsp g tape = Ok (g', tape') ->
  round_reads 0 source_dataset source_dataset s_idxs s_idxs
    (fun k1 k2 => exists r1 r2 c, c < s_nc /\ k1 = r1 * s_nc + c /\ k2 = r2 * s_nc + c)
    g g'.
Proof.
  unfold G1_body. intros H.
  apply bind_Ok in H as (r1 & t1 & Hr1 & H).
  apply bind_Ok in H as (r2 & t2 & Hr2 & H).
  apply bind_Ok in H as (c & t3 & Hc & H).
  apply randint_Ok in Hc as (_ & _ & hi & Hhi & Hle). inversion Hhi; subst hi.
  apply except_IndexError_Ok in H as [_ [->|(x1 & x2 & o & Hp & Hk & _)]]; [now left|].
  apply picks_Ok in Hp as [Hp1 Hp2]. right.
  exists (r1 * s_nc + c), (r2 * s_nc + c), x1, x2, o.
  split; [exists r1, r2, c; split; [lia|auto]|auto].
Qed.

Lemma G2_reads g tape g' tape' :
  G2_body source_dataset target_dataset s_nc s_idxs t_idxs nsp ntp adv_stage
          g tape = Ok (g', tape') ->
  round_reads (if adv_stage then 0 else 1) source_dataset target_dataset s_idxs t_idxs
    (fun k1 k2 => exists r1 r2 c, c < s_nc /\ k1 = r1 * s_nc + c /\ k2 = r2 * s_nc + c)
    g g'.
Proof.
  unfold G2_body. intros H.
  apply bind_Ok in H as (r1 & t1 & Hr1 & H).
  apply bind_Ok in H as (r2 & t2 & Hr2 & H).
  apply bind_Ok in H as (c & t3 & Hc & H).
  apply randint_Ok in Hc as (_ & _ & hi & Hhi & Hle). inversion Hhi; subst hi.
  apply propagate_Ok in H as (x1 & x2 & u & Hp & Hk & _).
  apply picks_Ok in Hp as [Hp1 Hp2]. right.
  exists (r1 * s_nc + c), (r2 * s_nc + c), x1, x2, (Ok u).
  split; [exists r1, r2, c; split; [lia|auto]|auto].
Qed.

Lemma G3_reads g tape g' tape' :
  G3_body source_dataset s_nc s_idxs nsp g tape = Ok (g', tape') ->
  round_reads 2 source_dataset source_dataset s_idxs s_idxs
    (fun k1 k2 => exists r1 r2 c1 c2,
       c1 < s_nc /\ c2 < s_nc /\ c1 <> c2 /\ k1 = r1 * s_nc + c1 /\ k2 = r2 * s_nc + c2)
    g g'.
Proof.
  unfold G3_body. intros H.
  apply bind_Ok in H as (r1 & t1 & Hr1 & H).
  apply bind_Ok in H as (r2 & t2 & Hr2 & H).
  apply bind_Ok in H as ([c1 c2] & t3 & Hc & H).
  apply sample2_Ok in Hc as (_ & Hc1 & Hc2 & Hne). simpl in *.
  apply propagate_Ok in H as (x1 & x2 & u & Hp & Hk & _).
  apply picks_Ok in Hp as [Hp1 Hp2]. right.
  exists (r1 * s_nc + c1), (r2 * s_nc + c2), x1, x2, (Ok u).
  split; [exists r1, r2, c1, c2; auto 6|auto].
Qed.

Lemma G4_reads g tape g' tape' :
  G4_body source_dataset target_dataset s_nc t_nc s_idxs t_idxs nsp ntp adv_stage
          g tape = Ok (g', tape') ->
  round_reads (if adv_stage then 2 else 3) source_dataset target_dataset s_idxs t_idxs
    (fun k1 k2 => exists r1 r2 c1 c2,
       c1 < s_nc /\ c2 < s_nc /\ c1 <> c2 /\ k1 = r1 * s_nc + c1 /\ k2 = r2 * t_nc + c2)
    g g'.
Proof.
  unfold G4_body. intros H.
  apply bind_Ok in H as (r1 & t1 & Hr1 & H).
  apply bind_Ok in H as (r2 & t2 & Hr2 & H).
  apply bind_Ok in H as ([c1 c2] & t3 & Hc & H).
  apply sample2_Ok in Hc as (_ & Hc1 & Hc2 & Hne). simpl in *.
  apply propagate_Ok in H as (x1 & x2 & u & Hp & Hk & _).
  apply picks_Ok in Hp as [Hp1 Hp2]. right.
  exists (r1 * s_nc + c1), (r2 * t_nc + c2), x1, x2, (Ok u).
  split; [exists r1, r2, c1, c2; auto 6|auto].
Qed.
End Reads.

Lemma construct_drawn shot pair_factor adv subset0 sd td tape self tape' :
  construct shot pair_factor adv subset0 sd td tape = Ok (self, tape') ->
  drawn shot sd td self.
Proof.
  unfold construct. intros H.
  apply bind_Ok in H as (ss & ? & Hss & H). apply lift_Ok in Hss as [Hss ->].
  apply bind_Ok in H as (ts & ? & Hts & H). apply lift_Ok in Hts as [Hts ->].
  apply bind_Ok in H as ([[[G1 G2] G3] G4] & ? & Hpp & H).
  apply lift_Ok in Hpp as [Hpp ->].
  apply bind_Ok in H as (mp & ? & Hmp & H). apply lift_Ok in Hmp as [Hmp ->].
  apply bind_Ok in H as ([sidx ss'] & tape1 & Hsit & H).
  apply bind_Ok in H as ([tidx ts'] & tape2 & Htit & H).
  apply bind_Ok in H as (nsp & ? & Hnsp & H). apply lift_Ok in Hnsp as [Hnsp ->].
  apply bind_Ok in H as (ntp & ? & Hntp & H). apply lift_Ok in Hntp as [Hntp ->].
  apply bind_Ok in H as (g1 & tape3 & Hg1 & H).
  apply bind_Ok in H as (g2 & tape4 & Hg2 & H).
  apply bind_Ok in H as (g3 & tape5 & Hg3 & H).
  apply bind_Ok in H as (g4 & tape6 & Hg4 & H).
  apply ret_Ok in H as [-> ->].
  split; simpl.
  - exists ss, ts, tape, tape1, tape2, ss', ts'. auto 8.
  - exists g1, tape2, tape3. auto.
  - exists g2, tape3, tape4. auto.
  - exists g3, tape4, tape5. auto.
  - exists g4, tape5, tape6. auto.
Qed.

Lemma init_drawn sp tp shot pair_factor adv sd td subset0 tape self tape' :
  init sp tp shot pair_factor adv sd td subset0 tape = Ok (self, tape') ->
  drawn shot (source_dataset self) (target_dataset self) self.
Proof.
  unfold init. intros H. apply bind_Ok in H as (ds & ? & _ & H).
  pose proof (construct_Ok _ _ _ _ _ _ _ _ _ H) as C.
  apply construct_drawn in H.
  now rewrite (c_source _ _ _ _ _ _ _ C), (c_target _ _ _ _ _ _ _ C).
Qed.

Lemma reads_classes lbl d1 d2 idxs1 idxs2 nc1 nc2 ok (R : nat -> nat -> Prop) :
  slot_classes d1 idxs1 nc1 -> slot_classes d2 idxs2 nc2 ->
  (forall k1 k2, ok k1 k2 -> R (k1 mod nc1) (k2 mod nc2)) ->
  forall g g',
    Forall (fun l : pair_label => R (fst (snd l)) (snd (snd l))) (labels g) ->
    round_reads lbl d1 d2 idxs1 idxs2 ok g g' ->
    Forall (fun l : pair_label => R (fst (snd l)) (snd (snd l))) (labels g').
Proof.
  intros H1 H2 HR g g' Hg [->|(k1 & k2 & x1 & x2 & o & Hok & Hp1 & Hp2 & Hk)]; [exact Hg|].
  apply append_pair_outcome in Hk as [_ [->|(l1 & l2 & Hl1 & Hl2 & ->)]]; [exact Hg|].
  apply Forall_app. split; [exact Hg|]. constructor; [|constructor]. simpl.
  apply pick_Ok in Hp1 as (pos1 & Hi1 & Hs1). apply pick_Ok in Hp2 as (pos2 & Hi2 & Hs2).
  rewrite (H1 _ _ _ _ Hi1 Hs1 Hl1), (H2 _ _ _ _ Hi2 Hs2 Hl2). now apply HR.
Qed.

Lemma reads_buckets lbl d1 d2 shot1 shot2 es1 es2 idxs1 idxs2 ok :
  EvenSampler.init d1 shot1 = Ok es1 -> EvenSampler.init d2 shot2 = Ok es2 ->
  slot_buckets es1 idxs1 -> slot_buckets es2 idxs2 ->
  forall g g',
    Forall (fun ps : paths => in_buckets d1 shot1 (fst ps) /\ in_buckets d2 shot2 (snd ps))
           (img_paths g) ->
    round_reads lbl d1 d2 idxs1 idxs2 ok g g' ->
    Forall (fun ps : paths => in_buckets d1 shot1 (fst ps) /\ in_buckets d2 shot2 (snd ps))
           (img_paths g').
Proof.
  intros E1 E2 H1 H2 g g' Hg [->|(k1 & k2 & x1 & x2 & o & _ & Hp1 & Hp2 & Hk)]; [exact Hg|].
  apply append_pair_outcome in Hk as [[->|(a & b & Ha & Hb & ->)] _]; [exact Hg|].
  apply Forall_app. split; [exact Hg|]. constructor; [|constructor]. simpl.
  apply pick_Ok in Hp1 as (pos1 & Hi1 & Hs1). apply pick_Ok in Hp2 as (pos2 & Hi2 & Hs2).
  destruct (H1 _ _ Hi1) as (c1 & b1 & Hb1 & Hin1).
  destruct (H2 _ _ Hi2) as (c2 & b2 & Hb2 & Hin2).
  split; [exists es1, c1, b1, pos1, x1|exists es2, c2, b2, pos2, x2]; auto.
Qed.

Lemma while_reads_classes lbl d1 d2 idxs1 idxs2 nc1 nc2 ok (R : nat -> nat -> Prop)
    num body tape g tape' :
  (forall g tape g' tape',
     body g tape = Ok (g', tape') -> round_reads lbl d1 d2 idxs1 idxs2 ok g g') ->
  slot_classes d1 idxs1 nc1 -> slot_classes d2 idxs2 nc2 ->
  (forall k1 k2, ok k1 k2 -> R (k1 mod nc1) (k2 mod nc2)) ->
  while_pairs num body tape = Ok (g, tape') ->
  Forall (fun l : pair_label => R (fst (snd l)) (snd (snd l))) (labels g).
Proof.
  intros Hbody H1 H2 HR Hw.
  apply (while_pairs_reads
           (fun g0 => Forall (fun l : pair_label => R (fst (snd l)) (snd (snd l))) (labels g0))
           lbl d1 d2 idxs1 idxs2 ok num body tape g tape' Hbody); [|constructor|exact Hw].
  exact (reads_classes _ _ _ _ _ _ _ _ R H1 H2 HR).
Qed.

Lemma while_reads_buckets lbl d1 d2 shot1 shot2 es1 es2 idxs1 idxs2 ok
    num body tape g tape' :
  (forall g tape g' tape',
     body g tape = Ok (g', tape') -> round_reads lbl d1 d2 idxs1 idxs2 ok g g') ->
  EvenSampler.init d1 shot1 = Ok es1 -> EvenSampler.init d2 shot2 = Ok es2 ->
  slot_buckets es1 idxs1 -> slot_buckets es2 idxs2 ->
  while_pairs num body tape = Ok (g, tape') ->
  Forall (fun ps : paths => in_buckets d1 shot1 (fst ps) /\ in_buckets d2 shot2 (snd ps))
         (img_paths g).
Proof.
  intros Hbody E1 E2 H1 H2 Hw.
  apply (while_pairs_reads
           (fun g0 => Forall (fun ps : paths =>
                                in_buckets d1 shot1 (fst ps) /\ in_buckets d2 shot2 (snd ps))
                             (img_paths g0))
           lbl d1 d2 idxs1 idxs2 ok num body tape g tape' Hbody); [|constructor|exact Hw].
  exact (reads_buckets _ _ _ _ _ _ _ _ _ _ E1 E2 H1 H2).
Qed.

(** X8.  The pairs of a dataset have the classes their group is named for:
    the two samples of every pair of G1 have the same class label and
    those of every pair of G3 different ones; when the two samplers count
    the same number of classes, the same holds across the domains for G2
    (same class) and G4 (different classes). *)
Theorem pairs_have_the_classes_of_their_group
    sp tp shot pair_factor adv sd td subset0 tape self tape' :
  init sp tp shot pair_factor adv sd td subset0 tape = Ok (self, tape') ->
  Forall (fun l : pair_label => fst (snd l) = snd (snd l)) (G1_labels self) /\
  Forall (fun l : pair_label => fst (snd l) <> snd (snd l)) (G3_labels self) /\
  (EvenSampler.num_classes (s_sampler self) = EvenSampler.num_classes (t_sampler self) ->
   Forall (fun l : pair_label => fst (snd l) = snd (snd l)) (G2_labels self) /\
   Forall (fun l : pair_label => fst (snd l) <> snd (snd l)) (G4_labels self)).
Proof.
  intros Hinit. apply init_drawn in Hinit as [Hruns H1 H2 H3 H4].
  destruct Hruns as (ss & ts & t0 & t1 & t2 & ss' & ts' & Hss & Hts & Hsit & Htit & Es & Et).
  destruct (iter_slots _ _ _ _ _ _ _ Hss Hsit) as [Hs _].
  destruct (iter_slots _ _ _ _ _ _ _ Hts Htit) as [Ht _].
  assert (Ens : EvenSampler.num_classes ss = EvenSampler.num_classes (s_sampler self)).
  { rewrite Es. pose proof Hsit as H. apply iter_Ok in H as (cs & _ & _ & ->). reflexivity. }
  assert (Ent : EvenSampler.num_classes ts = EvenSampler.num_classes (t_sampler self)).
  { rewrite Et. pose proof Htit as H. apply iter_Ok in H as (cs & _ & _ & ->). reflexivity. }
  rewrite Ens in Hs. rewrite Ent in Ht.
  set (nc := EvenSampler.num_classes (s_sampler self)) in *.
  split; [|split].
  - destruct H1 as (g & tp1 & tp1' & Hw & _ & ->).
    apply (while_reads_classes _ _ _ _ _ nc nc _ (fun a b => a = b) _ _ _ _ _
             (G1_reads _ _ _ _) Hs Hs) in Hw; [exact Hw|].
    intros k1 k2 (r1 & r2 & c & Hc & -> & ->). now rewrite !slot_of_class.
  - destruct H3 as (g & tp1 & tp1' & Hw & _ & ->).
    apply (while_reads_classes _ _ _ _ _ nc nc _ (fun a b => a <> b) _ _ _ _ _
             (G3_reads _ _ _ _) Hs Hs) in Hw; [exact Hw|].
    intros k1 k2 (r1 & r2 & c1 & c2 & Hc1 & Hc2 & Hne & -> & ->).
    now rewrite !slot_of_class.
  - intros Hnc. rewrite <- Hnc in Ht. split.
    + destruct H2 as (g & tp1 & tp1' & Hw & _ & ->).
      apply (while_reads_classes _ _ _ _ _ nc nc _ (fun a b => a = b) _ _ _ _ _
             (G2_reads _ _ _ _ _ _ _ _) Hs Ht) in Hw; [exact Hw|].
      intros k1 k2 (r1 & r2 & c & Hc & -> & ->). now rewrite !slot_of_class.
    + destruct H4 as (g & tp1 & tp1' & Hw & _ & ->).
      apply (while_reads_classes _ _ _ _ _ nc nc _ (fun a b => a <> b) _ _ _ _ _
             (G4_reads _ _ _ _ _ _ _ _ _) Hs Ht) in Hw; [exact Hw|].
      intros k1 k2 (r1 & r2 & c1 & c2 & Hc1 & Hc2 & Hne & -> & ->).
      fold nc. rewrite <- Hnc. fold nc. now rewrite !slot_of_class.
Qed.

Lemma pairs_have_the_classes_of_their_group_two_by_two :
  exists self tape',
    two_by_two_run 1 false = Ok (self, tape') /\
    G3_labels self = [(2, (1, 0)); (2, (0, 1))] /\
    EvenSampler.num_classes (s_sampler self) = EvenSampler.num_classes (t_sampler self) /\
    Forall (fun l : pair_label => fst (snd l) = snd (snd l)) (G1_labels self) /\
    Forall (fun l : pair_label => fst (snd l) <> snd (snd l)) (G3_labels self) /\
    (EvenSampler.num_classes (s_sampler self) = EvenSampler.num_classes (t_sampler self) ->
     Forall (fun l : pair_label => fst (snd l) = snd (snd l)) (G2_labels self) /\
     Forall (fun l : pair_label => fst (snd l) <> snd (snd l)) (G4_labels self)).
Proof.
  destruct (two_by_two_run 1 false) as [[self tape']|e|] eqn:Hrun;
    [|vm_compute in Hrun; discriminate..].
  exists self, tape'. split; [reflexivity|].
  pose proof (pairs_have_the_classes_of_their_group _ _ _ _ _ _ _ _ _ _ _ Hrun) as Hthm.
  vm_compute in Hrun. inversion Hrun; subst self.
  split; [reflexivity|]. split; [reflexivity|]. exact Hthm.
Defined.

(** X9.  The pairs of a dataset stay within their domains and within the
    shot: both images of a pair of G1 or G3 are source images, the first
    image of a pair of G2 or G4 is a source image, and the second one is a
    target image at one of the positions the target sampler kept when it
    cut its buckets to [shot]; no target image beyond the first [shot] of a
    class enters a pair. *)
Theorem pairs_stay_within_the_shot
    sp tp shot pair_factor adv sd td subset0 tape self tape' :
  init sp tp shot pair_factor adv sd td subset0 tape = Ok (self, tape') ->
  let source := source_dataset self in
  let target := target_dataset self in
  Forall (fun ps : paths => in_buckets source (-1) (fst ps) /\ in_buckets source (-1) (snd ps))
         (G1_img_paths self ++ G3_img_paths self) /\
  Forall (fun ps : paths => in_buckets source (-1) (fst ps) /\ in_buckets target shot (snd ps))
         (G2_img_paths self ++ G4_img_paths self).
Proof.
  intros Hinit source target. apply init_drawn in Hinit as [Hruns H1 H2 H3 H4].
  destruct Hruns as (ss & ts & t0 & t1 & t2 & ss' & ts' & Hss & Hts & Hsit & Htit & Es & Et).
  destruct (iter_slots _ _ _ _ _ _ _ Hss Hsit) as [_ Hs].
  destruct (iter_slots _ _ _ _ _ _ _ Hts Htit) as [_ Ht].
  split; apply Forall_app; split.
  - destruct H1 as (g & tp1 & tp1' & Hw & -> & _).
    exact (while_reads_buckets _ _ _ _ _ _ _ _ _ _ _ _ _ _ _
             (G1_reads _ _ _ _) Hss Hss Hs Hs Hw).
  - destruct H3 as (g & tp1 & tp1' & Hw & -> & _).
    exact (while_reads_buckets _ _ _ _ _ _ _ _ _ _ _ _ _ _ _
             (G3_reads _ _ _ _) Hss Hss Hs Hs Hw).
  - destruct H2 as (g & tp1 & tp1' & Hw & -> & _).
    exact (while_reads_buckets _ _ _ _ _ _ _ _ _ _ _ _ _ _ _
             (G2_reads _ _ _ _ _ _ _ _) Hss Hts Hs Ht Hw).
  - destruct H4 as (g & tp1 & tp1' & Hw & -> & _).
    exact (while_reads_buckets _ _ _ _ _ _ _ _ _ _ _ _ _ _ _
             (G4_reads _ _ _ _ _ _ _ _ _) Hss Hts Hs Ht Hw).
Qed.

Lemma pairs_stay_within_the_shot_two_by_two :
  exists self tape',
    two_by_two_run 1 false = Ok (self, tape') /\
    let source := source_dataset self in
    let target := target_dataset self in
    Forall (fun ps : paths => in_buckets source (-1) (fst ps) /\ in_buckets source (-1) (snd ps))
           (G1_img_paths self ++ G3_img_paths self) /\
    Forall (fun ps : paths => in_buckets source (-1) (fst ps) /\ in_buckets target 2 (snd ps))
           (G2_img_paths self ++ G4_img_paths self).
Proof.
  destruct (two_by_two_run 1 false) as [[self tape']|e|] eqn:Hrun;
    [|vm_compute in Hrun; discriminate..].
  exists self, tape'. split; [reflexivity|].
  exact (pairs_stay_within_the_shot _ _ _ _ _ _ _ _ _ _ _ Hrun).
Defined.

(** ** Errors of the construction *)

Lemma mapR_Raise_at {A B} (f : A -> result B) l1 x l2 e :
  (forall y, y ∈ l1 -> exists b, f y = Ok b) -> f x = Raise e ->
  mapR f (l1 ++ x :: l2) = Raise e.
Proof.
  intros H1 Hx. induction l1 as [|y l1 IH]; simpl.
  - now rewrite Hx.
  - destruct (H1 y) as [b Hb]; [left|]. rewrite Hb. simpl.
    rewrite IH; [reflexivity|]. intros z Hz. apply H1. now right.
Qed.

Lemma mapR_Ok_all {A B} (f : A -> result B) l :
  (forall y, y ∈ l -> exists b, f y = Ok b) -> exists ys, mapR f l = Ok ys.
Proof.
  induction l as [|y l IH]; intros H; simpl; [now exists []|].
  destruct (H y) as [b Hb]; [left|]. rewrite Hb. simpl.
  destruct IH as [ys Hys]; [intros z Hz; apply H; now right|].
  rewrite Hys. simpl. now eexists.
Qed.

Lemma index_lt {A} (l : list A) i : i < length l -> exists x, index l i = Ok x.
Proof.
  intros H. unfold index. destruct (lookup_lt_is_Some_2 l i H) as [x ->]. now exists x.
Qed.

Lemma index_ge {A} (l : list A) i : length l <= i -> index l i = Raise IndexError.
Proof. intros H. unfold index. now rewrite lookup_ge_None_2. Qed.

Lemma lens_length dataset shot es :
  EvenSampler.init dataset shot = Ok es ->
  length (EvenSampler.class_idx_lens es) = EvenSampler.num_classes es.
Proof.
  intros H. apply init_Ok in H as (lbls & _ & _ & _ & Hn & Hc & Hl & _).
  rewrite Hl, Hc, Hn. now rewrite !length_map, length_seq.
Qed.

Lemma possible_pairs_IndexError s t :
  length (EvenSampler.class_idx_lens s) = EvenSampler.num_classes s ->
  length (EvenSampler.class_idx_lens t) = EvenSampler.num_classes t ->
  EvenSampler.num_classes s < EvenSampler.num_classes t ->
  possible_pairs s t = Raise IndexError.
Proof.
  intros Hs Ht Hlt. unfold possible_pairs.
  destruct (mapR_Ok_all
              (fun i => n <- index (EvenSampler.class_idx_lens s) i ;; Ok (comb n 2))%res
              (seq 0 (EvenSampler.num_classes s))) as [g1 ->].
  { intros i Hi. apply elem_of_seq in Hi.
    destruct (index_lt (EvenSampler.class_idx_lens s) i) as [n ->]; [lia|].
    simpl. now eexists. }
  simpl.
  replace (EvenSampler.num_classes t)
    with (EvenSampler.num_classes s +
          S (EvenSampler.num_classes t - S (EvenSampler.num_classes s))) at 1 by lia.
  rewrite seq_app. simpl seq.
  rewrite (mapR_Raise_at _ _ _ _ IndexError); [reflexivity| |].
  - intros i Hi. apply elem_of_seq in Hi.
    destruct (index_lt (EvenSampler.class_idx_lens s) i) as [a ->]; [lia|].
    destruct (index_lt (EvenSampler.class_idx_lens t) i) as [b ->]; [lia|].
    simpl. now eexists.
  - rewrite index_ge; [reflexivity|lia].
Qed.

Lemma possible_pairs_succeeds s t :
  length (EvenSampler.class_idx_lens s) = EvenSampler.num_classes s ->
  length (EvenSampler.class_idx_lens t) = EvenSampler.num_classes t ->
  EvenSampler.num_classes t <= EvenSampler.num_classes s ->
  exists p, possible_pairs s t = Ok p.
Proof.
  intros Hs Ht Hle. unfold possible_pairs.
  destruct (mapR_Ok_all
              (fun i => n <- index (EvenSampler.class_idx_lens s) i ;; Ok (comb n 2))%res
              (seq 0 (EvenSampler.num_classes s))) as [g1 ->].
  { intros i Hi. apply elem_of_seq in Hi.
    destruct (index_lt (EvenSampler.class_idx_lens s) i) as [n ->]; [lia|].
    simpl. now eexists. }
  simpl.
  destruct (mapR_Ok_all
              (fun i => a <- index (EvenSampler.class_idx_lens s) i ;;
                        b <- index (EvenSampler.class_idx_lens t) i ;; Ok (a * b))%res
              (seq 0 (EvenSampler.num_classes t))) as [g2 ->].
  { intros i Hi. apply elem_of_seq in Hi.
    destruct (index_lt (EvenSampler.class_idx_lens s) i) as [a ->]; [lia|].
    destruct (index_lt (EvenSampler.class_idx_lens t) i) as [b ->]; [lia|].
    simpl. now eexists. }
  simpl.
  destruct (mapR_Ok_all
              (fun i =>
                 row <- mapR (fun j => a <- index (EvenSampler.class_idx_lens s) j ;;
                                       b <- index (EvenSampler.class_idx_lens t) i ;;
                                       Ok (a * b))
                             (filter (fun j => i <> j)
                                     (seq 0 (EvenSampler.num_classes s))) ;;
                 Ok (sum_list row))%res
              (seq 0 (EvenSampler.num_classes t))) as [g4 ->].
  { intros i Hi. apply elem_of_seq in Hi.
    destruct (mapR_Ok_all
                (fun j => a <- index (EvenSampler.class_idx_lens s) j ;;
                          b <- index (EvenSampler.class_idx_lens t) i ;; Ok (a * b))%res
                (filter (fun j => i <> j) (seq 0 (EvenSampler.num_classes s))))
      as [row ->].
    - intros j Hj. apply list_elem_of_filter in Hj as [_ Hj]. apply elem_of_seq in Hj.
      destruct (index_lt (EvenSampler.class_idx_lens s) j) as [a ->]; [lia|].
      destruct (index_lt (EvenSampler.class_idx_lens t) i) as [b ->]; [lia|].
      simpl. now eexists.
    - simpl. now eexists. }
  simpl. now eexists.
Qed.

Lemma init_given sp tp shot pair_factor adv sd td subset0 tape :
  init sp tp shot pair_factor adv (Some sd) (Some td) subset0 tape =
  construct shot pair_factor adv subset0 sd td tape.
Proof. reflexivity. Qed.

Lemma construct_possible shot pair_factor adv subset0 sd td ss ts tape :
  EvenSampler.init sd (-1) = Ok ss -> EvenSampler.init td shot = Ok ts ->
  construct shot pair_factor adv subset0 sd td tape =
  match possible_pairs ss ts with
  | Ok p =>
      if (pair_factor =? 0)%Z then Raise ZeroDivisionError
      else construct shot pair_factor adv subset0 sd td tape
  | Raise e => Raise e
  | NoDraw => NoDraw
  end.
Proof.
  intros Hs Ht. unfold construct at 1 2, bind, lift. rewrite Hs, Ht.
  destruct (possible_pairs ss ts) as [[[[G1 G2] G3] G4]|e|]; try reflexivity.
  destruct (pair_factor =? 0)%Z; reflexivity.
Qed.

(** X10.  A target with more classes than the source cannot be paired:
    when the target sampler counts more classes than the source sampler,
    the construction ends with an [IndexError] before any random draw,
    whatever the pair factor; with at most as many classes the four counts
    of possible pairs are computed. *)
Theorem more_target_classes_raise sp tp shot pair_factor adv subset0 sd td ss ts :
  EvenSampler.init sd (-1) = Ok ss -> EvenSampler.init td shot = Ok ts ->
  (EvenSampler.num_classes ss < EvenSampler.num_classes ts ->
   forall tape,
     init sp tp shot pair_factor adv (Some sd) (Some td) subset0 tape = Raise IndexError) /\
  (EvenSampler.num_classes ts <= EvenSampler.num_classes ss ->
   exists p, possible_pairs ss ts = Ok p).
Proof.
  intros Hs Ht. pose proof (lens_length _ _ _ Hs) as Ls.
  pose proof (lens_length _ _ _ Ht) as Lt. split.
  - intros Hlt tape. rewrite init_given, (construct_possible _ _ _ _ _ _ _ _ _ Hs Ht).
    now rewrite possible_pairs_IndexError.
  - now apply possible_pairs_succeeds.
Qed.

Lemma more_target_classes_raise_one_class :
  init None None 2 1 false
       (Some (ClassificationDataset.init (one_class "s") None))
       (Some (ClassificationDataset.init cat_dog None)) None [] = Raise IndexError /\
  exists ss ts p,
    EvenSampler.init (ClassificationDataset.init cat_dog None) (-1) = Ok ss /\
    EvenSampler.init (ClassificationDataset.init (one_class "t") None) 2 = Ok ts /\
    possible_pairs ss ts = Ok p.
Proof.
  split.
  - destruct (EvenSampler.init (ClassificationDataset.init (one_class "s") None) (-1))
      as [ss|e|] eqn:Hs; [|vm_compute in Hs; discriminate..].
    destruct (EvenSampler.init (ClassificationDataset.init cat_dog None) 2)
      as [ts|e|] eqn:Ht; [|vm_compute in Ht; discriminate..].
    apply (proj1 (more_target_classes_raise None None 2 1 false None _ _ ss ts Hs Ht)).
    vm_compute in Hs, Ht. inversion Hs. inversion Ht. simpl. lia.
  - destruct (EvenSampler.init (ClassificationDataset.init cat_dog None) (-1))
      as [ss|e|] eqn:Hs; [|vm_compute in Hs; discriminate..].
    destruct (EvenSampler.init (ClassificationDataset.init (one_class "t") None) 2)
      as [ts|e|] eqn:Ht; [|vm_compute in Ht; discriminate..].
    destruct (proj2 (more_target_classes_raise None None 2 1 false None _ _ ss ts Hs Ht))
      as [p Hp].
    + vm_compute in Hs, Ht. inversion Hs. inversion Ht. simpl. lia.
    + now exists ss, ts, p.
Defined.

(** X11.  A pair factor of zero is a division by zero: with samplers that
    can be built and a target of at most as many classes as the source,
    the construction ends with a [ZeroDivisionError], on every tape and
    before any random draw. *)
Theorem zero_pair_factor_raises sp tp shot adv subset0 sd td ss ts tape :
  EvenSampler.init sd (-1) = Ok ss -> EvenSampler.init td shot = Ok ts ->
  EvenSampler.num_classes ts <= EvenSampler.num_classes ss ->
  init sp tp shot 0 adv (Some sd) (Some td) subset0 tape = Raise ZeroDivisionError.
Proof.
  intros Hs Ht Hle.
  rewrite init_given, (construct_possible _ _ _ _ _ _ _ _ _ Hs Ht).
  destruct (possible_pairs_succeeds ss ts) as [p ->];
    eauto using lens_length.
Qed.

Lemma zero_pair_factor_raises_cat_dog :
  init None None 2 0 false
       (Some (ClassificationDataset.init cat_dog None))
       (Some (ClassificationDataset.init cat_dog_target None)) None two_by_two_tape
  = Raise ZeroDivisionError.
Proof.
  destruct (EvenSampler.init (ClassificationDataset.init cat_dog None) (-1))
    as [ss|e|] eqn:Hs; [|vm_compute in Hs; discriminate..].
  destruct (EvenSampler.init (ClassificationDataset.init cat_dog_target None) 2)
    as [ts|e|] eqn:Ht; [|vm_compute in Ht; discriminate..].
  apply (zero_pair_factor_raises None None 2 false None _ _ ss ts _ Hs Ht).
  vm_compute in Hs, Ht. inversion Hs. inversion Ht. simpl. lia.
Defined.

(** ** The splits of the entry points *)

Lemma randperm_Ok n tape p tape' :
  randperm n tape = Ok (p, tape') -> p ≡ₚ seq 0 n.
Proof.
  unfold randperm. destruct tape as [|[q| |] tape]; try discriminate.
  destruct (bool_decide (q ≡ₚ seq 0 n)) eqn:Hq; [|discriminate].
  intros H. inversion H; subst. now apply bool_decide_eq_true in Hq.
Qed.

Lemma init_fields img_dir_path subset :
  ClassificationDataset.imgs (ClassificationDataset.init img_dir_path subset) =
    ClassificationDataset.imgs (ClassificationDataset.init img_dir_path None) /\
  ClassificationDataset.labels (ClassificationDataset.init img_dir_path subset) =
    ClassificationDataset.labels (ClassificationDataset.init img_dir_path None) /\
  ClassificationDataset.subset (ClassificationDataset.init img_dir_path subset) =
    match subset with
    | None => seq 0 (length (ClassificationDataset.imgs
                               (ClassificationDataset.init img_dir_path None)))
    | Some s => s
    end.
Proof.
  unfold ClassificationDataset.init.
  destruct (ClassificationDataset.scan _ _ _) as [imgs labels]. now destruct subset.
Qed.

Lemma len_init_None img_dir_path :
  ClassificationDataset.len (ClassificationDataset.init img_dir_path None) =
  length (ClassificationDataset.imgs (ClassificationDataset.init img_dir_path None)).
Proof.
  unfold ClassificationDataset.len.
  destruct (init_fields img_dir_path None) as (_ & _ & ->). apply length_seq.
Qed.

(** What the first pass over a fresh sampler emits: positions of the
    buckets, none twice, all of them positions of the subset. *)
Lemma first_pass d shot es0 tape out es' tape' :
  EvenSampler.init d shot = Ok es0 ->
  EvenSampler.iter es0 tape = Ok (out, es', tape') ->
  NoDup out /\
  (forall x, x ∈ out ->
     (exists c b, EvenSampler.class_idxs es0 !! c = Some b /\ x ∈ b) /\
     x < length (ClassificationDataset.subset d)) /\
  EvenSampler.num_classes es' = EvenSampler.num_classes es0 /\
  EvenSampler.remain_class_idxs es' = EvenSampler.remain_class_idxs es0.
Proof.
  intros Hinit Hit. pose proof (init_balanced _ _ _ Hinit) as Hbal.
  split; [|split].
  - apply (iter_NoDup _ _ _ _ _ Hbal Hit).
    apply (iterated_distinct d shot es0); [exact Hinit|].
    eapply iterated_iter; [apply iterated_init|exact Hit].
  - intros x Hx. apply list_elem_of_lookup in Hx as [p Hp].
    destruct (iter_slots _ _ _ _ _ _ _ Hinit Hit) as [_ Hb].
    destruct (Hb _ _ Hp) as (c & b & Hc & Hxb). split; [eauto|].
    destruct (bal_bucket _ Hbal _ _ Hc) as [_ Hl]. apply Hl in Hxb.
    apply lookup_lt_Some in Hxb.
    apply init_Ok in Hinit as (lbls & Hm & <- & _).
    apply mapR_Ok_length in Hm. lia.
  - apply iter_Ok in Hit as (cs & _ & _ & ->). split; reflexivity.
Qed.

Lemma elem_of_concat {A} (x : A) (ls : list (list A)) :
  x ∈ concat ls <-> exists l, x ∈ l /\ l ∈ ls.
Proof.
  induction ls as [|l ls IH]; simpl.
  - split; [intros H; now apply elem_of_nil in H|].
    intros (l & _ & H). now apply elem_of_nil in H.
  - rewrite elem_of_app, IH. split.
    + intros [H|(l' & H & Hl')]; [exists l; split; [exact H|left]|].
      exists l'. split; [exact H|now right].
    + intros (l' & H & Hl'). apply elem_of_cons in Hl' as [->|Hl']; [now left|].
      right. now exists l'.
Qed.

(** A position the cut to [shot] left out of its bucket is in no bucket. *)
Lemma remainders_apart d shot es x :
  EvenSampler.init d shot = Ok es ->
  x ∈ concat (EvenSampler.remain_class_idxs es) ->
  (forall c b, EvenSampler.class_idxs es !! c = Some b -> x ∉ b) /\
  x < length (ClassificationDataset.subset d).
Proof.
  intros Hinit Hx. unfold EvenSampler.init in Hinit.
  apply rbind_Ok in Hinit as (lbls & Hl & H).
  apply rbind_Ok in H as (mx & Hmx & H). apply rbind_Ok in H as (mn & Hmn & H).
  inversion H; subst es; clear H. simpl in *.
  destruct (shot =? -1)%Z eqn:Hs; [now apply elem_of_nil in Hx|].
  apply elem_of_concat in Hx as (r & Hxr & Hr).
  apply list_elem_of_fmap in Hr as (c' & -> & Hc').
  assert (Hc'x : lbls !! x = Some c').
  { pose proof (slices_join shot (nonzero_eq c' lbls 0)) as Hj.
    assert (Hin : x ∈ nonzero_eq c' lbls 0)
      by (rewrite <- Hj; apply elem_of_app; now right).
    apply nonzero_eq_elem in Hin as [_ Hin]. now rewrite Nat.sub_0_r in Hin. }
  split.
  - intros c b Hb Hxb.
    rewrite list_lookup_fmap in Hb.
    destruct (seq 0 (length (remove_dups lbls)) !! c) as [c0|] eqn:Hc0; [|discriminate].
    apply lookup_seq in Hc0 as [-> _]. simpl in Hb. inversion Hb; subst b; clear Hb.
    assert (Hcx : lbls !! x = Some c).
    { apply slice_to_subseteq in Hxb.
      apply nonzero_eq_elem in Hxb as [_ Hin]. now rewrite Nat.sub_0_r in Hin. }
    assert (c = c') by congruence. subst c'.
    pose proof (NoDup_nonzero_eq c lbls 0) as Hnd.
    rewrite <- (slices_join shot) in Hnd.
    apply NoDup_app in Hnd as (_ & Hdis & _). exact (Hdis _ Hxb Hxr).
  - apply lookup_lt_Some in Hc'x. apply mapR_Ok_length in Hl. lia.
Qed.

Lemma init_of_given shot pair_factor adv sd td subset0 tape self tape' :
  init None None shot pair_factor adv (Some sd) (Some td) subset0 tape = Ok (self, tape') ->
  source_dataset self = sd /\ target_dataset self = td.
Proof.
  intros H. rewrite init_given in H. apply construct_Ok in H.
  split; [apply (c_source _ _ _ _ _ _ _ H)|apply (c_target _ _ _ _ _ _ _ H)].
Qed.

(** X12.  On its unconstrained branch [pairs_get_datasets] holds the
    validation samples out of the training samples.  The source images are
    split by one random permutation: a third of them (rounded down) is the
    subset of the validation source, the rest the subset of the training
    source.  The target subsets are the two sides of one cut of the
    sequence the sampler emitted: they share no image, and every index is
    one of an image of the target directory. *)
Theorem validation_is_held_out data conf pair_factor tape train val tape' :
  constrained_validation conf = false ->
  pairs_get_datasets data conf pair_factor tape = Ok ((train, val), tape') ->
  let s_train := ClassificationDataset.subset (source_dataset train) in
  let s_val := ClassificationDataset.subset (source_dataset val) in
  let t_train := ClassificationDataset.subset (target_dataset train) in
  let t_val := ClassificationDataset.subset (target_dataset val) in
  let n := length (ClassificationDataset.imgs (ClassificationDataset.init (fst data) None)) in
  let m := length (ClassificationDataset.imgs (ClassificationDataset.init (snd data) None)) in
  source_dataset train = ClassificationDataset.init (fst data) (Some s_train) /\
  source_dataset val = ClassificationDataset.init (fst data) (Some s_val) /\
  target_dataset train = ClassificationDataset.init (snd data) (Some t_train) /\
  target_dataset val = ClassificationDataset.init (snd data) (Some t_val) /\
  s_val ++ s_train ≡ₚ seq 0 n /\
  length s_val = n / 3 /\
  NoDup (t_val ++ t_train) /\
  (forall x, x ∈ t_val ++ t_train -> x < m).
Proof.
  intros Hc H. destruct data as [sdir tdir]. unfold pairs_get_datasets in H.
  apply bind_Ok in H as (d0 & t0 & _ & H). rewrite Hc in H.
  apply bind_Ok in H as (u & t1 & _ & H).
  apply bind_Ok in H as (indices & t2 & Hperm & H).
  apply bind_Ok in H as (sampler & t3 & Hsam & H). apply lift_Ok in Hsam as [Hsam ->].
  apply bind_Ok in H as ([idxs sampler'] & t4 & Hit & H).
  apply bind_Ok in H as (lbls & t5 & _ & H).
  apply bind_Ok in H as (tr & t6 & Htr & H).
  apply bind_Ok in H as (va & t7 & Hva & H).
  apply ret_Ok in H as [H _]. inversion H; subst tr va; clear H.
  apply init_of_given in Htr as [Hst Htt]. apply init_of_given in Hva as [Hsv Htv].
  apply randperm_Ok in Hperm. rewrite len_init_None in Hperm.
  destruct (first_pass _ _ _ _ _ _ _ Hsam Hit) as (Hnd & Hin & _ & _).
  simpl fst. simpl snd. rewrite Hst, Htt, Hsv, Htv. cbv zeta.
  destruct (init_fields sdir (Some (drop (ClassificationDataset.len
              (ClassificationDataset.init sdir None) / 3) indices))) as (_ & _ & ->).
  destruct (init_fields sdir (Some (take (ClassificationDataset.len
              (ClassificationDataset.init sdir None) / 3) indices))) as (_ & _ & ->).
  match goal with
  | |- context [ClassificationDataset.init tdir (Some (slice_from ?c idxs))] =>
      destruct (init_fields tdir (Some (slice_from c idxs))) as (_ & _ & ->);
      destruct (init_fields tdir (Some (slice_to c idxs))) as (_ & _ & ->);
      rewrite (slices_join c idxs)
  end.
  rewrite take_drop, len_init_None.
  repeat (split; [reflexivity|]).
  split; [exact Hperm|]. split.
  - rewrite length_take. apply Permutation_length in Hperm.
    rewrite length_seq in Hperm. rewrite Hperm.
    pose proof (Nat.Div0.div_le_upper_bound
                  (length (ClassificationDataset.imgs (ClassificationDataset.init sdir None)))
                  3 (length (ClassificationDataset.imgs (ClassificationDataset.init sdir None)))).
    lia.
  - split; [exact Hnd|]. intros x Hx. destruct (Hin x Hx) as [_ Hlt].
    destruct (init_fields tdir None) as (_ & _ & Hs). rewrite Hs, length_seq in Hlt.
    exact Hlt.
Qed.

Lemma validation_is_held_out_k3 :
  exists train val tape',
    pairs_get_datasets (cat_dog, cat_dog_target) k3_conf 1 k3_tape
      = Ok ((train, val), tape') /\
    ClassificationDataset.subset (source_dataset val) = [0; 3] /\
    ClassificationDataset.subset (source_dataset train) = [1; 2; 4; 5] /\
    ClassificationDataset.subset (target_dataset val) = [0; 3] /\
    ClassificationDataset.subset (target_dataset train) = [1; 4; 2; 5] /\
    ClassificationDataset.subset (source_dataset val) ++
      ClassificationDataset.subset (source_dataset train) ≡ₚ seq 0 6 /\
    NoDup (ClassificationDataset.subset (target_dataset val) ++
           ClassificationDataset.subset (target_dataset train)).
Proof.
  destruct (pairs_get_datasets (cat_dog, cat_dog_target) k3_conf 1 k3_tape)
    as [[[train val] tape']|e|] eqn:Hrun; [|vm_compute in Hrun; discriminate..].
  exists train, val, tape'. split; [reflexivity|].
  destruct (validation_is_held_out (cat_dog, cat_dog_target) k3_conf 1 k3_tape
              train val tape' eq_refl Hrun)
    as (_ & _ & _ & _ & Hperm & _ & Hnd & _).
  vm_compute in Hrun. inversion Hrun; subst train val.
  repeat (split; [reflexivity|]). split; [exact Hperm|exact Hnd].
Defined.

Lemma slice_from_subseteq {A} start (l : list A) : slice_from start l ⊆ l.
Proof.
  intros x Hx. rewrite <- (slices_join start l). apply elem_of_app. now right.
Qed.

(** X13.  On its unconstrained branch [pairs_get_datasets_c] validates on
    target images the training never sees: the validation set is a
    [ClassificationDataset] over the images the sampler of the target left
    out when it cut its buckets to [k], and none of them is among the
    target images of the training pairs. *)
Theorem adversarial_validation_is_unseen data conf pair_factor tape train v tape' :
  constrained_validation conf = false ->
  pairs_get_datasets_c data conf pair_factor tape = Ok ((train, v), tape') ->
  exists val es,
    v = inr val /\
    EvenSampler.init (ClassificationDataset.init (snd data) None) (k conf) = Ok es /\
    val = ClassificationDataset.init (snd data)
            (Some (concat (EvenSampler.remain_class_idxs es))) /\
    target_dataset train =
      ClassificationDataset.init (snd data)
        (Some (ClassificationDataset.subset (target_dataset train))) /\
    forall x, x ∈ ClassificationDataset.subset val ->
      x < length (ClassificationDataset.imgs val) /\
      x ∉ ClassificationDataset.subset (target_dataset train).
Proof.
  intros Hc H. destruct data as [sdir tdir]. unfold pairs_get_datasets_c in H.
  apply bind_Ok in H as (d0 & t0 & _ & H). rewrite Hc in H.
  apply bind_Ok in H as (u & t1 & _ & H).
  apply bind_Ok in H as (indices & t2 & _ & H).
  apply bind_Ok in H as (sampler & t3 & Hsam & H). apply lift_Ok in Hsam as [Hsam ->].
  apply bind_Ok in H as ([idxs sampler'] & t4 & Hit & H).
  apply bind_Ok in H as (lbls & t5 & _ & H).
  apply bind_Ok in H as (tr & t6 & Htr & H).
  apply ret_Ok in H as [H _]. inversion H; subst tr v; clear H.
  apply init_of_given in Htr as [_ Htt].
  destruct (first_pass _ _ _ _ _ _ _ Hsam Hit) as (_ & Hin & _ & Hrem).
  simpl snd. rewrite Htt, Hrem.
  exists (ClassificationDataset.init tdir
            (Some (concat (EvenSampler.remain_class_idxs sampler)))), sampler.
  split; [reflexivity|]. split; [exact Hsam|]. split; [reflexivity|].
  match goal with
  | |- context [ClassificationDataset.init tdir (Some (slice_from ?c idxs))] =>
      destruct (init_fields tdir (Some (slice_from c idxs))) as (_ & _ & ->)
  end.
  split; [reflexivity|].
  destruct (init_fields tdir (Some (concat (EvenSampler.remain_class_idxs sampler))))
    as (-> & _ & ->).
  intros x Hx. destruct (remainders_apart _ _ _ _ Hsam Hx) as [Hout Hlt]. split.
  - destruct (init_fields tdir None) as (_ & _ & Hs). now rewrite Hs, length_seq in Hlt.
  - intros Hxt. apply slice_from_subseteq in Hxt.
    destruct (Hin x Hxt) as [(c & b & Hb & Hxb) _]. exact (Hout c b Hb Hxb).
Qed.

Lemma adversarial_validation_is_unseen_k3 :
  exists train val tape',
    pairs_get_datasets_c (cat_dog, cat_dog_more) k3_conf 1 k3_tape
      = Ok ((train, inr val), tape') /\
    ClassificationDataset.subset val = [3; 7] /\
    ClassificationDataset.subset (target_dataset train) = [1; 5; 2; 6] /\
    forall x, x ∈ ClassificationDataset.subset val ->
      x < length (ClassificationDataset.imgs val) /\
      x ∉ ClassificationDataset.subset (target_dataset train).
Proof.
  destruct (pairs_get_datasets_c (cat_dog, cat_dog_more) k3_conf 1 k3_tape)
    as [[[train v] tape']|e|] eqn:Hrun; [|vm_compute in Hrun; discriminate..].
  destruct (adversarial_validation_is_unseen (cat_dog, cat_dog_more) k3_conf 1 k3_tape
              train v tape' eq_refl Hrun) as (val & es & -> & _ & _ & _ & Hout).
  exists train, val, tape'. split; [reflexivity|].
  vm_compute in Hrun. inversion Hrun; subst train val.
  split; [reflexivity|]. split; [reflexivity|]. exact Hout.
Defined.

Lemma possible_pairs_of_init shot pair_factor adv subset0 sd td self ss ts :
  constructed shot pair_factor adv subset0 sd td self ->
  EvenSampler.init sd (-1) = Ok ss -> EvenSampler.init td shot = Ok ts ->
  possible_pairs (s_sampler self) (t_sampler self) = possible_pairs ss ts.
Proof.
  intros C Hs Ht.
  destruct (c_s_sampler _ _ _ _ _ _ _ C) as (es & Hes & His).
  destruct (c_t_sampler _ _ _ _ _ _ _ C) as (et & Het & Hit).
  rewrite Hs in Hes. inversion Hes; subst es. rewrite Ht in Het. inversion Het; subst et.
  destruct (iterated_balanced _ _ (init_balanced _ _ _ Hs) His) as (_ & Hl & Hn & _ & Hc).
  destruct (iterated_balanced _ _ (init_balanced _ _ _ Ht) Hit) as (_ & _ & Hn' & _ & Hc').
  now apply possible_pairs_lens.
Qed.

Lemma min_pairs_determined shot pair_factor adv adv' s0 s0' sd td self self' :
  constructed shot pair_factor adv s0 sd td self ->
  constructed shot pair_factor adv' s0' sd td self' ->
  min_pairs self = min_pairs self'.
Proof.
  intros C C'.
  destruct (c_s_sampler _ _ _ _ _ _ _ C) as (ss & Hs & _).
  destruct (c_t_sampler _ _ _ _ _ _ _ C) as (ts & Ht & _).
  destruct (c_possible _ _ _ _ _ _ _ C) as (G1 & G2 & G3 & G4 & Hp & -> & _).
  destruct (c_possible _ _ _ _ _ _ _ C') as (G1' & G2' & G3' & G4' & Hp' & -> & _).
  rewrite (possible_pairs_of_init _ _ _ _ _ _ _ _ _ C Hs Ht) in Hp.
  rewrite (possible_pairs_of_init _ _ _ _ _ _ _ _ _ C' Hs Ht) in Hp'.
  rewrite Hp in Hp'. now inversion Hp'.
Qed.

(** The three constructions of a constrained branch: one dataset to take
    the length from, then the two datasets on the two sides of a random
    permutation of its positions. *)
Lemma constrained_split sp tp shot pair_factor adv val_size
    d0 t0 t1 indices t2 train t3 val t4 :
  init sp tp shot pair_factor adv None None None t0 = Ok (d0, t1) ->
  randperm (len d0) t1 = Ok (indices, t2) ->
  init sp tp shot pair_factor adv None None (Some (drop val_size indices)) t2
    = Ok (train, t3) ->
  init sp tp shot pair_factor adv None None (Some (take val_size indices)) t3
    = Ok (val, t4) ->
  let n := Z.to_nat ((if adv then 2 else 4) * min_pairs train) in
  min_pairs val = min_pairs train /\
  subset val ++ subset train ≡ₚ seq 0 n /\
  len val = Nat.min val_size n /\
  len train + len val = n.
Proof.
  intros H0 Hperm Htr Hva n.
  apply init_constructed in H0 as (ds & Hds & C0).
  apply init_constructed in Htr as (ds1 & Hds1 & C1).
  apply init_constructed in Hva as (ds2 & Hds2 & C2).
  rewrite Hds in Hds1, Hds2. inversion Hds1; subst ds1. inversion Hds2; subst ds2.
  pose proof (min_pairs_determined _ _ _ _ _ _ _ _ _ _ C0 C1) as E01.
  pose proof (min_pairs_determined _ _ _ _ _ _ _ _ _ _ C2 C1) as E21.
  apply randperm_Ok in Hperm. unfold len in Hperm.
  rewrite (c_subset _ _ _ _ _ _ _ C0), E01 in Hperm.
  assert (Hn : indices ≡ₚ seq 0 n).
  { rewrite Hperm. unfold n. destruct adv; rewrite length_seq; reflexivity. }
  pose proof (Permutation_length Hn) as Hlen. rewrite length_seq in Hlen.
  unfold len. rewrite (c_subset _ _ _ _ _ _ _ C1), (c_subset _ _ _ _ _ _ _ C2).
  rewrite take_drop, length_take, length_drop.
  split; [exact E21|]. split; [exact Hn|]. split; lia.
Qed.

(** X14.  On its constrained branch [pairs_get_datasets] splits positions,
    not samples: the training and the validation dataset are two
    constructions over the same directories with the same number of pairs
    per group, and their subsets are the two sides of one permutation of
    the [4 * min_pairs] positions, [validation_split] of them (at most all)
    on the validation side. *)
Theorem constrained_split_partitions data conf pair_factor tape train val tape' :
  constrained_validation conf = true ->
  pairs_get_datasets data conf pair_factor tape = Ok ((train, val), tape') ->
  let n := Z.to_nat (4 * min_pairs train) in
  min_pairs val = min_pairs train /\
  subset val ++ subset train ≡ₚ seq 0 n /\
  len val = Nat.min (validation_split conf n) n /\
  len train + len val = n.
Proof.
  intros Hc H. destruct data as [sdir tdir]. unfold pairs_get_datasets in H.
  apply bind_Ok in H as (d0 & t0 & H0 & H). rewrite Hc in H.
  apply bind_Ok in H as (indices & t2 & Hperm & H).
  apply bind_Ok in H as (tr & t3 & Htr & H).
  apply bind_Ok in H as (va & t4 & Hva & H).
  apply ret_Ok in H as [H _]. inversion H; subst tr va; clear H.
  pose proof (constrained_split _ _ _ _ _ _ _ _ _ _ _ _ _ _ _ H0 Hperm Htr Hva) as S.
  cbv zeta in S. intros n.
  assert (Hlen : len d0 = n).
  { apply init_constructed in H0 as (ds & Hds & C0).
    apply init_constructed in Htr as (ds1 & Hds1 & C1).
    rewrite Hds in Hds1. inversion Hds1; subst ds1.
    unfold len. rewrite (c_subset _ _ _ _ _ _ _ C0), length_seq.
    now rewrite (min_pairs_determined _ _ _ _ _ _ _ _ _ _ C0 C1). }
  rewrite Hlen in S. exact S.
Qed.

Lemma constrained_split_partitions_two_by_two :
  exists train val tape',
    pairs_get_datasets (two_by_two "s", two_by_two "t") quarter_conf 1 quarter_tape
      = Ok ((train, val), tape') /\
    subset val = [7; 0] /\ subset train = [6; 1; 5; 2; 4; 3] /\
    let n := Z.to_nat (4 * min_pairs train) in
    min_pairs val = min_pairs train /\
    subset val ++ subset train ≡ₚ seq 0 n /\
    len val = Nat.min (validation_split quarter_conf n) n /\
    len train + len val = n.
Proof.
  destruct (pairs_get_datasets (two_by_two "s", two_by_two "t") quarter_conf 1 quarter_tape)
    as [[[train val] tape']|e|] eqn:Hrun; [|vm_compute in Hrun; discriminate..].
  exists train, val, tape'. split; [reflexivity|].
  pose proof (constrained_split_partitions (two_by_two "s", two_by_two "t") quarter_conf 1
                quarter_tape train val tape' eq_refl Hrun) as Hthm.
  vm_compute in Hrun. inversion Hrun; subst train val.
  split; [reflexivity|]. split; [reflexivity|]. exact Hthm.
Defined.

(** X15.  The constrained branch of [pairs_get_datasets_c] returns two
    pair datasets of the adversarial stage: the validation set is a
    [DomainAdaptationPairDataset] as well, with the same number of pairs
    per group as the training set, and the two subsets are the two sides
    of one permutation of the [2 * min_pairs] positions. *)
Theorem adversarial_constrained_split data conf pair_factor tape train v tape' :
  constrained_validation conf = true ->
  pairs_get_datasets_c data conf pair_factor tape = Ok ((train, v), tape') ->
  exists val,
    v = inl val /\
    adv_stage train = true /\ adv_stage val = true /\
    let n := Z.to_nat (2 * min_pairs train) in
    min_pairs val = min_pairs train /\
    subset val ++ subset train ≡ₚ seq 0 n /\
    len val = Nat.min (validation_split conf n) n /\
    len train + len val = n.
Proof.
  intros Hc H. destruct data as [sdir tdir]. unfold pairs_get_datasets_c in H.
  apply bind_Ok in H as (d0 & t0 & H0 & H). rewrite Hc in H.
  apply bind_Ok in H as (indices & t2 & Hperm & H).
  apply bind_Ok in H as (tr & t3 & Htr & H).
  apply bind_Ok in H as (va & t4 & Hva & H).
  apply ret_Ok in H as [H _]. inversion H; subst tr v; clear H.
  exists va. split; [reflexivity|].
  pose proof (constrained_split _ _ _ _ _ _ _ _ _ _ _ _ _ _ _ H0 Hperm Htr Hva) as S.
  cbv zeta in S.
  apply init_constructed in H0 as (ds & Hds & C0).
  apply init_constructed in Htr as (ds1 & Hds1 & C1).
  apply init_constructed in Hva as (ds2 & Hds2 & C2).
  rewrite Hds in Hds1. inversion Hds1; subst ds1.
  split; [apply (c_adv _ _ _ _ _ _ _ C1)|]. split; [apply (c_adv _ _ _ _ _ _ _ C2)|].
  intros n.
  assert (Hlen : len d0 = n).
  { unfold len. rewrite (c_subset _ _ _ _ _ _ _ C0), length_seq.
    now rewrite (min_pairs_determined _ _ _ _ _ _ _ _ _ _ C0 C1). }
  rewrite Hlen in S. exact S.
Qed.

Lemma adversarial_constrained_split_two_by_two :
  exists train val tape',
    pairs_get_datasets_c (two_by_two "s", two_by_two "t") quarter_conf 1
      (two_by_two_tape ++ [Randperm [3; 0; 2; 1]] ++ two_by_two_tape ++ two_by_two_tape)
      = Ok ((train, inl val), tape') /\
    subset val = [3] /\ subset train = [0; 2; 1] /\
    min_pairs val = min_pairs train /\
    len train + len val = Z.to_nat (2 * min_pairs train).
Proof.
  destruct (pairs_get_datasets_c (two_by_two "s", two_by_two "t") quarter_conf 1
              (two_by_two_tape ++ [Randperm [3; 0; 2; 1]] ++
               two_by_two_tape ++ two_by_two_tape))
    as [[[train v] tape']|e|] eqn:Hrun; [|vm_compute in Hrun; discriminate..].
  destruct (adversarial_constrained_split (two_by_two "s", two_by_two "t") quarter_conf 1
              _ train v tape' eq_refl Hrun) as (val & -> & _ & _ & Hthm).
  exists train, val, tape'. split; [reflexivity|].
  destruct Hthm as (Hm & _ & _ & Hl).
  vm_compute in Hrun. inversion Hrun; subst train val.
  split; [reflexivity|]. split; [reflexivity|]. split; [exact Hm|exact Hl].
Defined.

(** ** Items of a scanned directory *)




(** ** office5_get_datasets and asl_get_datasets *)





(** ** PassDataset *)




(** ** Pairs that are drawn and never served *)

(** X19.  With a pair factor [f >= 1] every group holds [f * min_pairs]
    pairs, and [__getitem__] only ever serves the first [min_pairs] of
    them: whatever the position asked for, a sample that is served sits at
    a place below [min_pairs] of its group, with the label stored at the
    same place.  With [f >= 2] the other pairs of a group are drawn and
    never reached. *)
Theorem only_the_first_pairs_are_served
    sp tp shot pair_factor adv sd td subset0 tape self tape' :
  init sp tp shot pair_factor adv sd td subset0 tape = Ok (self, tape') ->
  (1 <= pair_factor)%Z ->
  aligned (source_dataset self) ->
  Forall (fun G : list paths => Z.of_nat (length G) = (pair_factor * min_pairs self)%Z)
         (group_imgs self) /\
  forall idx ps lab,
    DomainAdaptationPairDataset_getitem self idx = Sample (ps, lab) ->
    exists g G L i,
      group_imgs self !! g = Some G /\ group_labels self !! g = Some L /\
      G !! i = Some ps /\ L !! i = Some lab /\
      (Z.of_nat i < min_pairs self)%Z.
Proof.
  intros Hinit Hpf Hal.
  destruct (realized_sizes _ _ _ _ _ _ _ _ _ _ _ Hinit Hpf Hal)
    as (G1 & G2 & G3 & G4 & _ & _ & Hmp & _ & Hlens & _).
  apply init_constructed in Hinit as (ds & _ & C). split.
  - rewrite (c_group_imgs _ _ _ _ _ _ _ C).
    inversion Hlens as [|? ? L1 Hl1]; subst. inversion Hl1 as [|? ? L2 Hl2]; subst.
    inversion Hl2 as [|? ? L3 Hl3]; subst. inversion Hl3 as [|? ? L4 _]; subst.
    destruct adv; repeat constructor; assumption.
  - intros idx ps lab. unfold DomainAdaptationPairDataset_getitem.
    destruct (subset self !! idx) as [v|]; [|discriminate].
    destruct (min_pairs self =? 0)%Z eqn:Hz; [discriminate|].
    apply Z.eqb_neq in Hz.
    set (q := (Z.of_nat v / min_pairs self)%Z).
    set (last := if adv_stage self then 1%Z else 3%Z).
    set (g := if (last <? q)%Z then last else q).
    set (o := (Z.of_nat v mod min_pairs self)%Z).
    assert (Hq : (0 <= q)%Z) by (apply Z.div_pos; lia).
    assert (Hg : (0 <= g)%Z)
      by (unfold g, last; destruct (adv_stage self), (_ <? q)%Z; lia).
    assert (Ho : (0 <= o < min_pairs self)%Z) by (apply Z.mod_pos_bound; lia).
    rewrite !(pylookup_nonneg _ g Hg).
    destruct (group_imgs self !! Z.to_nat g) as [G|] eqn:HG; [|discriminate].
    rewrite (pylookup_nonneg G o) by lia.
    destruct (G !! Z.to_nat o) as [ps'|] eqn:Hps; [|discriminate].
    destruct (group_labels self !! Z.to_nat g) as [L|] eqn:HL; [|discriminate].
    rewrite (pylookup_nonneg L o) by lia.
    destruct (L !! Z.to_nat o) as [lab'|] eqn:Hlab; [|discriminate].
    intros H. inversion H; subst ps' lab'.
    exists (Z.to_nat g), G, L, (Z.to_nat o). repeat (split; [assumption|]). lia.
Qed.

Lemma only_the_first_pairs_are_served_two_by_two :
  exists self tape',
    two_by_two_run 2 false = Ok (self, tape') /\
    min_pairs self = 1%Z /\
    Forall (fun G : list paths => Z.of_nat (length G) = (2 * min_pairs self)%Z)
           (group_imgs self) /\
    forall idx ps lab,
      DomainAdaptationPairDataset_getitem self idx = Sample (ps, lab) ->
      exists g G L i,
        group_imgs self !! g = Some G /\ group_labels self !! g = Some L /\
        G !! i = Some ps /\ L !! i = Some lab /\
        (Z.of_nat i < min_pairs self)%Z.
Proof.
  destruct (two_by_two_run 2 false) as [[self tape']|e|] eqn:Hrun;
    [|vm_compute in Hrun; discriminate..].
  exists self, tape'. split; [reflexivity|].
  assert (Hal : aligned (source_dataset self) /\ min_pairs self = 1%Z).
  { vm_compute in Hrun. inversion Hrun. split; reflexivity. }
  destruct Hal as [Hal Hmp]. split; [exact Hmp|].
  apply (only_the_first_pairs_are_served _ _ _ _ _ _ _ _ _ _ _ Hrun); [lia|exact Hal].
Defined.
